(** * retro-opl: the OPL2 script interpreter and the VGM converter

    A shallow embedding of [retro_opl.c] (script interpreter) and
    [vgm2opl.c] (binary event decoder), with the rate conversion both
    programs share, and the properties of the specification proved on
    it.

    Conventions.
    - C [int32_t] and [uint32_t] values are [Z]; unsigned wrap-around is
      written out with [wrap32]; every signed addition of the source is
      guarded by an explicit overflow test, which the model keeps.
    - C [double] is IEEE 754 binary64, modelled by [spec_float] with the
      operations of [SpecFloat] at precision 53 and maximal exponent
      1024 (round to nearest, ties to even).
    - [raiseErr()] never returns: every fallible function returns a
      result that is either a value or the diagnostic printed before
      the exit.
    - Global variables ([line_count], [s_fill], [s_total], the input
      stream, the calls made to the OPL driver and to the output file)
      are fields of an explicit state record. *)

From Stdlib Require Import ZArith List Lia Bool Ascii String.
From Stdlib Require Import Floats.SpecFloat.
Import ListNotations.
Open Scope Z_scope.
Open Scope list_scope.

(** ** Part I: definitions *)

Definition INT32_MAX : Z := 2147483647.

(** Arithmetic of [uint32_t]. *)
Definition wrap32 (x : Z) : Z := x mod 2 ^ 32.

(** *** IEEE 754 binary64 *)

Module Double.

Definition prec : Z := 53.
Definition emax : Z := 1024.

Definition double : Type := spec_float.

(** [(double) n] for an integer [n]. *)
Definition of_int (n : Z) : double := binary_normalize prec emax n 0 false.

Definition mul : double -> double -> double := SFmul prec emax.
Definition div : double -> double -> double := SFdiv prec emax.

(** C99 [floor]: the largest integral value not greater than [x];
    zeros, infinities and NaN are returned unchanged. *)
Definition floor (x : double) : double :=
  match x with
  | S754_finite s m e =>
      if 0 <=? e then x
      else binary_normalize prec emax
             (Z.shiftr (cond_Zopp s (Zpos m)) (- e)) 0 s
  | _ => x
  end.

(** C99 [isfinite]. *)
Definition isfinite (x : double) : bool :=
  match x with
  | S754_zero _ | S754_finite _ _ _ => true
  | S754_infinity _ | S754_nan => false
  end.

(** [x <= y] and [x >= y]; both are false when an operand is NaN. *)
Definition le (x y : double) : bool := SFleb x y.
Definition ge (x y : double) : bool := SFleb y x.

(** [(int32_t) x] for a finite [x]: truncation toward zero.  The
    source only casts values already checked to lie in
    [0, INT32_MAX]. *)
Definition to_int (x : double) : Z :=
  match x with
  | S754_finite s m e =>
      if 0 <=? e then cond_Zopp s (Zpos m * 2 ^ e)
      else Z.quot (cond_Zopp s (Zpos m)) (2 ^ (- e))
  | _ => 0
  end.

(** The canonical binary64 representation of an integer
    [0 < n < 2^53] (used to state the facts below). *)
Definition norm (n : Z) : double :=
  S754_finite false (Z.to_pos (n * 2 ^ (53 - Zdigits2 n))) (Zdigits2 n - 53).

(** The result of [binary_round_aux] once the mantissa [M] after the
    first rounding step is in [2^52, 2^53]: a carry to [2^53] is
    renormalised. *)
Definition carry (s : bool) (M e : Z) : double :=
  if M <? 2 ^ 53 then S754_finite s (Z.to_pos M) e
  else S754_finite s (Z.to_pos (2 ^ 52)) (e + 1).

(** The mantissa after one right shift and rounding to nearest even;
    [l] is the location of the exact value above [m]. *)
Definition round_half (m : Z) (l : location) : Z :=
  round_nearest_even (m / 2)
    (loc_of_shr_record (shr_1 (shr_record_of_loc m l))).

End Double.


(** *** Bytes and text *)

(** A byte of input or of a line, as the [int] that [getchar] returns
    or the [uint8_t] stored in a buffer. *)
Definition byte_of (c : ascii) : Z := Z.of_N (N_of_ascii c).

Fixpoint bytes_of (s : string) : list Z :=
  match s with
  | EmptyString => []
  | String c s' => byte_of c :: bytes_of s'
  end.

(** *** The rate conversion shared by both programs

    Both programs compute [floor(((double) T * target) / source)]:
    [retro_opl.c] with the sample rate over the control rate,
    [vgm2opl.c] with 980.0 over 44100.0. *)
Definition rate_floor (T target source : Z) : Double.double :=
  Double.floor
    (Double.div (Double.mul (Double.of_int T) (Double.of_int target))
       (Double.of_int source)).

(** *** retro_opl.c: the script interpreter *)

Module RetroOpl.

Definition BUFFER_SAMPLES : Z := 4096.
Definition LINE_MAXIMUM : Z := 1023.

(** The diagnostics printed before [raiseErr()]; the line-numbered
    ones carry [line_count].  [ErrNotFinite] and [ErrNotIncreasing]
    print the same text ("Numeric problem computing offset!") at two
    different tests of [main]. *)
Inductive error : Type :=
| ErrCheck                      (* a parameter or state check, no text *)
| ErrTooManyLines
| ErrCRWithoutLF (line : Z)
| ErrInvalidChar (line : Z)
| ErrLineTooLong (line : Z)
| ErrByteParse (line : Z)
| ErrIntParse (line : Z)
| ErrIntOverflow (line : Z)
| ErrNoHeaderLine
| ErrNoOPL2Header
| ErrControlRateRange
| ErrHeaderSyntax
| ErrInvalidCommand (line : Z)
| ErrCommandSyntax (line : Z)
| ErrTimeOverflow
| ErrNotFinite
| ErrOffsetRange
| ErrNotIncreasing
| ErrSampleCountOverflow
| ErrFileSizeOverflow.

(** What the program does to its collaborators, in order: the calls
    of [opl_driver.h] and the writes to the WAV file.  The streams
    themselves are taken not to fail. *)
Inductive event : Type :=
| OplInit (sample_rate : Z)
| OplWrite (reg val : Z)
| OplGenerate (offset count : Z)   (* opl_generate(&s_buf[offset], count) *)
| OplFinish
| WavBegin (sample_rate : Z)       (* the header of beginWAV *)
| WavSamples (count : Z)           (* fwrite of [count] samples *)
| WavFinish (chunk_size data_size : Z).

(** The global variables, standard input, the local variables [t] and
    [current] of [main], and the effects so far. *)
Record state : Type := mkState {
  input : list Z;
  line_count : Z;
  l_buf : list Z;      (* the line, without the terminating nul *)
  s_total : Z;
  s_fill : Z;
  t : Z;
  current : Z;
  trace : list event
}.

Definition initial (stdin : list Z) : state :=
  mkState stdin 0 [] 0 0 0 0 [].

Definition set_input (st : state) (i : list Z) : state :=
  mkState i (line_count st) (l_buf st) (s_total st) (s_fill st) (t st)
    (current st) (trace st).
Definition set_line (st : state) (n : Z) (l : list Z) : state :=
  mkState (input st) n l (s_total st) (s_fill st) (t st) (current st) (trace st).
Definition set_buffer (st : state) (total fill : Z) : state :=
  mkState (input st) (line_count st) (l_buf st) total fill (t st) (current st)
    (trace st).
Definition set_t (st : state) (v : Z) : state :=
  mkState (input st) (line_count st) (l_buf st) (s_total st) (s_fill st) v
    (current st) (trace st).
Definition set_current (st : state) (v : Z) : state :=
  mkState (input st) (line_count st) (l_buf st) (s_total st) (s_fill st) (t st)
    v (trace st).
Definition emit (st : state) (e : event) : state :=
  mkState (input st) (line_count st) (l_buf st) (s_total st) (s_fill st) (t st)
    (current st) (trace st ++ [e]).

Inductive result (A : Type) : Type :=
| Ok (a : A)
| Err (e : error).
Arguments Ok {A} a.
Arguments Err {A} e.

(** A computation on the state that may stop on an error; the state
    at the error is kept, to tell what had been done by then. *)
Definition M (A : Type) : Type := state -> result A * state.

Definition ret {A : Type} (a : A) : M A := fun st => (Ok a, st).
Definition raise {A : Type} (e : error) : M A := fun st => (Err e, st).
Definition bind {A B : Type} (c : M A) (k : A -> M B) : M B :=
  fun st =>
    match c st with
    | (Ok a, st') => k a st'
    | (Err e, st') => (Err e, st')
    end.
Definition get : M state := fun st => (Ok st, st).
Definition modify (f : state -> state) : M unit := fun st => (Ok tt, f st).
Definition lift {A : Type} (r : result A) : M A := fun st => (r, st).

Notation "x <- c ;; k" := (bind c (fun x => k))
  (at level 61, c at next level, right associativity).
Notation "c ;;; k" := (bind c (fun _ => k))
  (at level 61, right associativity).

(** [*pstr] for a pointer into the nul-terminated line. *)
Definition peek (pstr : list Z) : Z := hd 0 pstr.

Definition is_blank (c : Z) : bool := (c =? 32) || (c =? 9).
Definition is_dec (c : Z) : bool := (48 <=? c) && (c <=? 57).
Definition is_hex (c : Z) : bool :=
  ((48 <=? c) && (c <=? 57)) || ((65 <=? c) && (c <=? 70))
  || ((97 <=? c) && (c <=? 102)).

(** The characters [readInput] stores in a line: the tab and
    printing US-ASCII. *)
Definition printable (c : Z) : bool := (c =? 9) || ((32 <=? c) && (c <=? 126)).

Fixpoint isBlankStr (pstr : list Z) : bool :=
  match pstr with
  | [] => true
  | c :: rest =>
      if c =? 0 then true
      else if negb (is_blank c) then false
      else isBlankStr rest
  end.

(** The loop that skips tabs and spaces. *)
Fixpoint skip_blanks (pstr : list Z) : list Z :=
  match pstr with
  | c :: rest => if is_blank c then skip_blanks rest else pstr
  | [] => []
  end.

(** One round of the digit loop of [parseByte]. *)
Definition hex_step (line : Z) (result0 : Z) (pstr : list Z) : result (Z * list Z) :=
  let c := peek pstr in
  if (48 <=? c) && (c <=? 57) then
    Ok ((Z.shiftl result0 4 + (c - 48)) mod 256, tl pstr)
  else if (65 <=? c) && (c <=? 70) then
    Ok ((Z.shiftl result0 4 + (c - 65 + 10)) mod 256, tl pstr)
  else if (97 <=? c) && (c <=? 102) then
    Ok ((Z.shiftl result0 4 + (c - 97 + 10)) mod 256, tl pstr)
  else Err (ErrByteParse line).

Definition parseByte (line : Z) (pstr : list Z) : result (Z * list Z) :=
  let pstr := skip_blanks pstr in
  match hex_step line 0 pstr with
  | Err e => Err e
  | Ok (r1, pstr1) =>
      match hex_step line r1 pstr1 with
      | Err e => Err e
      | Ok (r2, pstr2) =>
          if is_hex (peek pstr2) then Err (ErrByteParse line)
          else Ok (r2, pstr2)
      end
  end.

(** The digit loop of [parseInt]. *)
Fixpoint parse_digits (line : Z) (result0 : Z) (pstr : list Z) : result (Z * list Z) :=
  match pstr with
  | c :: rest =>
      if is_dec c then
        let d := c - 48 in
        if result0 <=? INT32_MAX / 10 then
          let result1 := result0 * 10 in
          if result1 <=? INT32_MAX - d then parse_digits line (result1 + d) rest
          else Err (ErrIntOverflow line)
        else Err (ErrIntOverflow line)
      else Ok (result0, pstr)
  | [] => Ok (result0, pstr)
  end.

Definition parseInt (line : Z) (pstr : list Z) : result (Z * list Z) :=
  let pstr := skip_blanks pstr in
  if negb (is_dec (peek pstr)) then Err (ErrIntParse line)
  else parse_digits line 0 pstr.

(** The processing loop of [readInput]: [c] is the character just
    read, [rest] what follows on standard input, [buf] the characters
    stored so far.  Returns the line and the input left. *)
Fixpoint read_line (line : Z) (c : Z) (rest : list Z) (buf : list Z)
  : result (list Z * list Z) :=
  if c =? 13 then
    match rest with
    | c' :: rest' =>
        if c' =? 10 then Ok (buf, rest') else Err (ErrCRWithoutLF line)
    | [] => Err (ErrCRWithoutLF line)
    end
  else if c =? 10 then Ok (buf, rest)
  else if negb (c =? 9) && ((c <? 32) || (c >? 126)) then Err (ErrInvalidChar line)
  else if Z.of_nat (List.length buf) >=? LINE_MAXIMUM then Err (ErrLineTooLong line)
  else
    match rest with
    | [] => Ok (buf ++ [c], [])
    | c' :: rest' => read_line line c' rest' (buf ++ [c])
    end.

(** [readInput]: false at the end of input, true when a line was
    stored in [l_buf].  When the line is refused, the state keeps the
    new line count; the part of the line already stored and the input
    position are not recorded. *)
Definition readInput : M bool :=
  st <- get ;;
  match input st with
  | [] => ret false
  | c :: rest =>
      if line_count st <? INT32_MAX then
        let n := line_count st + 1 in
        match read_line n c rest [] with
        | Ok (buf, rest') =>
            modify (fun st => set_input (set_line st n buf) rest') ;;; ret true
        | Err e =>
            modify (fun st => set_line st n []) ;;; raise e
        end
      else raise ErrTooManyLines
  end.

(** [memcmp(l_buf, "OPL2", 4) == 0]. *)
Definition has_tag (buf : list Z) : bool :=
  (nth 0 buf 0 =? 79) && (nth 1 buf 0 =? 80) && (nth 2 buf 0 =? 76)
  && (nth 3 buf 0 =? 50).

Definition readHeader : M Z :=
  more <- readInput ;;
  if negb more then raise ErrNoHeaderLine
  else
    st <- get ;;
    if negb (has_tag (l_buf st)) then raise ErrNoOPL2Header
    else
      r <- lift (parseInt (line_count st) (skipn 4 (l_buf st))) ;;
      let '(ctl_rate, pstr) := r in
      if (ctl_rate <? 1) || (ctl_rate >? 1024) then raise ErrControlRateRange
      else if negb (isBlankStr pstr) then raise ErrHeaderSyntax
      else ret ctl_rate.

Definition beginWAV (sample_rate : Z) : M unit :=
  if negb (sample_rate =? 48000) && negb (sample_rate =? 44100) then raise ErrCheck
  else modify (fun st => emit st (WavBegin sample_rate)).

Definition flushBuffer : M unit :=
  st <- get ;;
  if s_fill st >? 0 then
    modify (fun st => emit st (WavSamples (s_fill st))) ;;;
    (if s_total st <=? INT32_MAX - s_fill st then
       modify (fun st => set_buffer st (s_total st + s_fill st) 0)
     else raise ErrSampleCountOverflow)
  else ret tt.

Definition finishWAV : M unit :=
  flushBuffer ;;;
  st <- get ;;
  let data_size := s_total st in
  if data_size <=? INT32_MAX / 2 then
    let data_size := data_size * 2 in
    if data_size <=? INT32_MAX - 36 then
      modify (fun st => emit st (WavFinish (data_size + 36) data_size))
    else raise ErrFileSizeOverflow
  else raise ErrFileSizeOverflow.

(** The loop of [computeSamples]; every round handles at least one
    sample, so [count] rounds are enough and [None] (no rounds left)
    does not arise from [computeSamples]. *)
Fixpoint computeSamples_loop (rounds : nat) (count : Z) : M (option unit) :=
  if count >? 0 then
    match rounds with
    | O => ret None
    | S rounds' =>
        st <- get ;;
        (if s_fill st >=? BUFFER_SAMPLES then flushBuffer else ret tt) ;;;
        st <- get ;;
        let work := BUFFER_SAMPLES - s_fill st in
        let work := if count <? work then count else work in
        modify (fun st => emit st (OplGenerate (s_fill st) work)) ;;;
        modify (fun st => set_buffer st (s_total st) (s_fill st + work)) ;;;
        computeSamples_loop rounds' (count - work)
    end
  else ret (Some tt).

Definition computeSamples (count : Z) : M (option unit) :=
  if count <? 1 then raise ErrCheck
  else computeSamples_loop (Z.to_nat count) count.

(** The conversion of the tick count [t] to a sample offset, with the
    tests that follow it in [main]. *)
Definition sample_position (t sample_rate rate : Z) : result Z :=
  let so := rate_floor t sample_rate rate in
  if negb (Double.isfinite so) then Err ErrNotFinite
  else if negb (Double.ge so (Double.of_int 0)
                && Double.le so (Double.of_int INT32_MAX))
  then Err ErrOffsetRange
  else Ok (Double.to_int so).

(** The [w] command once its count [iv32] is parsed. *)
Definition wait_command (sample_rate rate iv32 : Z) : M (option unit) :=
  st <- get ;;
  if t st <=? INT32_MAX - iv32 then
    modify (fun st => set_t st (t st + iv32)) ;;;
    st <- get ;;
    soi <- lift (sample_position (t st) sample_rate rate) ;;
    if soi <=? current st then raise ErrNotIncreasing
    else
      r <- computeSamples (soi - current st) ;;
      modify (fun st => set_current st soi) ;;;
      ret r
  else raise ErrTimeOverflow.

(** The body of the [while (readInput())] loop of [main], for the
    line in [l_buf]. *)
Definition process_line (sample_rate rate : Z) : M (option unit) :=
  st <- get ;;
  let buf := l_buf st in
  let line := line_count st in
  if (nth 0 buf 0 =? 39) || isBlankStr buf then ret (Some tt)
  else if negb (nth 1 buf 0 =? 32) && negb (nth 1 buf 0 =? 9) then
    raise (ErrInvalidCommand line)
  else if nth 0 buf 0 =? 114 then
    r1 <- lift (parseByte line (skipn 1 buf)) ;;
    let '(reg, pstr) := r1 in
    r2 <- lift (parseByte line pstr) ;;
    let '(val, pstr) := r2 in
    if negb (isBlankStr pstr) then raise (ErrCommandSyntax line)
    else modify (fun st => emit st (OplWrite reg val)) ;;; ret (Some tt)
  else if nth 0 buf 0 =? 119 then
    r <- lift (parseInt line (skipn 1 buf)) ;;
    let '(iv32, pstr) := r in
    if negb (isBlankStr pstr) then raise (ErrCommandSyntax line)
    else wait_command sample_rate rate iv32
  else raise (ErrInvalidCommand line).

(** [while (readInput()) { ... }]: every round consumes input, so one
    round per input byte and one more are enough. *)
Fixpoint body_loop (rounds : nat) (sample_rate rate : Z) : M (option unit) :=
  match rounds with
  | O => ret None
  | S rounds' =>
      more <- readInput ;;
      if more then
        r <- process_line sample_rate rate ;;
        match r with
        | Some _ => body_loop rounds' sample_rate rate
        | None => ret None
        end
      else ret (Some tt)
  end.

(** [main], after the program arguments are parsed: [sample_rate] is
    44100 or 48000.  [start] is [main] up to the [while] loop. *)
Definition start (sample_rate : Z) : M Z :=
  modify (fun st => emit st (OplInit sample_rate)) ;;;
  rate <- readHeader ;;
  beginWAV sample_rate ;;;
  ret rate.

Definition main (sample_rate : Z) : M (option unit) :=
  rate <- start sample_rate ;;
  st <- get ;;
  r <- body_loop (S (List.length (input st))) sample_rate rate ;;
  match r with
  | Some _ =>
      modify (fun st => emit st OplFinish) ;;;
      finishWAV ;;;
      ret (Some tt)
  | None => ret None
  end.

Definition run (sample_rate : Z) (script : string) : result (option unit) * state :=
  main sample_rate (initial (bytes_of script)).

(** The states the interpreter goes through between [start] and the
    end of the [while] loop: at the top of the loop, and after
    [readInput] stored a line. *)
Inductive reachable (sample_rate rate : Z) : state -> Prop :=
| reach_start (stdin : list Z) (st : state) :
    start sample_rate (initial stdin) = (Ok rate, st) ->
    reachable sample_rate rate st
| reach_read (st st' : state) :
    reachable sample_rate rate st ->
    readInput st = (Ok true, st') ->
    reachable sample_rate rate st'
| reach_line (st st' : state) :
    reachable sample_rate rate st ->
    process_line sample_rate rate st = (Ok (Some tt), st') ->
    reachable sample_rate rate st'.

(** The number a string of decimal digits denotes, after the digits
    already accumulated in [acc]. *)
Definition digits_value (ds : list Z) (acc : Z) : Z :=
  fold_left (fun a c => a * 10 + (c - 48)) ds acc.

(** The fields the sample buffer code does not touch. *)
Definition same_script (st st' : state) : Prop :=
  t st' = t st /\ current st' = current st /\ input st' = input st
  /\ line_count st' = line_count st /\ l_buf st' = l_buf st.

(** The clock is in range and [current] is its converted position. *)
Definition clock_inv (sample_rate rate : Z) (st : state) : Prop :=
  0 <= t st <= INT32_MAX
  /\ sample_position (t st) sample_rate rate = Ok (current st).

(** Scenario inputs. *)
Definition LF : string := String (ascii_of_nat 10) EmptyString.

Definition scenario_A : string :=
  ("OPL2 60" ++ LF ++ "r 20 01" ++ LF ++ "w 120" ++ LF)%string.

Definition scenario_wait_zero : string :=
  ("OPL2 60" ++ LF ++ "w 0" ++ LF)%string.

Definition scenario_huge_rate : string :=
  ("OPL2 3000000000" ++ LF ++ "w 1" ++ LF)%string.

(** Observations on a trace. *)
Definition register_writes (tr : list event) : list (Z * Z) :=
  flat_map (fun e => match e with OplWrite r v => [(r, v)] | _ => [] end) tr.
Definition generated (tr : list event) : Z :=
  fold_right (fun e n => match e with OplGenerate _ c => c + n | _ => n end) 0 tr.
Definition written (tr : list event) : Z :=
  fold_right (fun e n => match e with WavSamples c => c + n | _ => n end) 0 tr.

(** **** Program arguments *)

(** How the program ends, argument checks included: the syntax text
    when no argument is given, the diagnostics of the two argument
    checks, or the run of [main] proper. *)
Inductive exit : Type :=
| ExitUsage
| ExitWrongArguments
| ExitUnsupportedRate
| Ran (r : result (option unit) * state).

(** [main] from [argv] on: [argv[1]] is the output path, [argv[2]]
    the sampling rate. *)
Definition main_argv (argv : list string) (stdin : list Z) : exit :=
  if (List.length argv <? 2)%nat then ExitUsage
  else if negb (List.length argv =? 3)%nat then ExitWrongArguments
  else if String.eqb (nth 2 argv EmptyString) "44100" then
    Ran (main 44100 (initial stdin))
  else if String.eqb (nth 2 argv EmptyString) "48000" then
    Ran (main 48000 (initial stdin))
  else ExitUnsupportedRate.

(** The uppercase form of a lowercase letter. *)
Definition upper (c : Z) : Z := if (97 <=? c) && (c <=? 122) then c - 32 else c.

(** The preconditions [opl_driver.h] documents for the calls of the
    driver, and for [opl_generate] the room in [s_buf]. *)
Definition call_ok (e : event) : bool :=
  match e with
  | OplInit sample_rate => (sample_rate =? 44100) || (sample_rate =? 48000)
  | OplWrite reg val => (0 <=? reg) && (reg <=? 255) && (0 <=? val) && (val <=? 255)
  | OplGenerate offset count =>
      (0 <=? offset) && (1 <=? count) && (offset + count <=? BUFFER_SAMPLES)
  | WavSamples count => (1 <=? count) && (count <=? BUFFER_SAMPLES)
  | _ => true
  end.

(** The diagnostics of the internal checks, which stand for defects
    of the program rather than of its input. *)
Definition internal (e : error) : bool :=
  match e with
  | ErrCheck | ErrNotFinite | ErrSampleCountOverflow => true
  | _ => false
  end.

(** The events of the sample buffer: the rendering of samples into
    [s_buf] and the flush of [s_buf] to the file. *)
Definition sample_event (e : event) : bool :=
  match e with
  | OplGenerate _ _ | WavSamples _ => true
  | _ => false
  end.

(** The sample buffer between two calls: [s_fill] is within [s_buf],
    [s_total] counts the samples written to the file, and with the
    samples still in the buffer that is what the driver rendered; every
    call so far kept the documented preconditions. *)
Definition buffer_inv (st : state) : Prop :=
  0 <= s_fill st <= BUFFER_SAMPLES /\ 0 <= s_total st
  /\ written (trace st) = s_total st
  /\ generated (trace st) = s_total st + s_fill st
  /\ forallb call_ok (trace st) = true.

(** The state of [main] between two lines of the script: the clock
    invariant, the buffer invariant, and as many samples rendered as
    the current position says. *)
Definition run_inv (sample_rate rate : Z) (st : state) : Prop :=
  clock_inv sample_rate rate st /\ buffer_inv st
  /\ generated (trace st) = current st.

End RetroOpl.

(** *** retro_opl.c: the bytes of the WAV file *)

Module WavFile.

(** The output file: its bytes and the file position. *)
Record file : Type := mkFile {
  content : list Z;
  position : nat
}.

(** [fputc] on a file opened for writing: the byte at the position is
    replaced, or appended at the end of the file. *)
Definition fputc (b : Z) (f : file) : file :=
  mkFile (firstn (position f) (content f) ++ b :: skipn (S (position f)) (content f))
    (S (position f)).

Definition fseek (offset : nat) (f : file) : file := mkFile (content f) offset.

Definition fwrite (bs : list Z) (f : file) : file :=
  fold_left (fun f b => fputc b f) bs f.

(** [writeByte], its argument cast to [uint8_t]. *)
Definition writeByte (val : Z) (f : file) : file := fputc (val mod 256) f.

Definition writeWord (val : Z) (f : file) : file :=
  writeByte (Z.shiftr val 8) (writeByte (Z.land val 0xff) f).

Definition writeDword (val : Z) (f : file) : file :=
  writeByte (Z.shiftr val 24)
    (writeByte (Z.land (Z.shiftr val 16) 0xff)
       (writeByte (Z.land (Z.shiftr val 8) 0xff)
          (writeByte (Z.land val 0xff) f))).

(** The writes of [beginWAV] on the file just created. *)
Definition beginWAV (sample_rate : Z) : file :=
  let f := mkFile [] 0 in
  let f := writeDword 0x46464952 f in
  let f := writeDword 0 f in
  let f := writeDword 0x45564157 f in
  let f := writeDword 0x20746d66 f in
  let f := writeDword 16 f in
  let f := writeWord 1 f in
  let f := writeWord 1 f in
  let f := writeDword (wrap32 sample_rate) f in
  let f := writeDword (wrap32 (sample_rate * 2)) f in
  let f := writeWord 2 f in
  let f := writeWord 16 f in
  let f := writeDword 0x61746164 f in
  writeDword 0 f.

(** The size computations, seeks and writes of [finishWAV], after its
    flush; [None] is the diagnostic "Overflow computing file size!". *)
Definition finishWAV (s_total : Z) (f : file) : option file :=
  let data_size := s_total in
  if data_size <=? INT32_MAX / 2 then
    let data_size := data_size * 2 in
    if data_size <=? INT32_MAX - 36 then
      let chunk_size := data_size + 36 in
      let f := writeDword (wrap32 chunk_size) (fseek 4 f) in
      Some (writeDword (wrap32 data_size) (fseek 40 f))
    else None
  else None.

(** The byte order of the machine the program runs on. *)
Inductive byte_order : Type := LittleEndianHost | BigEndianHost.

(** The two bytes of a 16-bit object in memory, lowest address
    first, as [memcpy] copies them. *)
Definition store16 (host : byte_order) (v : Z) : list Z :=
  let u := v mod 65536 in
  match host with
  | LittleEndianHost => [u mod 256; u / 256]
  | BigEndianHost => [u / 256; u mod 256]
  end.

(** [isLittleEndian]; [None] is the diagnostic "Failed to detect
    endianness!". *)
Definition isLittleEndian (host : byte_order) : option Z :=
  let endian_state := nth 0 (store16 host 0x0201) 0 in
  if endian_state =? 1 then Some 1
  else if endian_state =? 2 then Some 2
  else None.

(** The loop of [flushBuffer] that reverses each pair of bytes. *)
Fixpoint swap_pairs (b_buf : list Z) : list Z :=
  match b_buf with
  | b1 :: b2 :: rest => b2 :: b1 :: swap_pairs rest
  | _ => b_buf
  end.

(** The bytes [flushBuffer] passes to [fwrite] for the samples in
    [s_buf]. *)
Definition sample_bytes (host : byte_order) (s_buf : list Z) : option (list Z) :=
  let b_buf := flat_map (store16 host) s_buf in
  match isLittleEndian host with
  | None => None
  | Some r => Some (if r =? 0 then swap_pairs b_buf else b_buf)
  end.

(** The 32-bit little-endian number at an offset of a byte list. *)
Definition dword_at (bs : list Z) (offset : nat) : Z :=
  nth offset bs 0 + 256 * nth (offset + 1) bs 0
  + 65536 * nth (offset + 2) bs 0 + 16777216 * nth (offset + 3) bs 0.

Definition word_at (bs : list Z) (offset : nat) : Z :=
  nth offset bs 0 + 256 * nth (offset + 1) bs 0.

End WavFile.


(** *** vgm2opl.c: the binary event decoder *)

Module Vgm2Opl.

Definition MAX_DATA_SECTION : Z := 16 * 1024 * 1024.

(** The diagnostics printed before [raiseErr()].  [ErrOutOfBounds] is
    not one of them: it stands for a read outside the bytes of
    [pData], which C leaves undefined. *)
Inductive error : Type :=
| ErrCheck
| ErrReadByte
| ErrNotVGM
| ErrInvalidLoopOffset
| ErrDataOffsetLength
| ErrTooLarge
| ErrReadFailed
| ErrMissingParameters
| ErrUnsupportedOpcode (op : Z)
| ErrSampleOverflow
| ErrNumericProblem
| ErrOutOfBounds.

Inductive result (A : Type) : Type :=
| Ok (a : A)
| Err (e : error).
Arguments Ok {A} a.
Arguments Err {A} e.

Definition bind {A B : Type} (r : result A) (k : A -> result B) : result B :=
  match r with
  | Ok a => k a
  | Err e => Err e
  end.

Notation "x <- c ;; k" := (bind c (fun x => k))
  (at level 61, c at next level, right associativity).

(** **** Header resolution *)

(** [fgetc] at a position of the input file. *)
Definition readByte (file : list Z) (pos : Z) : result Z :=
  match nth_error file (Z.to_nat pos) with
  | Some b => Ok b
  | None => Err ErrReadByte
  end.

(** [readDword] with the file position at [pos]. *)
Definition readDword (file : list Z) (pos : Z) : result Z :=
  b0 <- readByte file pos ;;
  b1 <- readByte file (pos + 1) ;;
  b2 <- readByte file (pos + 2) ;;
  b3 <- readByte file (pos + 3) ;;
  Ok (Z.lor (Z.lor (Z.lor b0 (Z.shiftl b1 8)) (Z.shiftl b2 16)) (Z.shiftl b3 24)).

Definition readHead (file : list Z) (offs : Z) : result Z :=
  if offs <? 0 then Err ErrCheck else readDword file offs.

(** The values [main] holds once the header fields are read and the
    fallback rules applied: [loop_abs] is [loop_offs] before it is
    made relative to the data offset. *)
Record header : Type := mkHeader {
  file_ver : Z;
  file_len : Z;
  loop_abs : Z;
  data_offs : Z
}.

Definition read_header (file : list Z) : result header :=
  magic <- readHead file 0 ;;
  if negb (magic =? 0x206d6756) then Err ErrNotVGM
  else
    file_ver <- readHead file 0x08 ;;
    h04 <- readHead file 0x04 ;;
    let file_len := wrap32 (h04 + 4) in
    h1c <- readHead file 0x1c ;;
    let loop_offs := wrap32 (h1c + 0x1c) in
    let loop_offs := if loop_offs <=? 0x1c then 0 else loop_offs in
    data_offs <-
      (if file_ver >=? 0x150 then
         h34 <- readHead file 0x34 ;;
         let data_offs := wrap32 (h34 + 0x34) in
         Ok (if data_offs <=? 52 then 0x40 else data_offs)
       else Ok 0x40) ;;
    let loop_offs := if loop_offs <=? 0 then data_offs else loop_offs in
    Ok (mkHeader file_ver file_len loop_offs data_offs).

(** The data section in memory: [pData], [full_length] and the loop
    offset relative to the data offset. *)
Record section : Type := mkSection {
  pData : list Z;
  full_length : Z;
  loop_offs : Z
}.

Definition load_section (file : list Z) (h : header) : result section :=
  if (loop_abs h <? data_offs h) || (loop_abs h >=? file_len h)
  then Err ErrInvalidLoopOffset
  else
    let loop_offs := wrap32 (loop_abs h - data_offs h) in
    if file_len h <=? data_offs h then Err ErrDataOffsetLength
    else
      let data_len := wrap32 (file_len h - data_offs h) in
      if data_len >? MAX_DATA_SECTION then Err ErrTooLarge
      else
        let bytes :=
          firstn (Z.to_nat data_len) (skipn (Z.to_nat (data_offs h)) file) in
        if negb (Z.of_nat (List.length bytes) =? data_len) then Err ErrReadFailed
        else Ok (mkSection bytes data_len loop_offs).

Definition load (file : list Z) : result section :=
  h <- read_header file ;;
  load_section file h.

(** **** The event walk *)

(** The lines written to standard output: ["OPL2 980"], ["r %02x %02x"]
    and ["w %ld"]. *)
Inductive command : Type :=
| CmdHeader
| CmdR (reg val : Z)
| CmdW (ticks : Z).

(** The local variables of [main] during the walk: [pd] is the index
    in [pData] the pointer [pd] stands at. *)
Record walk : Type := mkWalk {
  pd : Z;
  data_len : Z;
  wait_cmd : bool;
  wait_req : Z;
  samp_offs : Z;
  ctl_offs : Z;
  output : list command
}.

Definition set_cursor (w : walk) (p len : Z) : walk :=
  mkWalk p len (wait_cmd w) (wait_req w) (samp_offs w) (ctl_offs w) (output w).
Definition set_wait (w : walk) (c : bool) (req : Z) : walk :=
  mkWalk (pd w) (data_len w) c req (samp_offs w) (ctl_offs w) (output w).
Definition set_samp_offs (w : walk) (v : Z) : walk :=
  mkWalk (pd w) (data_len w) (wait_cmd w) (wait_req w) v (ctl_offs w) (output w).
Definition set_ctl_offs (w : walk) (v : Z) : walk :=
  mkWalk (pd w) (data_len w) (wait_cmd w) (wait_req w) (samp_offs w) v (output w).
Definition print (w : walk) (c : command) : walk :=
  mkWalk (pd w) (data_len w) (wait_cmd w) (wait_req w) (samp_offs w) (ctl_offs w)
    (output w ++ [c]).

(** [pd[i]]. *)
Definition at_pd (data : list Z) (w : walk) (i : Z) : option Z :=
  if pd w + i <? 0 then None else nth_error data (Z.to_nat (pd w + i)).

(** How one round of the [while] loop, or a part of it, ends. *)
Inductive outcome : Type :=
| Continue (w : walk)
| Break (w : walk)
| Fail (e : error) (w : walk).

(** The two operand bytes, then [pd += 2; data_len -= 2]. *)
Definition operands (data : list Z) (w : walk) (k : Z -> Z -> walk -> walk) : outcome :=
  if data_len w <? 3 then Fail ErrMissingParameters w
  else
    match at_pd data w 1, at_pd data w 2 with
    | Some b1, Some b2 =>
        let w := k b1 b2 w in
        Continue (set_cursor w (pd w + 2) (wrap32 (data_len w - 2)))
    | _, _ => Fail ErrOutOfBounds w
    end.

(** The chain of tests on [*pd]. *)
Definition dispatch (data : list Z) (w : walk) : outcome :=
  match at_pd data w 0 with
  | None => Fail ErrOutOfBounds w
  | Some op =>
      if op =? 0x66 then Break w
      else if (op >=? 0x70) && (op <=? 0x7f) then
        Continue (set_wait w true (op - 0x70 + 1))
      else if op =? 0x63 then Continue (set_wait w true 882)
      else if op =? 0x62 then Continue (set_wait w true 735)
      else if op =? 0x61 then
        operands data w
          (fun b1 b2 w => set_wait w true (Z.lor b1 (Z.shiftl b2 8)))
      else if op =? 0x5a then
        operands data (set_wait w false (wait_req w))
          (fun b1 b2 w => print w (CmdR b1 b2))
      else Fail (ErrUnsupportedOpcode op) w
  end.

(** The position at control rate 980 for a sample offset at 44100,
    with the test that follows it. *)
Definition control_position (samp_offs : Z) : result Z :=
  let f := rate_floor samp_offs 980 44100 in
  if negb (Double.ge f (Double.of_int 0)
           && Double.le f (Double.of_int INT32_MAX))
  then Err ErrNumericProblem
  else Ok (Double.to_int f).

(** The two [if (wait_cmd)] blocks. *)
Definition handle_wait (w : walk) : outcome :=
  let w :=
    if wait_cmd w && (wait_req w <? 1) then set_wait w false (wait_req w)
    else w in
  if wait_cmd w then
    if samp_offs w <=? INT32_MAX - wait_req w then
      let w := set_samp_offs w (samp_offs w + wait_req w) in
      match control_position (samp_offs w) with
      | Err e => Fail e w
      | Ok new_ctl =>
          if new_ctl >? ctl_offs w then
            Continue (set_ctl_offs (print w (CmdW (new_ctl - ctl_offs w))) new_ctl)
          else Continue w
      end
    else Fail ErrSampleOverflow w
  else Continue w.

(** One round of [while (data_len > 0)]. *)
Definition round (data : list Z) (w : walk) : outcome :=
  match dispatch data w with
  | Continue w =>
      match handle_wait w with
      | Continue w =>
          Continue (set_cursor w (pd w + 1) (wrap32 (data_len w - 1)))
      | o => o
      end
  | o => o
  end.

(** How a pass, or the whole walk, ends.  Every round lowers
    [data_len], so [data_len] rounds are enough and [NoRoundsLeft]
    does not arise from [pass]. *)
Inductive ending : Type :=
| Finished (w : walk)
| Stopped (e : error) (w : walk)
| NoRoundsLeft.

Fixpoint pass_loop (rounds : nat) (data : list Z) (w : walk) : ending :=
  if data_len w >? 0 then
    match rounds with
    | O => NoRoundsLeft
    | S rounds' =>
        match round data w with
        | Continue w' => pass_loop rounds' data w'
        | Break w' => Finished w'
        | Fail e w' => Stopped e w'
        end
    end
  else Finished w.

(** The top of the [for] loop: the start of pass [i]. *)
Definition start_pass (sec : section) (i : Z) (w : walk) : walk :=
  let w := set_cursor w 0 (full_length sec) in
  if i >? 0 then
    set_cursor w (pd w + loop_offs sec) (wrap32 (data_len w - loop_offs sec))
  else w.

Definition pass (sec : section) (i : Z) (w : walk) : ending :=
  let w := start_pass sec i w in
  pass_loop (Z.to_nat (data_len w)) (pData sec) w.

(** [for(i = 0; i < rep_count; i++)], with [todo] passes to go. *)
Fixpoint passes (todo : nat) (sec : section) (i : Z) (w : walk) : ending :=
  match todo with
  | O => Finished w
  | S todo' =>
      match pass sec i w with
      | Finished w' => passes todo' sec (i + 1) w'
      | e => e
      end
  end.

Definition initial : walk := mkWalk 0 0 false 0 0 0 [].

(** The walk of [main] over a loaded section; [rep_count] is 1 or 2. *)
Definition decode (rep_count : Z) (sec : section) : ending :=
  passes (Z.to_nat rep_count) sec 0 (print initial CmdHeader).

(** [main], after the program arguments are parsed. *)
Definition main (file : list Z) (rep_count : Z) : ending :=
  match load file with
  | Err e => Stopped e initial
  | Ok sec => decode rep_count sec
  end.

(** The opcodes [dispatch] has a branch for. *)
Definition supported (op : Z) : bool :=
  (op =? 0x66) || ((op >=? 0x70) && (op <=? 0x7f)) || (op =? 0x63)
  || (op =? 0x62) || (op =? 0x61) || (op =? 0x5a).

(** Scenario inputs: a data section that starts with opcode 0x7A, one
    with waits and a register write, whose loop offset is its own
    start, and a file of version 1.50 with both offset fields zero. *)
Definition section_7A : section := mkSection [0x7a; 0x5a; 0x20; 0x01] 4 0.

Definition section_loop : section :=
  mkSection [0x62; 0x5a; 0x20; 0x01; 0x63; 0x66] 6 0.

Definition sample_file : list Z :=
  [0x56; 0x67; 0x6d; 0x20; 0x41; 0; 0; 0; 0x50; 1; 0; 0]
  ++ repeat 0 52 ++ [0x62; 0x5a; 1; 2; 0x66].

(** The waits written so far, added up. *)
Definition total_wait (out : list command) : Z :=
  fold_right (fun c n => match c with CmdW k => k + n | _ => n end) 0 out.

(** The part of the data still to walk lies inside [pData]. *)
Definition in_bounds (data : list Z) (w : walk) : Prop :=
  0 <= pd w /\ 0 <= data_len w < 2 ^ 32
  /\ pd w + data_len w <= Z.of_nat (List.length data).

(** What [load] guarantees of a section. *)
Definition well_formed (sec : section) : Prop :=
  Z.of_nat (List.length (pData sec)) = full_length sec
  /\ 0 <= loop_offs sec < full_length sec
  /\ full_length sec <= MAX_DATA_SECTION.

(** The accounting of waits: the control position is the converted
    sample offset, and the waits written add up to it. *)
Definition accounted (w : walk) : Prop :=
  0 <= samp_offs w <= INT32_MAX
  /\ ctl_offs w = samp_offs w * 980 / 44100
  /\ total_wait (output w) = ctl_offs w.

(** [w'] comes after [w]: output is only appended, the sample offset
    only grows. *)
Definition extends (w w' : walk) : Prop :=
  (exists more, output w' = output w ++ more) /\ samp_offs w <= samp_offs w'.

(** **** The text written to standard output *)

(** A lowercase hexadecimal digit. *)
Definition hex_digit (d : Z) : Z := if d <? 10 then 48 + d else 87 + d.

(** [printf("%02x", b)] for a value below 256, as every [uint8_t] is. *)
Definition print_02x (b : Z) : list Z := [hex_digit (b / 16); hex_digit (b mod 16)].

(** The decimal digits of [n >= 0] before those of [acc], at most
    [digits] of them. *)
Fixpoint dec_loop (digits : nat) (n : Z) (acc : list Z) : list Z :=
  match digits with
  | O => acc
  | S digits' =>
      let acc' := (48 + n mod 10) :: acc in
      if n / 10 =? 0 then acc' else dec_loop digits' (n / 10) acc'
  end.

(** [printf("%ld", n)]. *)
Definition print_ld (n : Z) : list Z :=
  if n <? 0 then 45 :: dec_loop (S (Z.to_nat (Z.log2 (- n)))) (- n) []
  else dec_loop (S (Z.to_nat (Z.log2 n))) n [].

(** The text of the line a command stands for, and the line with its
    line feed. *)
Definition text (c : command) : list Z :=
  match c with
  | CmdHeader => bytes_of "OPL2 980"
  | CmdR reg val => bytes_of "r " ++ print_02x reg ++ [32] ++ print_02x val
  | CmdW ticks => bytes_of "w " ++ print_ld ticks
  end.

Definition render (c : command) : list Z := text c ++ [10].

Definition stdout (out : list command) : list Z := flat_map render out.

(** The register writes among the commands, in order. *)
Definition register_commands (out : list command) : list (Z * Z) :=
  flat_map (fun c => match c with CmdR r v => [(r, v)] | _ => [] end) out.

(** A command the walk can print after the header: a register write
    of two bytes, or a wait of at least one tick. *)
Definition body_command (c : command) : bool :=
  match c with
  | CmdHeader => false
  | CmdR reg val => (0 <=? reg) && (reg <=? 255) && (0 <=? val) && (val <=? 255)
  | CmdW ticks => (1 <=? ticks) && (ticks <=? INT32_MAX)
  end.

(** A script as the interpreter expects it: the header line first,
    then body commands only. *)
Definition is_script (out : list command) : bool :=
  match out with
  | CmdHeader :: body => forallb body_command body
  | _ => false
  end.

(** The diagnostics of header resolution and loading, and those of
    the walk over the data section. *)
Definition load_diagnostic (e : error) : bool :=
  match e with
  | ErrReadByte | ErrNotVGM | ErrInvalidLoopOffset | ErrDataOffsetLength
  | ErrTooLarge | ErrReadFailed => true
  | _ => false
  end.

Definition walk_diagnostic (e : error) : bool :=
  match e with
  | ErrMissingParameters | ErrSampleOverflow => true
  | ErrUnsupportedOpcode op => negb (supported op)
  | _ => false
  end.

(** What was written to standard output when the program ends. *)
Definition printed (e : ending) : list command :=
  match e with
  | Finished w | Stopped _ w => output w
  | NoRoundsLeft => []
  end.

End Vgm2Opl.

(** ** Part II: properties *)

Module DoubleFacts.
Import Double.

(** A few values, computed. *)
Example of_int_one : of_int 1 = S754_finite false (Z.to_pos (2 ^ 52)) (-52).
Proof. reflexivity. Qed.

Example floor_seven_halves : floor (div (of_int 7) (of_int 2)) = of_int 3.
Proof. vm_compute. reflexivity. Qed.

Example floor_minus_seven_halves :
  floor (div (of_int (-7)) (of_int 2)) = of_int (-4).
Proof. vm_compute. reflexivity. Qed.

Example floor_third : floor (div (of_int 1) (of_int 3)) = of_int 0.
Proof. vm_compute. reflexivity. Qed.

Example division_by_zero_not_finite : isfinite (div (of_int 1) (of_int 0)) = false.
Proof. reflexivity. Qed.

Example to_int_example : to_int (of_int 88200) = 88200.
Proof. vm_compute. reflexivity. Qed.

Example rate_floor_example : rate_floor 120 44100 60 = of_int 88200.
Proof. vm_compute. reflexivity. Qed.

Lemma digits2_pos_bounds (p : positive) :
  2 ^ (Zpos (digits2_pos p) - 1) <= Zpos p < 2 ^ Zpos (digits2_pos p).
Proof.
  induction p as [p IH | p IH |]; cbn [digits2_pos].
  - rewrite Pos2Z.inj_succ.
    replace (Z.succ (Zpos (digits2_pos p)) - 1) with (Zpos (digits2_pos p)) by lia.
    rewrite Z.pow_succ_r by lia.
    assert (H : 2 ^ Zpos (digits2_pos p) = 2 * 2 ^ (Zpos (digits2_pos p) - 1)).
    { rewrite <- Z.pow_succ_r by lia. f_equal. lia. }
    lia.
  - rewrite Pos2Z.inj_succ.
    replace (Z.succ (Zpos (digits2_pos p)) - 1) with (Zpos (digits2_pos p)) by lia.
    rewrite Z.pow_succ_r by lia.
    assert (H : 2 ^ Zpos (digits2_pos p) = 2 * 2 ^ (Zpos (digits2_pos p) - 1)).
    { rewrite <- Z.pow_succ_r by lia. f_equal. lia. }
    lia.
  - cbn. lia.
Qed.

Lemma Zdigits2_bounds (n : Z) :
  0 < n -> 2 ^ (Zdigits2 n - 1) <= n < 2 ^ Zdigits2 n.
Proof.
  destruct n as [|p|p]; try lia. intros _. apply digits2_pos_bounds.
Qed.

Lemma Zdigits2_pos (n : Z) : 0 < n -> 0 < Zdigits2 n.
Proof. destruct n; cbn; lia. Qed.

(** The number of digits is determined by the bounds. *)
Lemma Zdigits2_unique (n d : Z) :
  0 < n -> 2 ^ (d - 1) <= n < 2 ^ d -> Zdigits2 n = d.
Proof.
  intros Hn [Hlo Hhi].
  pose proof (Zdigits2_bounds n Hn) as [Hlo' Hhi'].
  pose proof (Zdigits2_pos n Hn) as Hd.
  assert (Hd0 : 0 < d).
  { destruct (Z_lt_le_dec 0 d) as [|Hle]; [assumption|].
    assert (2 ^ d <= 2 ^ 0) by (apply Z.pow_le_mono_r; lia).
    change (2 ^ 0) with 1 in *. lia. }
  destruct (Z.lt_trichotomy (Zdigits2 n) d) as [Hlt | [Heq | Hgt]]; [|assumption|].
  - assert (2 ^ Zdigits2 n <= 2 ^ (d - 1)) by (apply Z.pow_le_mono_r; lia). lia.
  - assert (2 ^ d <= 2 ^ (Zdigits2 n - 1)) by (apply Z.pow_le_mono_r; lia). lia.
Qed.

Lemma Zdigits2_le (n d : Z) : 0 < n -> 0 <= d -> n < 2 ^ d -> Zdigits2 n <= d.
Proof.
  intros Hn Hd Hlt.
  pose proof (Zdigits2_bounds n Hn) as [Hlo _].
  destruct (Z_lt_le_dec d (Zdigits2 n)) as [Hgt|]; [|assumption].
  assert (2 ^ d <= 2 ^ (Zdigits2 n - 1)) by (apply Z.pow_le_mono_r; lia). lia.
Qed.

Lemma Zdigits2_shift (n k : Z) :
  0 < n -> 0 <= k -> Zdigits2 (n * 2 ^ k) = Zdigits2 n + k.
Proof.
  intros Hn Hk.
  pose proof (Zdigits2_bounds n Hn) as [Hlo Hhi].
  pose proof (Zdigits2_pos n Hn) as Hd.
  assert (Hp : 0 < 2 ^ k) by (apply Z.pow_pos_nonneg; lia).
  apply Zdigits2_unique; [nia|].
  replace (Zdigits2 n + k - 1) with ((Zdigits2 n - 1) + k) by lia.
  rewrite !Z.pow_add_r by lia. nia.
Qed.

(** **** Shifting right *)

Lemma iter_pos_nat {A : Type} (f : A -> A) (p : positive) (x : A) :
  iter_pos f p x = Nat.iter (Pos.to_nat p) f x.
Proof.
  revert x. induction p as [p IH | p IH |]; intros x; cbn [iter_pos].
  - rewrite !IH, Pos2Nat.inj_xI.
    replace (S (2 * Pos.to_nat p)) with (Pos.to_nat p + S (Pos.to_nat p))%nat by lia.
    rewrite Nat.iter_add, Nat.iter_succ_r. reflexivity.
  - rewrite !IH, Pos2Nat.inj_xO.
    replace (2 * Pos.to_nat p)%nat with (Pos.to_nat p + Pos.to_nat p)%nat by lia.
    rewrite Nat.iter_add. reflexivity.
  - reflexivity.
Qed.

Lemma shr_1_double (x : Z) :
  0 <= x ->
  shr_1 (Build_shr_record (2 * x) false false) = Build_shr_record x false false.
Proof. destruct x as [|p|p]; intros H; try lia; reflexivity. Qed.

Lemma iter_shr_1_exact (n : nat) (x : Z) :
  0 <= x ->
  Nat.iter n shr_1 (Build_shr_record (x * 2 ^ Z.of_nat n) false false)
  = Build_shr_record x false false.
Proof.
  revert x. induction n as [|n IH]; intros x Hx.
  - cbn [Nat.iter]. change (2 ^ Z.of_nat 0) with 1. rewrite Z.mul_1_r. reflexivity.
  - rewrite Nat.iter_succ_r, Nat2Z.inj_succ, Z.pow_succ_r by lia.
    replace (x * (2 * 2 ^ Z.of_nat n)) with (2 * (x * 2 ^ Z.of_nat n)) by ring.
    rewrite shr_1_double by (apply Z.mul_nonneg_nonneg; [lia | apply Z.pow_nonneg; lia]).
    apply IH. assumption.
Qed.

Lemma shr_exact (x e n : Z) :
  0 <= x -> 0 <= n ->
  shr (Build_shr_record (x * 2 ^ n) false false) e n
  = (Build_shr_record x false false, e + n).
Proof.
  intros Hx Hn. destruct n as [|p|p]; try lia.
  - change (2 ^ 0) with 1. rewrite Z.mul_1_r, Z.add_0_r. reflexivity.
  - cbn [shr]. rewrite iter_pos_nat.
    rewrite <- (positive_nat_Z p) at 1. rewrite iter_shr_1_exact by assumption.
    reflexivity.
Qed.

Lemma fexp_normal (e : Z) : -1021 <= e -> fexp prec emax e = e - 53.
Proof. intros H. unfold fexp, emin, prec, emax. lia. Qed.

Lemma shr_record_of_loc_m (m : Z) (l : location) :
  shr_m (shr_record_of_loc m l) = m.
Proof. destruct l as [|[| |]]; reflexivity. Qed.

Lemma loc_of_shr_record_of_loc (m : Z) (l : location) :
  loc_of_shr_record (shr_record_of_loc m l) = l.
Proof. destruct l as [|[| |]]; reflexivity. Qed.

(** **** Rounding a mantissa of 53 or 54 digits *)

Lemma round_second_step (s : bool) (M e : Z) :
  2 ^ 52 <= M <= 2 ^ 53 -> -1074 <= e <= 970 ->
  (let '(mrs, e') := shr_fexp prec emax M e loc_Exact in
   match shr_m mrs with
   | Z0 => S754_zero s
   | Zpos m => if e' <=? emax - prec then S754_finite s m e' else S754_infinity s
   | Zneg _ => S754_nan
   end) = carry s M e.
Proof.
  intros HM He. unfold carry.
  destruct (Z.ltb_spec M (2 ^ 53)) as [Hlt | Hge].
  - assert (Hd : Zdigits2 M = 53) by (apply Zdigits2_unique; change (53 - 1) with 52; lia).
    unfold shr_fexp. rewrite Hd, fexp_normal by lia.
    replace (53 + e - 53 - e) with 0 by lia. cbn [shr shr_record_of_loc shr_m].
    destruct M as [|m|m]; try lia.
    unfold emax, prec. destruct (Z.leb_spec e (1024 - 53)); [reflexivity | lia].
  - assert (HM' : M = 2 ^ 53) by lia. subst M.
    unfold shr_fexp. change (Zdigits2 (2 ^ 53)) with 54. rewrite fexp_normal by lia.
    replace (54 + e - 53 - e) with 1 by lia.
    cbn [shr_record_of_loc].
    change (2 ^ 53) with (2 ^ 52 * 2 ^ 1). rewrite shr_exact by lia.
    cbn [shr_m]. change (2 ^ 52) with (Zpos (Z.to_pos (2 ^ 52))) at 1.
    cbv iota beta.
    unfold emax, prec. destruct (Z.leb_spec (e + 1) (1024 - 53)); [reflexivity | lia].
Qed.

Lemma round_aux_53 (s : bool) (m e : Z) (l : location) :
  2 ^ 52 <= m < 2 ^ 53 -> -1074 <= e <= 970 ->
  binary_round_aux prec emax s m e l = carry s (round_nearest_even m l) e.
Proof.
  intros Hm He.
  assert (Hd : Zdigits2 m = 53) by (apply Zdigits2_unique; change (53 - 1) with 52; lia).
  unfold binary_round_aux.
  unfold shr_fexp at 1. rewrite Hd, fexp_normal by lia.
  replace (53 + e - 53 - e) with 0 by lia. cbn [shr].
  rewrite shr_record_of_loc_m, loc_of_shr_record_of_loc.
  apply round_second_step; [|assumption].
  destruct l as [|[| |]]; cbn [round_nearest_even]; try lia.
  destruct (Z.even m); lia.
Qed.

Lemma shr_1_m (m : Z) (l : location) :
  0 <= m -> shr_m (shr_1 (shr_record_of_loc m l)) = m / 2.
Proof.
  intros Hm.
  destruct m as [|[p|p|]|p]; try lia;
    destruct l as [|[| |]]; cbn [shr_record_of_loc shr_1 shr_m orb];
    try reflexivity;
    first [ apply Z.div_unique with (r := 1); lia
          | apply Z.div_unique with (r := 0); lia ].
Qed.

Lemma round_aux_54 (s : bool) (m e : Z) (l : location) :
  2 ^ 53 <= m < 2 ^ 54 -> -1074 <= e <= 969 ->
  binary_round_aux prec emax s m e l = carry s (round_half m l) (e + 1).
Proof.
  intros Hm He.
  assert (Hd : Zdigits2 m = 54) by (apply Zdigits2_unique; change (54 - 1) with 53; lia).
  unfold binary_round_aux.
  unfold shr_fexp at 1. rewrite Hd, fexp_normal by lia.
  replace (54 + e - 53 - e) with 1 by lia. cbn [shr iter_pos].
  assert (Hshr : shr_m (shr_1 (shr_record_of_loc m l)) = m / 2)
    by (apply shr_1_m; lia).
  rewrite Hshr. fold (round_half m l).
  apply round_second_step; [|lia].
  unfold round_half.
  assert (2 ^ 52 <= m / 2 < 2 ^ 53).
  { split; [apply Z.div_le_lower_bound | apply Z.div_lt_upper_bound]; lia. }
  destruct (loc_of_shr_record _) as [|[| |]]; cbn [round_nearest_even]; try lia.
  destruct (Z.even (m / 2)); lia.
Qed.

(** **** Conversion from integers and exact products *)

Lemma iter_xO_pow (m d : positive) :
  Zpos (Pos.iter xO m d) = Zpos m * 2 ^ Zpos d.
Proof.
  induction d as [|d IH] using Pos.peano_ind.
  - cbn [Pos.iter]. lia.
  - rewrite Pos.iter_succ, Pos2Z.inj_xO, IH, Pos2Z.inj_succ, Z.pow_succ_r by lia.
    ring.
Qed.

Lemma norm_mantissa (n : Z) :
  0 < n < 2 ^ 53 ->
  2 ^ 52 <= n * 2 ^ (53 - Zdigits2 n) < 2 ^ 53 /\ 1 <= Zdigits2 n <= 53.
Proof.
  intros Hn.
  pose proof (Zdigits2_bounds n ltac:(lia)) as [Hlo Hhi].
  pose proof (Zdigits2_pos n ltac:(lia)) as Hd.
  pose proof (Zdigits2_le n 53 ltac:(lia) ltac:(lia) ltac:(lia)) as Hd53.
  assert (Hp : 0 < 2 ^ (53 - Zdigits2 n)) by (apply Z.pow_pos_nonneg; lia).
  assert (H52 : 2 ^ 52 = 2 ^ (Zdigits2 n - 1) * 2 ^ (53 - Zdigits2 n)).
  { rewrite <- Z.pow_add_r by lia. f_equal. lia. }
  assert (H53 : 2 ^ 53 = 2 ^ Zdigits2 n * 2 ^ (53 - Zdigits2 n)).
  { rewrite <- Z.pow_add_r by lia. f_equal. lia. }
  split; [|lia]. rewrite H52 at 1. rewrite H53 at 1. nia.
Qed.

Lemma binary_round_exact (s : bool) (p : positive) (e : Z) :
  Zpos p < 2 ^ 53 -> -1000 <= e <= 900 ->
  binary_round prec emax s p e
  = S754_finite s (Z.to_pos (Zpos p * 2 ^ (53 - Zdigits2 (Zpos p))))
      (e + Zdigits2 (Zpos p) - 53).
Proof.
  intros Hp He.
  destruct (norm_mantissa (Zpos p) ltac:(lia)) as [Hm Hd].
  cbn [Zdigits2] in *. set (d := Zpos (digits2_pos p)) in *.
  unfold binary_round. rewrite fexp_normal by lia.
  unfold shl_align. fold d.
  destruct (d + e - 53 - e) as [|k|k] eqn:Hk; try lia; cbv beta iota.
  - replace (53 - d) with 0 in * by lia.
    change (2 ^ 0) with 1 in *. rewrite Z.mul_1_r in *.
    rewrite round_aux_53 by lia. cbn [round_nearest_even]. unfold carry.
    destruct (Z.ltb_spec (Zpos p) (2 ^ 53)); [|lia].
    f_equal. lia.
  - assert (Hk' : 53 - d = Zpos k) by lia. rewrite Hk' in *.
    rewrite round_aux_53; rewrite ?iter_xO_pow; try lia.
    cbn [round_nearest_even]. unfold carry.
    destruct (Z.ltb_spec (Zpos p * 2 ^ Zpos k) (2 ^ 53)); [|lia].
    f_equal. lia.
Qed.

Lemma of_int_norm (n : Z) : 0 < n < 2 ^ 53 -> of_int n = norm n.
Proof.
  intros Hn. destruct n as [|p|p]; try lia.
  unfold of_int, norm. cbn [binary_normalize].
  rewrite binary_round_exact by lia. f_equal.
Qed.

Lemma of_int_0 : of_int 0 = S754_zero false.
Proof. reflexivity. Qed.

Lemma mul_norm (a b : Z) :
  0 < a -> 0 < b -> a * b < 2 ^ 53 -> mul (norm a) (norm b) = norm (a * b).
Proof.
  intros Ha Hb Hab.
  assert (Ha53 : a < 2 ^ 53) by nia. assert (Hb53 : b < 2 ^ 53) by nia.
  destruct (norm_mantissa a ltac:(lia)) as [Hma Hda].
  destruct (norm_mantissa b ltac:(lia)) as [Hmb Hdb].
  destruct (norm_mantissa (a * b) ltac:(nia)) as [Hmp Hdp].
  pose proof (Zdigits2_bounds a Ha) as [Halo Hahi].
  pose proof (Zdigits2_bounds b Hb) as [Hblo Hbhi].
  pose proof (Zdigits2_bounds (a * b) ltac:(nia)) as [Hplo Hphi].
  set (da := Zdigits2 a) in *. set (db := Zdigits2 b) in *.
  set (D := Zdigits2 (a * b)) in *.
  assert (HD : da + db - 1 <= D).
  { destruct (Z_lt_le_dec D (da + db - 1)) as [Hlt|]; [|assumption].
    assert (H1 : 2 ^ D <= 2 ^ (da - 1 + (db - 1))) by (apply Z.pow_le_mono_r; lia).
    rewrite Z.pow_add_r in H1 by lia.
    assert (2 ^ (da - 1) * 2 ^ (db - 1) <= a * b) by (apply Z.mul_le_mono_nonneg; lia).
    lia. }
  unfold mul, norm, SFmul. fold da db D. cbn [xorb].
  rewrite Pos2Z.inj_mul, !Z2Pos.id by lia.
  set (n := D + 53 - da - db).
  assert (Hmant : a * 2 ^ (53 - da) * (b * 2 ^ (53 - db))
                  = a * b * 2 ^ (53 - D) * 2 ^ n).
  { replace (a * b * 2 ^ (53 - D) * 2 ^ n) with (a * b * (2 ^ (53 - D) * 2 ^ n)) by ring.
    rewrite <- Z.pow_add_r by lia.
    replace (53 - D + n) with ((53 - da) + (53 - db)) by lia.
    rewrite Z.pow_add_r by lia. ring. }
  assert (Hdig : Zdigits2 (a * 2 ^ (53 - da) * (b * 2 ^ (53 - db))) = 53 + n).
  { rewrite Hmant. rewrite Zdigits2_shift by lia.
    f_equal. apply Zdigits2_unique; [lia|]. change (53 - 1) with 52. lia. }
  unfold binary_round_aux. unfold shr_fexp at 1.
  rewrite Hdig, fexp_normal by lia.
  replace (53 + n + (da - 53 + (db - 53)) - 53 - (da - 53 + (db - 53))) with n by lia.
  cbn [shr_record_of_loc]. rewrite Hmant, shr_exact by lia.
  cbn [shr_m loc_of_shr_record round_nearest_even].
  rewrite round_second_step by lia.
  unfold carry. destruct (Z.ltb_spec (a * b * 2 ^ (53 - D)) (2 ^ 53)); [|lia].
  f_equal. lia.
Qed.

(** **** Division *)

Lemma round_nearest_even_cases (m : Z) (l : location) :
  round_nearest_even m l = m
  \/ (round_nearest_even m l = m + 1
      /\ (l = loc_Inexact Eq \/ l = loc_Inexact Gt)).
Proof.
  destruct l as [|[| |]]; cbn [round_nearest_even]; auto.
  destruct (Z.even m); auto.
Qed.

Lemma round_half_cases (m : Z) (l : location) :
  0 < m ->
  round_half m l = m / 2 \/ (round_half m l = m / 2 + 1 /\ m mod 2 = 1).
Proof.
  intros Hm. unfold round_half.
  destruct (round_nearest_even_cases (m / 2)
              (loc_of_shr_record (shr_1 (shr_record_of_loc m l))))
    as [H | [H Hl]]; [left; exact H | right; split; [exact H|]].
  destruct m as [|[p|p|]|p]; try lia.
  - rewrite Pos2Z.inj_xI, Z.add_comm, Z.mul_comm, Z.mod_add by lia. reflexivity.
  - exfalso. destruct l as [|[| |]]; cbn in Hl; destruct Hl; discriminate.
  - reflexivity.
Qed.

(** The quotient of two integers, as binary64 division computes it:
    the mantissa [M] is the quotient [a * 2^k / r] truncated, or its
    successor when at least half a unit was cut off. *)
Lemma div_norm (a r : Z) :
  0 < a < 2 ^ 53 -> 0 < r < 2 ^ 52 ->
  exists M k : Z,
    div (norm a) (norm r) = carry false M (- k)
    /\ 2 ^ 52 <= M <= 2 ^ 53
    /\ 52 + Zdigits2 r - Zdigits2 a <= k <= 53 + Zdigits2 r - Zdigits2 a
    /\ (M = a * 2 ^ k / r
        \/ (M = a * 2 ^ k / r + 1 /\ r <= 2 * ((a * 2 ^ k) mod r))).
Proof.
  intros Ha Hr.
  destruct (norm_mantissa a Ha) as [HA Hda].
  destruct (norm_mantissa r ltac:(lia)) as [HR Hdr0].
  assert (Hdr : 1 <= Zdigits2 r <= 52).
  { split; [lia|]. apply Zdigits2_le; lia. }
  clear Hdr0.
  set (da := Zdigits2 a) in *. set (dr := Zdigits2 r) in *.
  set (A := a * 2 ^ (53 - da)) in *. set (R := r * 2 ^ (53 - dr)) in *.
  set (k0 := 53 + dr - da).
  assert (Hg : 0 < 2 ^ (53 - dr)) by (apply Z.pow_pos_nonneg; lia).
  assert (HAk : A * 2 ^ 53 = a * 2 ^ k0 * 2 ^ (53 - dr)).
  { unfold A, k0. rewrite <- !Z.mul_assoc, <- !Z.pow_add_r by lia.
    do 2 f_equal. lia. }
  assert (HRev : Z.even R = true).
  { unfold R. replace (53 - dr) with (Z.succ (52 - dr)) by lia.
    rewrite Z.pow_succ_r by lia.
    replace (r * (2 * 2 ^ (52 - dr))) with (2 * (r * 2 ^ (52 - dr))) by ring.
    rewrite Z.even_mul. reflexivity. }
  (* the quotient and the remainder computed by the core division *)
  pose proof (Z_div_mod (A * 2 ^ 53) R ltac:(lia)) as Hdm.
  destruct (Z.div_eucl (A * 2 ^ 53) R) as [q rem] eqn:Hde.
  destruct Hdm as [Heq Hrem].
  assert (Hq : 2 ^ 52 <= q < 2 ^ 54) by nia.
  (* the same division on the integers [a] and [r] *)
  set (rho := a * 2 ^ k0 - r * q).
  assert (Hrho : rem = rho * 2 ^ (53 - dr)).
  { unfold rho. unfold R in Heq. nia. }
  assert (Hrho_bound : 0 <= rho < r) by (unfold R in Hrem; nia).
  assert (Hq_div : q = a * 2 ^ k0 / r).
  { apply Z.div_unique with (r := rho); [lia | unfold rho; lia]. }
  assert (Hrho_mod : rho = (a * 2 ^ k0) mod r).
  { apply Z.mod_unique with (q := q); [lia | unfold rho; lia]. }
  (* unfold the operation *)
  unfold div, norm, SFdiv. fold da dr A R. cbn [xorb].
  unfold SFdiv_core_binary. rewrite !Z2Pos.id by lia.
  replace (Zdigits2 A) with 53
    by (symmetry; apply Zdigits2_unique; change (53 - 1) with 52; lia).
  replace (Zdigits2 R) with 53
    by (symmetry; apply Zdigits2_unique; change (53 - 1) with 52; lia).
  rewrite fexp_normal by lia.
  replace (Z.min (53 + (da - 53) - (53 + (dr - 53)) - 53) (da - 53 - (dr - 53)))
    with (- k0) by (unfold k0; lia).
  replace (da - 53 - (dr - 53) - - k0) with 53 by (unfold k0; lia).
  cbv beta iota zeta. rewrite Z.shiftl_mul_pow2 by lia.
  rewrite Hde.
  unfold new_location. rewrite HRev. unfold new_location_even.
  set (l := if rem =? 0 then loc_Exact else loc_Inexact (2 * rem ?= R)).
  destruct (Z_lt_le_dec q (2 ^ 53)) as [Hq53 | Hq53].
  - (* a quotient of 53 digits: no shift *)
    exists (round_nearest_even q l), k0.
    rewrite round_aux_53 by (unfold k0; lia).
    split; [reflexivity|].
    destruct (round_nearest_even_cases q l) as [HM | [HM Hl]]; rewrite HM.
    + repeat split; lia.
    + repeat split; try lia. right. split; [lia|].
      rewrite <- Hrho_mod. unfold l in Hl.
      destruct (Z.eqb_spec rem 0) as [|Hne];
        [destruct Hl; discriminate|].
      destruct (Z.compare_spec (2 * rem) R) as [Hc | Hc | Hc];
        try (destruct Hl; discriminate); unfold R in Hc; nia.
  - (* a quotient of 54 digits: one shift *)
    exists (round_half q l), (k0 - 1).
    rewrite round_aux_54 by (unfold k0; lia).
    replace (- k0 + 1) with (- (k0 - 1)) by lia.
    split; [reflexivity|].
    assert (Hk0 : 2 ^ k0 = 2 * 2 ^ (k0 - 1)).
    { rewrite <- Z.pow_succ_r by (unfold k0; lia). f_equal. lia. }
    assert (Hq2 : q / 2 = a * 2 ^ (k0 - 1) / r).
    { rewrite Hq_div, Z.div_div by lia. rewrite Hk0.
      replace (a * (2 * 2 ^ (k0 - 1))) with (a * 2 ^ (k0 - 1) * 2) by ring.
      rewrite Z.div_mul_cancel_r by lia. reflexivity. }
    assert (2 ^ 52 <= q / 2 < 2 ^ 53).
    { split; [apply Z.div_le_lower_bound | apply Z.div_lt_upper_bound]; lia. }
    destruct (round_half_cases q l ltac:(lia)) as [HM | [HM Hodd]]; rewrite HM.
    + repeat split; lia.
    + repeat split; try lia. right. split; [lia|].
      pose proof (Z.div_mod q 2 ltac:(lia)) as Hq'.
      pose proof (Z.div_mod (a * 2 ^ (k0 - 1)) r ltac:(lia)) as Hd1.
      pose proof (Z.mod_pos_bound (a * 2 ^ (k0 - 1)) r ltac:(lia)) as Hb1.
      rewrite <- Hq2 in Hd1. unfold rho in Hrho_bound. rewrite Hk0 in Hrho_bound.
      nia.
Qed.

(** **** Floor, comparisons and the conversion back to integers *)

Lemma floor_carry (M k : Z) :
  2 ^ 52 <= M <= 2 ^ 53 -> 2 <= k ->
  floor (carry false M (- k)) = of_int (M / 2 ^ k).
Proof.
  intros HM Hk. unfold carry.
  destruct (Z.ltb_spec M (2 ^ 53)) as [Hlt | Hge]; cbn [floor].
  - destruct (Z.leb_spec 0 (- k)); [lia|].
    cbn [cond_Zopp]. rewrite Z2Pos.id, Z.opp_involutive, Z.shiftr_div_pow2 by lia.
    reflexivity.
  - destruct (Z.leb_spec 0 (- k + 1)); [lia|].
    cbn [cond_Zopp]. rewrite Z2Pos.id by lia.
    replace (- (- k + 1)) with (k - 1) by lia.
    rewrite Z.shiftr_div_pow2 by lia.
    replace M with (2 ^ 52 * 2) by lia.
    replace (2 ^ k) with (2 ^ (k - 1) * 2)
      by (rewrite Z.mul_comm, <- Z.pow_succ_r by lia; f_equal; lia).
    assert (0 < 2 ^ (k - 1)) by (apply Z.pow_pos_nonneg; lia).
    rewrite Z.div_mul_cancel_r by lia. reflexivity.
Qed.

Lemma compare_norm (x y : Z) :
  0 < x < 2 ^ 53 -> 0 < y < 2 ^ 53 ->
  SFcompare (norm x) (norm y) = Some (x ?= y).
Proof.
  intros Hx Hy.
  destruct (norm_mantissa x Hx) as [Hmx Hdx].
  destruct (norm_mantissa y Hy) as [Hmy Hdy].
  pose proof (Zdigits2_bounds x ltac:(lia)) as [Hxlo Hxhi].
  pose proof (Zdigits2_bounds y ltac:(lia)) as [Hylo Hyhi].
  unfold norm, SFcompare.
  set (dx := Zdigits2 x) in *. set (dy := Zdigits2 y) in *.
  destruct (Z.compare_spec (dx - 53) (dy - 53)) as [Hc | Hc | Hc]; f_equal; symmetry.
  - replace dy with dx in * by lia.
    rewrite Pos.compare_cont_spec, <- Z2Pos.inj_compare by lia.
    assert (0 < 2 ^ (53 - dx)) by (apply Z.pow_pos_nonneg; lia).
    destruct (Z.compare_spec (x * 2 ^ (53 - dx)) (y * 2 ^ (53 - dx)));
      cbn [Pos.switch_Eq];
      [apply Z.compare_eq_iff | apply Z.compare_lt_iff | apply Z.compare_gt_iff]; nia.
  - apply Z.compare_lt_iff.
    assert (2 ^ dx <= 2 ^ (dy - 1)) by (apply Z.pow_le_mono_r; lia). lia.
  - apply Z.compare_gt_iff.
    assert (2 ^ dy <= 2 ^ (dx - 1)) by (apply Z.pow_le_mono_r; lia). lia.
Qed.

Lemma le_of_int (x y : Z) :
  0 <= x < 2 ^ 53 -> 0 < y < 2 ^ 53 -> le (of_int x) (of_int y) = (x <=? y).
Proof.
  intros Hx Hy. unfold le, SFleb. rewrite (of_int_norm y) by assumption.
  destruct (Z.eq_dec x 0) as [-> | Hne].
  - rewrite of_int_0. cbn. destruct (Z.leb_spec 0 y); [reflexivity | lia].
  - rewrite of_int_norm, compare_norm by lia.
    unfold Z.leb. destruct (x ?= y); reflexivity.
Qed.

Lemma ge_of_int_0 (x : Z) :
  0 <= x < 2 ^ 53 -> ge (of_int x) (of_int 0) = true.
Proof.
  intros Hx. unfold ge, SFleb. rewrite of_int_0.
  destruct (Z.eq_dec x 0) as [-> | Hne]; [reflexivity|].
  rewrite of_int_norm by lia. reflexivity.
Qed.

Lemma isfinite_of_int (x : Z) : 0 <= x < 2 ^ 53 -> isfinite (of_int x) = true.
Proof.
  intros Hx. destruct (Z.eq_dec x 0) as [-> | Hne]; [reflexivity|].
  rewrite of_int_norm by lia. reflexivity.
Qed.

Lemma to_int_of_int (x : Z) : 0 <= x < 2 ^ 53 -> to_int (of_int x) = x.
Proof.
  intros Hx. destruct (Z.eq_dec x 0) as [-> | Hne]; [reflexivity|].
  rewrite of_int_norm by lia.
  destruct (norm_mantissa x ltac:(lia)) as [Hm Hd].
  unfold norm, to_int. cbn [cond_Zopp]. rewrite Z2Pos.id by lia.
  set (d := Zdigits2 x) in *.
  destruct (Z.leb_spec 0 (d - 53)).
  - replace (53 - d) with 0 by lia. replace (d - 53) with 0 by lia.
    change (2 ^ 0) with 1. lia.
  - replace (- (d - 53)) with (53 - d) by lia.
    apply Z.quot_mul. apply Z.pow_nonzero; lia.
Qed.

(** **** The floor of a rounded quotient *)

(** Integer arithmetic behind [floor (a / r)]: rounding the quotient
    to 53 digits cannot reach the next integer while the quotient
    stays below [2^31] and the divisor below [2^16]. *)
Lemma floor_rounded_quotient (a r M k : Z) :
  0 < a -> 0 < r < 2 ^ 16 -> 0 <= k -> 2 ^ 52 <= M ->
  M = a * 2 ^ k / r \/ (M = a * 2 ^ k / r + 1 /\ r <= 2 * ((a * 2 ^ k) mod r)) ->
  (a / r < 2 ^ 31 -> M / 2 ^ k = a / r) /\ (2 ^ 31 <= a / r -> 2 ^ 31 <= M / 2 ^ k).
Proof.
  intros Ha Hr Hk HM Hcases.
  assert (Hp : 0 < 2 ^ k) by (apply Z.pow_pos_nonneg; lia).
  assert (Hqk : a * 2 ^ k / r / 2 ^ k = a / r).
  { rewrite Z.div_div, Z.div_mul_cancel_r by lia. reflexivity. }
  destruct Hcases as [-> | [-> Hhalf]]; [rewrite Hqk; lia|].
  set (X := a * 2 ^ k / r) in *.
  assert (Hmono : a / r <= (X + 1) / 2 ^ k).
  { rewrite <- Hqk. apply Z.div_le_mono; lia. }
  split; [|lia]. intros Hsmall.
  (* the quotient is below [2^31], so [k] is at least 21 *)
  assert (HXlt : X < 2 ^ 31 * 2 ^ k).
  { pose proof (Z.div_mod X (2 ^ k) ltac:(lia)) as Hd.
    pose proof (Z.mod_pos_bound X (2 ^ k) ltac:(lia)) as Hb.
    rewrite Hqk in Hd. nia. }
  assert (Hk21 : 21 <= k).
  { destruct (Z_lt_le_dec k 21) as [Hlt|]; [|assumption].
    assert (2 ^ k <= 2 ^ 20) by (apply Z.pow_le_mono_r; lia). nia. }
  assert (Hbig : 2 ^ 21 <= 2 ^ k) by (apply Z.pow_le_mono_r; lia).
  pose proof (Z.div_mod (a * 2 ^ k) r ltac:(lia)) as Hdm. fold X in Hdm.
  pose proof (Z.mod_pos_bound (a * 2 ^ k) r ltac:(lia)) as Hmb.
  set (rho := (a * 2 ^ k) mod r) in *.
  pose proof (Z.div_mod (X + 1) (2 ^ k) ltac:(lia)) as Hd1.
  pose proof (Z.mod_pos_bound (X + 1) (2 ^ k) ltac:(lia)) as Hb1.
  set (n := (X + 1) / 2 ^ k) in *. set (m := (X + 1) mod 2 ^ k) in *.
  destruct (Z.eq_dec m 0) as [Hm0 | Hm0].
  - (* [X + 1] would be a multiple of [2^k]: impossible *)
    exfalso.
    assert (Heq : 2 ^ k * (a - r * n) = rho - r) by nia.
    assert (Hcase : a - r * n <= -1 \/ 0 <= a - r * n) by lia.
    destruct Hcase; nia.
  - rewrite <- Hqk. apply Z.div_unique with (r := m - 1); lia.
Qed.

(** The rate conversion in binary64 is the integer quotient whenever
    that quotient fits 32 bits, and exceeds [INT32_MAX] otherwise. *)
Lemma floor_div_mul (t s r : Z) :
  0 <= t < 2 ^ 31 -> 0 < s < 2 ^ 16 -> 0 < r < 2 ^ 16 ->
  exists F : Z,
    floor (div (mul (of_int t) (of_int s)) (of_int r)) = of_int F
    /\ 0 <= F < 2 ^ 53
    /\ (t * s / r <= INT32_MAX -> F = t * s / r)
    /\ (INT32_MAX < t * s / r -> INT32_MAX < F).
Proof.
  intros Ht Hs Hr. unfold INT32_MAX.
  rewrite (of_int_norm s), (of_int_norm r) by lia.
  destruct (Z.eq_dec t 0) as [-> | Hne].
  - exists 0. rewrite of_int_0. cbn. repeat split; lia.
  - assert (Hts : 0 < t * s < 2 ^ 47) by nia.
    rewrite of_int_norm, mul_norm by lia.
    destruct (div_norm (t * s) r ltac:(lia) ltac:(lia)) as (M & k & Hdiv & HM & Hk & Hcases).
    pose proof (norm_mantissa (t * s) ltac:(lia)) as [_ Hda].
    pose proof (Zdigits2_le (t * s) 47 ltac:(lia) ltac:(lia) ltac:(lia)) as Hda47.
    pose proof (Zdigits2_pos r ltac:(lia)) as Hdr.
    pose proof (Zdigits2_le r 16 ltac:(lia) ltac:(lia) ltac:(lia)) as Hdr16.
    exists (M / 2 ^ k).
    rewrite Hdiv, floor_carry by lia.
    assert (Hp : 0 < 2 ^ k) by (apply Z.pow_pos_nonneg; lia).
    destruct (floor_rounded_quotient (t * s) r M k) as [Hsmall Hlarge]; try lia.
    split; [reflexivity|]. split.
    + split; [apply Z.div_pos; lia|].
      assert (2 <= 2 ^ k) by (change 2 with (2 ^ 1) at 1; apply Z.pow_le_mono_r; lia).
      apply Z.div_lt_upper_bound; nia.
    + split; intros H; [apply Hsmall | assert (2 ^ 31 <= M / 2 ^ k) by (apply Hlarge; lia)]; lia.
Qed.

End DoubleFacts.

(** *** The rate conversion *)

Module RateFacts.
Import Double DoubleFacts.

(** The expression both programs evaluate is the integer quotient,
    as long as the quotient fits 32 bits. *)
Lemma rate_floor_exact (t s r : Z) :
  0 <= t < 2 ^ 31 -> 0 < s < 2 ^ 16 -> 0 < r < 2 ^ 16 ->
  t * s / r <= INT32_MAX ->
  rate_floor t s r = of_int (t * s / r).
Proof.
  intros Ht Hs Hr Hq.
  destruct (floor_div_mul t s r Ht Hs Hr) as (F & HF & _ & Hsmall & _).
  unfold rate_floor. rewrite HF, (Hsmall Hq). reflexivity.
Qed.

Lemma sample_position_spec (t s r : Z) :
  0 <= t < 2 ^ 31 -> 0 < s < 2 ^ 16 -> 0 < r < 2 ^ 16 ->
  RetroOpl.sample_position t s r
  = if t * s / r <=? INT32_MAX then RetroOpl.Ok (t * s / r)
    else RetroOpl.Err RetroOpl.ErrOffsetRange.
Proof.
  intros Ht Hs Hr.
  destruct (floor_div_mul t s r Ht Hs Hr) as (F & HF & HFb & Hsmall & Hlarge).
  unfold RetroOpl.sample_position, rate_floor. rewrite HF.
  rewrite isfinite_of_int, ge_of_int_0, le_of_int, to_int_of_int
    by (unfold INT32_MAX; lia).
  cbn [negb andb].
  destruct (Z.leb_spec (t * s / r) INT32_MAX) as [Hle | Hgt].
  - rewrite <- (Hsmall Hle) in Hle.
    destruct (Z.leb_spec F INT32_MAX); [|lia].
    cbn [negb]. rewrite (Hsmall ltac:(lia)). reflexivity.
  - specialize (Hlarge Hgt).
    destruct (Z.leb_spec F INT32_MAX); [lia|]. reflexivity.
Qed.

Lemma control_position_spec (samp : Z) :
  0 <= samp < 2 ^ 31 ->
  Vgm2Opl.control_position samp = Vgm2Opl.Ok (samp * 980 / 44100).
Proof.
  intros Hs.
  destruct (floor_div_mul samp 980 44100 Hs ltac:(lia) ltac:(lia))
    as (F & HF & HFb & Hsmall & _).
  assert (Hq : 0 <= samp * 980 / 44100 <= INT32_MAX).
  { split; [apply Z.div_pos; lia|].
    apply Z.div_le_upper_bound; unfold INT32_MAX; lia. }
  unfold Vgm2Opl.control_position, rate_floor. rewrite HF.
  rewrite ge_of_int_0, le_of_int, to_int_of_int by (unfold INT32_MAX; lia).
  rewrite (Hsmall ltac:(lia)).
  destruct (Z.leb_spec (samp * 980 / 44100) INT32_MAX); [reflexivity | lia].
Qed.

(** C1. For every control rate [r] in [1, 1024] and output rate [s]
    in {44100, 48000}, and every tick count [T = 0, 1, ..., r]: the
    binary64 expression both programs evaluate is exactly
    [floor(T * s / r)]; the conversion of the interpreter passes its
    finiteness and range tests and yields that position; the positions
    of consecutive tick counts never decrease; and the position at
    [T = r] is exactly [s]. *)
Theorem rate_conversion_lands_on_rate (r s : Z) :
  1 <= r <= 1024 -> s = 44100 \/ s = 48000 ->
  (forall T, 0 <= T <= r -> rate_floor T s r = Double.of_int (T * s / r))
  /\ (forall T, 0 <= T <= r ->
        RetroOpl.sample_position T s r = RetroOpl.Ok (T * s / r))
  /\ (forall T p p', 0 <= T < r ->
        RetroOpl.sample_position T s r = RetroOpl.Ok p ->
        RetroOpl.sample_position (T + 1) s r = RetroOpl.Ok p' ->
        p <= p')
  /\ RetroOpl.sample_position r s r = RetroOpl.Ok s.
Proof.
  intros Hr Hs.
  assert (Hs16 : 0 < s < 2 ^ 16) by (destruct Hs; subst s; lia).
  assert (Hpos : forall T, 0 <= T <= r ->
            RetroOpl.sample_position T s r = RetroOpl.Ok (T * s / r)).
  { intros T HT. rewrite sample_position_spec by lia.
    assert (T * s / r <= s).
    { apply Z.div_le_upper_bound; [lia | nia]. }
    destruct (Z.leb_spec (T * s / r) INT32_MAX); [reflexivity|].
    unfold INT32_MAX in *. lia. }
  split; [|split; [exact Hpos|split]].
  - intros T HT. apply rate_floor_exact; try lia.
    assert (T * s / r <= s) by (apply Z.div_le_upper_bound; [lia | nia]).
    unfold INT32_MAX. lia.
  - intros T p p' HT Hp Hp'.
    rewrite Hpos in Hp, Hp' by lia.
    injection Hp as <-. injection Hp' as <-.
    apply Z.div_le_mono; [lia | nia].
  - rewrite Hpos by lia. rewrite Z.mul_comm, Z.div_mul by lia. reflexivity.
Qed.

Lemma rate_conversion_lands_on_rate_witness :
  RetroOpl.sample_position 60 44100 60 = RetroOpl.Ok 44100.
Proof.
  exact (proj2 (proj2 (proj2 (rate_conversion_lands_on_rate 60 44100
                         (conj (Zle_bool_imp_le 1 60 eq_refl)
                               (Zle_bool_imp_le 60 1024 eq_refl))
                         (or_introl eq_refl))))).
Defined.

End RateFacts.

(** *** The script interpreter *)

Module RetroOplFacts.
Import RetroOpl.

(** C2. Interpreting the three lines [OPL2 60], [r 20 01], [w 120] at
    44100 Hz succeeds; the interpreter writes register 0x20 with 0x01
    once, then generates 120 * 44100 / 60 = 88200 samples through the
    sample buffer (21 full buffers of 4096, each flushed when the next
    round finds it full, then 2184 samples), and the final flush at
    the end of input writes the 2184 samples left in the buffer. *)
Theorem scenario_A_trace :
  exists st : state,
    run 44100 scenario_A = (Ok (Some tt), st)
    /\ trace st
       = [OplInit 44100; WavBegin 44100; OplWrite 0x20 0x01]
         ++ List.concat (repeat [OplGenerate 0 4096; WavSamples 4096] 21)
         ++ [OplGenerate 0 2184; OplFinish; WavSamples 2184;
             WavFinish 176436 176400]
    /\ register_writes (trace st) = [(0x20, 0x01)]
    /\ generated (trace st) = 120 * 44100 / 60
    /\ generated (trace st) = 88200
    /\ written (trace st) = 88200
    /\ s_total st = 88200 /\ s_fill st = 0 /\ input st = [].
Proof.
  eexists. split; [vm_compute; reflexivity|].
  repeat split; vm_compute; reflexivity.
Qed.

(** **** The token parsers *)

Lemma skip_blanks_app (ws rest : list Z) :
  Forall (fun c => is_blank c = true) ws ->
  is_blank (peek rest) = false ->
  skip_blanks (ws ++ rest) = rest.
Proof.
  intros Hws Hrest. induction Hws as [|c ws Hc _ IH]; cbn [app skip_blanks].
  - destruct rest as [|c r]; [reflexivity|].
    cbn [peek hd] in Hrest. cbn [skip_blanks]. rewrite Hrest. reflexivity.
  - rewrite Hc. exact IH.
Qed.

Lemma digits_value_ge (ds : list Z) (acc : Z) :
  Forall (fun c => is_dec c = true) ds -> 0 <= acc -> acc <= digits_value ds acc.
Proof.
  intros Hds. revert acc. induction Hds as [|c ds Hc _ IH]; intros acc Hacc.
  - cbn. lia.
  - unfold digits_value in *. cbn [fold_left].
    unfold is_dec in Hc. specialize (IH (acc * 10 + (c - 48))). lia.
Qed.

(** The digit loop yields the value of the digits when it fits 32
    bits, and the overflow diagnostic otherwise. *)
Lemma parse_digits_spec (line acc : Z) (ds tail : list Z) :
  Forall (fun c => is_dec c = true) ds ->
  is_dec (peek tail) = false ->
  0 <= acc <= INT32_MAX ->
  parse_digits line acc (ds ++ tail)
  = if digits_value ds acc <=? INT32_MAX then Ok (digits_value ds acc, tail)
    else Err (ErrIntOverflow line).
Proof.
  intros Hds Htail. revert acc.
  induction Hds as [|c ds Hc Hds IH]; intros acc Hacc.
  - cbn [app digits_value fold_left].
    destruct (Z.leb_spec acc INT32_MAX); [|lia].
    destruct tail as [|c r]; [reflexivity|].
    cbn [peek hd] in Htail. cbn [parse_digits]. rewrite Htail. reflexivity.
  - cbn [app parse_digits]. rewrite Hc.
    change (digits_value (c :: ds) acc) with (digits_value ds (acc * 10 + (c - 48))).
    pose proof Hc as Hc'. unfold is_dec in Hc'.
    unfold INT32_MAX in *. change (2147483647 / 10) with 214748364.
    destruct (Z.leb_spec acc 214748364) as [H1 | H1].
    + destruct (Z.leb_spec (acc * 10) (2147483647 - (c - 48))) as [H2 | H2].
      * apply IH. lia.
      * pose proof (digits_value_ge ds (acc * 10 + (c - 48)) Hds ltac:(lia)).
        destruct (Z.leb_spec (digits_value ds (acc * 10 + (c - 48))) 2147483647);
          [lia | reflexivity].
    + pose proof (digits_value_ge ds (acc * 10 + (c - 48)) Hds ltac:(lia)).
      destruct (Z.leb_spec (digits_value ds (acc * 10 + (c - 48))) 2147483647);
        [lia | reflexivity].
Qed.

Lemma parseInt_spec (line : Z) (ws ds tail : list Z) :
  Forall (fun c => is_blank c = true) ws ->
  Forall (fun c => is_dec c = true) ds -> ds <> [] ->
  is_dec (peek tail) = false ->
  parseInt line (ws ++ ds ++ tail)
  = if digits_value ds 0 <=? INT32_MAX then Ok (digits_value ds 0, tail)
    else Err (ErrIntOverflow line).
Proof.
  intros Hws Hds Hne Htail.
  destruct ds as [|c ds]; [congruence|].
  pose proof (Forall_inv Hds) as Hc. cbn beta in Hc.
  unfold parseInt. rewrite skip_blanks_app; [|assumption|].
  - cbn [app peek hd]. rewrite Hc. cbn [negb].
    apply (parse_digits_spec line 0 (c :: ds) tail Hds Htail).
    unfold INT32_MAX. lia.
  - cbn [app peek hd]. unfold is_dec in Hc. unfold is_blank. lia.
Qed.

Lemma isBlankStr_not_dec (tail : list Z) :
  isBlankStr tail = true -> is_dec (peek tail) = false.
Proof.
  destruct tail as [|c r]; [reflexivity|]. cbn [isBlankStr peek hd].
  destruct (Z.eqb_spec c 0) as [-> | Hc0]; [reflexivity|].
  destruct (is_blank c) eqn:Hb; [|discriminate].
  intros _. unfold is_blank in Hb. unfold is_dec. lia.
Qed.

(** **** The header line *)

(** The header line once [readInput] has stored it: the tag, blanks
    (possibly none), digits, and the rest of the line. *)
Lemma readHeader_tagged (st st1 : state) (ws ds tail : list Z) :
  readInput st = (Ok true, st1) ->
  l_buf st1 = bytes_of "OPL2" ++ ws ++ ds ++ tail ->
  Forall (fun c => is_blank c = true) ws ->
  Forall (fun c => is_dec c = true) ds -> ds <> [] ->
  is_dec (peek tail) = false ->
  readHeader st
  = let v := digits_value ds 0 in
    if v <=? INT32_MAX then
      if (v <? 1) || (v >? 1024) then (Err ErrControlRateRange, st1)
      else if negb (isBlankStr tail) then (Err ErrHeaderSyntax, st1)
      else (Ok v, st1)
    else (Err (ErrIntOverflow (line_count st1)), st1).
Proof.
  intros Hread Hbuf Hws Hds Hne Htail.
  unfold readHeader, bind at 1. rewrite Hread. cbn [negb].
  unfold bind at 1, get. rewrite Hbuf.
  change (has_tag (bytes_of "OPL2" ++ ws ++ ds ++ tail)) with true.
  cbn [negb]. unfold bind at 1, lift.
  change (skipn 4 (bytes_of "OPL2" ++ ws ++ ds ++ tail)) with (ws ++ ds ++ tail).
  rewrite parseInt_spec by assumption. cbv zeta.
  destruct (digits_value ds 0 <=? INT32_MAX); [|reflexivity].
  destruct ((digits_value ds 0 <? 1) || (digits_value ds 0 >? 1024)); [reflexivity|].
  destruct (isBlankStr tail); reflexivity.
Qed.

(** C10. The header check compares the first four bytes of the line
    with [OPL2] and parses the control rate from byte 4 on, after any
    number of spaces and tabs, none included: a header line made of the
    tag, blanks [ws] (possibly empty), digits of a value in [1, 1024]
    and trailing blanks is accepted with that value.  The witness is
    the line [OPL260], accepted with control rate 60. *)
Theorem header_needs_no_separator (st st1 : state) (ws ds tail : list Z) :
  readInput st = (Ok true, st1) ->
  l_buf st1 = bytes_of "OPL2" ++ ws ++ ds ++ tail ->
  Forall (fun c => is_blank c = true) ws ->
  Forall (fun c => is_dec c = true) ds -> ds <> [] ->
  isBlankStr tail = true ->
  1 <= digits_value ds 0 <= 1024 ->
  readHeader st = (Ok (digits_value ds 0), st1).
Proof.
  intros Hread Hbuf Hws Hds Hne Htail Hv.
  rewrite (readHeader_tagged st st1 ws ds tail) by auto using isBlankStr_not_dec.
  cbv zeta. unfold INT32_MAX.
  destruct (Z.leb_spec (digits_value ds 0) 2147483647); [|lia].
  destruct (Z.ltb_spec (digits_value ds 0) 1); [lia|].
  destruct (Z.gtb_spec (digits_value ds 0) 1024); [lia|].
  rewrite Htail. reflexivity.
Qed.

Lemma header_needs_no_separator_witness :
  readHeader (initial (bytes_of ("OPL260" ++ LF)%string))
  = (Ok 60, mkState [] 1 (bytes_of "OPL260") 0 0 0 0 []).
Proof.
  refine (header_needs_no_separator
            (initial (bytes_of ("OPL260" ++ LF)%string))
            (mkState [] 1 (bytes_of "OPL260") 0 0 0 0 [])
            [] (bytes_of "60") [] eq_refl eq_refl _ _ _ eq_refl _).
  - constructor.
  - repeat constructor.
  - discriminate.
  - vm_compute. split; discriminate.
Defined.

(** C7, as stated, fails: a control rate too large for 32 bits is
    rejected by the integer parser with its overflow diagnostic, not
    with the range diagnostic of the header. *)
Lemma huge_rate_is_overflow :
  fst (run 44100 scenario_huge_rate) = Err (ErrIntOverflow 1)
  /\ fst (run 44100 scenario_huge_rate) <> Err ErrControlRateRange.
Proof. split; [vm_compute; reflexivity | vm_compute; discriminate]. Qed.

Lemma readInput_true (st st' : state) :
  readInput st = (Ok true, st') ->
  exists c rest buf rest',
    input st = c :: rest
    /\ line_count st < INT32_MAX
    /\ read_line (line_count st + 1) c rest [] = Ok (buf, rest')
    /\ st' = set_input (set_line st (line_count st + 1) buf) rest'.
Proof.
  unfold readInput, bind, get, modify, ret, raise.
  destruct (input st) as [|c rest] eqn:Hin; [discriminate|].
  destruct (Z.ltb_spec (line_count st) INT32_MAX) as [Hlt|]; [|discriminate].
  destruct (read_line (line_count st + 1) c rest []) as [[buf rest']|e] eqn:Hrl;
    [|discriminate].
  intros H. injection H as <-. exists c, rest, buf, rest'. auto.
Qed.

Lemma read_line_at_LF (n : Z) (rest buf : list Z) :
  read_line n 10 rest buf = Ok (buf, rest).
Proof. destruct rest; reflexivity. Qed.

Lemma read_line_LF (n c : Z) (line rest buf : list Z) :
  Forall (fun c => printable c = true) (c :: line) ->
  Z.of_nat (List.length buf) + Z.of_nat (List.length (c :: line)) <= LINE_MAXIMUM ->
  read_line n c (line ++ 10 :: rest) buf = Ok (buf ++ c :: line, rest).
Proof.
  revert c buf. induction line as [|c' line IH]; intros c buf Hp Hlen.
  - apply Forall_inv in Hp. unfold printable in Hp.
    cbn [app read_line]. cbn [List.length] in Hlen. unfold LINE_MAXIMUM in *.
    destruct (Z.eqb_spec c 13); [lia|]. destruct (Z.eqb_spec c 10); [lia|].
    destruct (Z.eqb_spec c 9); cbn [negb andb];
      [|destruct (Z.ltb_spec c 32); [lia|]; destruct (Z.gtb_spec c 126); [lia|];
        cbn [orb]];
      (destruct (Z.geb_spec (Z.of_nat (List.length buf)) 1023); [lia|]);
      rewrite read_line_at_LF; reflexivity.
  - pose proof (Forall_inv Hp) as Hc. unfold printable in Hc.
    apply Forall_inv_tail in Hp.
    cbn [app read_line]. cbn [List.length] in Hlen. unfold LINE_MAXIMUM in *.
    destruct (Z.eqb_spec c 13); [lia|]. destruct (Z.eqb_spec c 10); [lia|].
    assert (Hnext : read_line n c' (line ++ 10 :: rest) (buf ++ [c])
                    = Ok (buf ++ c :: c' :: line, rest)).
    { rewrite IH; [rewrite <- app_assoc; reflexivity | assumption |].
      rewrite length_app. cbn [List.length] in *. lia. }
    destruct (Z.eqb_spec c 9); cbn [negb andb];
      [|destruct (Z.ltb_spec c 32); [lia|]; destruct (Z.gtb_spec c 126); [lia|];
        cbn [orb]];
      (destruct (Z.geb_spec (Z.of_nat (List.length buf)) 1023); [lia|]);
      exact Hnext.
Qed.

(** The first line of the input, read at the start of the program. *)
Lemma readInput_first_line (c : Z) (line rest : list Z) (tr : list event) :
  Forall (fun c => printable c = true) (c :: line) ->
  Z.of_nat (List.length (c :: line)) <= LINE_MAXIMUM ->
  readInput (mkState (c :: line ++ 10 :: rest) 0 [] 0 0 0 0 tr)
  = (Ok true, mkState rest 1 (c :: line) 0 0 0 0 tr).
Proof.
  intros Hp Hlen. unfold readInput, bind, get, modify, ret. cbn [input line_count].
  change (0 <? INT32_MAX) with true. cbv iota.
  rewrite (read_line_LF (0 + 1) c line rest []);
    [reflexivity | assumption | cbn [List.length] in *; lia].
Qed.

Lemma blank_printable (ws : list Z) :
  Forall (fun c => is_blank c = true) ws -> Forall (fun c => printable c = true) ws.
Proof.
  apply Forall_impl. intros c Hc. unfold is_blank in Hc. unfold printable. lia.
Qed.

Lemma dec_printable (ds : list Z) :
  Forall (fun c => is_dec c = true) ds -> Forall (fun c => printable c = true) ds.
Proof.
  apply Forall_impl. intros c Hc. unfold is_dec in Hc. unfold printable. lia.
Qed.

(** [main] on a header line whose control rate is out of range: it
    stops in the state [readInput] left after that line. *)
Lemma main_stops_at_header
  (sample_rate : Z) (stdin : list Z) (st1 : state) (ws ds tail : list Z) :
  readInput (emit (initial stdin) (OplInit sample_rate)) = (Ok true, st1) ->
  l_buf st1 = bytes_of "OPL2" ++ ws ++ ds ++ tail ->
  Forall (fun c => is_blank c = true) ws ->
  Forall (fun c => is_dec c = true) ds -> ds <> [] ->
  is_dec (peek tail) = false ->
  digits_value ds 0 < 1 \/ 1024 < digits_value ds 0 ->
  main sample_rate (initial stdin)
  = (Err (if digits_value ds 0 <=? INT32_MAX then ErrControlRateRange
          else ErrIntOverflow (line_count st1)), st1).
Proof.
  intros Hread Hbuf Hws Hds Hne Htail Hv.
  unfold main, start, bind at 1 2 3, modify.
  rewrite (readHeader_tagged _ _ ws ds tail Hread Hbuf Hws Hds Hne Htail).
  cbv zeta.
  destruct (digits_value ds 0 <=? INT32_MAX); [|reflexivity].
  destruct (Z.ltb_spec (digits_value ds 0) 1) as [|H1]; [reflexivity|].
  destruct (Z.gtb_spec (digits_value ds 0) 1024) as [|H2]; [reflexivity|].
  lia.
Qed.

(** C7, amended. When the header line carries a decimal control rate
    outside [1, 1024] (after the tag and optional blanks), [main] stops
    in the very state [readInput] left after the header line: nothing
    beyond that line is read, the line count is 1, and only the driver
    has been initialised.  The diagnostic is the range one when the
    rate fits 32 bits, and the overflow one of the integer parser when
    it does not. *)
Theorem header_rate_out_of_range
  (sample_rate : Z) (stdin : list Z) (st1 : state) (ws ds tail : list Z) :
  readInput (emit (initial stdin) (OplInit sample_rate)) = (Ok true, st1) ->
  l_buf st1 = bytes_of "OPL2" ++ ws ++ ds ++ tail ->
  Forall (fun c => is_blank c = true) ws ->
  Forall (fun c => is_dec c = true) ds -> ds <> [] ->
  is_dec (peek tail) = false ->
  digits_value ds 0 < 1 \/ 1024 < digits_value ds 0 ->
  main sample_rate (initial stdin)
  = (Err (if digits_value ds 0 <=? INT32_MAX then ErrControlRateRange
          else ErrIntOverflow 1), st1)
  /\ line_count st1 = 1
  /\ trace st1 = [OplInit sample_rate].
Proof.
  intros Hread Hbuf Hws Hds Hne Htail Hv.
  destruct (readInput_true _ _ Hread) as (c & rest & buf & rest' & _ & _ & _ & Hst1).
  assert (Hline : line_count st1 = 1) by (rewrite Hst1; reflexivity).
  split; [|split; [exact Hline | rewrite Hst1; reflexivity]].
  rewrite (main_stops_at_header sample_rate stdin st1 ws ds tail) by assumption.
  rewrite Hline. reflexivity.
Qed.

Lemma header_rate_out_of_range_witness :
  main 44100 (initial (bytes_of ("OPL2 2000" ++ LF ++ "w 1" ++ LF)%string))
  = (Err ErrControlRateRange,
     mkState (bytes_of ("w 1" ++ LF)%string) 1 (bytes_of "OPL2 2000") 0 0 0 0
       [OplInit 44100])
  /\ 1 = 1
  /\ [OplInit 44100] = [OplInit 44100].
Proof.
  refine (header_rate_out_of_range 44100
            (bytes_of ("OPL2 2000" ++ LF ++ "w 1" ++ LF)%string)
            (mkState (bytes_of ("w 1" ++ LF)%string) 1 (bytes_of "OPL2 2000")
               0 0 0 0 [OplInit 44100])
            [32] (bytes_of "2000") [] eq_refl eq_refl _ _ _ eq_refl _).
  - repeat constructor.
  - repeat constructor.
  - discriminate.
  - right. vm_compute. reflexivity.
Defined.

(** The same for a header line that ends with a line feed: the input
    left is what follows the line feed. *)
Corollary out_of_range_header_ending_in_LF
  (sample_rate : Z) (ws ds tail rest : list Z) :
  let line := bytes_of "OPL2" ++ ws ++ ds ++ tail in
  Forall (fun c => is_blank c = true) ws ->
  Forall (fun c => is_dec c = true) ds -> ds <> [] ->
  Forall (fun c => printable c = true) tail ->
  is_dec (peek tail) = false ->
  Z.of_nat (List.length line) <= LINE_MAXIMUM ->
  digits_value ds 0 < 1 \/ 1024 < digits_value ds 0 ->
  main sample_rate (initial (line ++ 10 :: rest))
  = (Err (if digits_value ds 0 <=? INT32_MAX then ErrControlRateRange
          else ErrIntOverflow 1),
     mkState rest 1 line 0 0 0 0 [OplInit sample_rate]).
Proof.
  intros line Hws Hds Hne Hp Htail Hlen Hv.
  assert (Hline : Forall (fun c => printable c = true) line).
  { unfold line.
    apply Forall_app; split; [repeat constructor|].
    apply Forall_app; split; [apply blank_printable; assumption|].
    apply Forall_app; split; [apply dec_printable; assumption | assumption]. }
  assert (Hread : readInput (emit (initial (line ++ 10 :: rest)) (OplInit sample_rate))
                  = (Ok true, mkState rest 1 line 0 0 0 0 [OplInit sample_rate])).
  { exact (readInput_first_line (byte_of "O")
             (byte_of "P" :: byte_of "L" :: byte_of "2" :: ws ++ ds ++ tail)
             rest [OplInit sample_rate] Hline Hlen). }
  exact (main_stops_at_header sample_rate _ _ ws ds tail Hread eq_refl
           Hws Hds Hne Htail Hv).
Qed.

(** **** What the parts of the loop leave unchanged *)

(** The fields [readInput] does not touch. *)
Lemma readInput_frame (st st' : state) (r : result bool) :
  readInput st = (r, st') ->
  t st' = t st /\ current st' = current st /\ trace st' = trace st
  /\ s_fill st' = s_fill st /\ s_total st' = s_total st.
Proof.
  unfold readInput, bind, get, modify, ret, raise.
  destruct (input st) as [|c rest].
  - intros H. injection H as _ <-. auto.
  - destruct (line_count st <? INT32_MAX).
    + destruct (read_line (line_count st + 1) c rest []) as [[buf rest']|e];
        intros H; injection H as _ <-; cbn; auto.
    + intros H. injection H as _ <-. auto.
Qed.

Lemma same_script_refl (st : state) : same_script st st.
Proof. repeat split. Qed.

Lemma same_script_trans (st1 st2 st3 : state) :
  same_script st1 st2 -> same_script st2 st3 -> same_script st1 st3.
Proof. unfold same_script. intuition congruence. Qed.

Lemma flushBuffer_frame (st st' : state) (r : result unit) :
  flushBuffer st = (r, st') ->
  same_script st st'
  /\ (forall e, r = Err e -> e = ErrSampleCountOverflow)
  /\ (r = Ok tt -> s_fill st > 0 -> s_fill st' = 0).
Proof.
  unfold flushBuffer, bind, get, modify, ret, raise.
  destruct (Z.gtb_spec (s_fill st) 0) as [Hpos | Hle].
  - cbn [s_total s_fill emit].
    destruct (s_total st <=? INT32_MAX - s_fill st);
      intros H; injection H as <- <-; repeat split; cbn; congruence.
  - intros H. injection H as <- <-. repeat split; first [congruence | lia].
Qed.

(** The loop of [computeSamples] uses at most [count] rounds, only
    fails on the overflow of the sample count, and leaves the clock
    and the input alone. *)
Lemma computeSamples_loop_spec (rounds : nat) (count : Z) (st st' : state)
  (r : result (option unit)) :
  (Z.to_nat count <= rounds)%nat ->
  computeSamples_loop rounds count st = (r, st') ->
  same_script st st'
  /\ r <> Ok None
  /\ (forall e, r = Err e -> e = ErrSampleCountOverflow).
Proof.
  revert count st. induction rounds as [|rounds IH]; intros count st Hr.
  - cbn [computeSamples_loop].
    destruct (Z.gtb_spec count 0) as [Hpos|Hnpos]; [lia|].
    unfold ret. intros H. injection H as <- <-.
    split; [apply same_script_refl|]. split; congruence.
  - cbn [computeSamples_loop].
    destruct (Z.gtb_spec count 0) as [Hpos|Hnpos].
    2:{ unfold ret. intros H. injection H as <- <-.
        split; [apply same_script_refl|]. split; congruence. }
    unfold bind at 1, get. unfold bind at 1.
    destruct ((if s_fill st >=? BUFFER_SAMPLES then flushBuffer else ret tt) st)
      as [[[]|e] st1] eqn:Hflush.
    2:{ intros H. injection H as <- <-.
        destruct (s_fill st >=? BUFFER_SAMPLES);
          [|unfold ret in Hflush; discriminate].
        destruct (flushBuffer_frame _ _ _ Hflush) as (Hs & He & _).
        split; [exact Hs|]. split; [congruence|].
        intros e' H'. injection H' as <-. apply He. reflexivity. }
    assert (Hst1 : same_script st st1 /\ s_fill st1 < BUFFER_SAMPLES).
    { unfold BUFFER_SAMPLES in *.
      destruct (Z.geb_spec (s_fill st) 4096) as [Hfull|Hroom].
      - destruct (flushBuffer_frame _ _ _ Hflush) as (Hs & _ & Hz).
        split; [exact Hs|]. rewrite Hz; [lia | reflexivity | lia].
      - unfold ret in Hflush. injection Hflush as <-.
        split; [apply same_script_refl | lia]. }
    destruct Hst1 as [Hs1 Hroom].
    unfold bind at 1, get. unfold bind at 1, modify at 1.
    unfold bind at 1, modify at 1.
    set (work := if count <? BUFFER_SAMPLES - s_fill st1 then count
                 else BUFFER_SAMPLES - s_fill st1).
    assert (Hwork : 1 <= work <= count).
    { unfold work. destruct (Z.ltb_spec count (BUFFER_SAMPLES - s_fill st1)); lia. }
    cbn [s_fill s_total emit].
    intros Hloop. apply IH in Hloop; [|lia].
    destruct Hloop as (Hs2 & Hnone & Herr).
    split; [|split; assumption].
    eapply same_script_trans; [exact Hs1|].
    destruct Hs2 as (H1 & H2 & H3 & H4 & H5). cbn in H1, H2, H3, H4, H5.
    repeat split; assumption.
Qed.

Lemma computeSamples_spec (count : Z) (st st' : state) (r : result (option unit)) :
  computeSamples count st = (r, st') ->
  same_script st st'
  /\ r <> Ok None
  /\ (forall e, r = Err e -> e = ErrSampleCountOverflow \/ e = ErrCheck).
Proof.
  unfold computeSamples. destruct (count <? 1).
  - unfold raise. intros H. injection H as <- <-.
    split; [apply same_script_refl|]. split; [congruence|].
    intros e H. injection H as <-. auto.
  - intros H. apply computeSamples_loop_spec in H; [|lia].
    destruct H as (Hs & Hn & He). repeat split; try apply Hs; auto.
Qed.

(** **** The invariant of the loop *)

Lemma parse_digits_nonneg (line acc v : Z) (pstr rest : list Z) :
  parse_digits line acc pstr = Ok (v, rest) -> 0 <= acc -> 0 <= v.
Proof.
  revert acc. induction pstr as [|c pstr IH]; intros acc; cbn [parse_digits].
  - intros H. injection H as <- _. auto.
  - destruct (is_dec c) eqn:Hc.
    + unfold is_dec in Hc.
      destruct (acc <=? INT32_MAX / 10); [|discriminate].
      destruct (acc * 10 <=? INT32_MAX - (c - 48)); [|discriminate].
      intros H Hacc. apply IH in H; lia.
    + intros H. injection H as <- _. auto.
Qed.

Lemma parseInt_nonneg (line v : Z) (pstr rest : list Z) :
  parseInt line pstr = Ok (v, rest) -> 0 <= v.
Proof.
  unfold parseInt. destruct (negb (is_dec (peek (skip_blanks pstr)))); [discriminate|].
  intros H. apply parse_digits_nonneg in H; lia.
Qed.

Lemma wait_command_inv (sample_rate rate iv32 : Z) (st st' : state)
  (r : option unit) :
  0 <= iv32 -> 0 <= t st ->
  wait_command sample_rate rate iv32 st = (Ok r, st') ->
  clock_inv sample_rate rate st'.
Proof.
  intros Hiv Ht. unfold wait_command, bind at 1, get.
  destruct (Z.leb_spec (t st) (INT32_MAX - iv32)) as [Hle|]; [|discriminate].
  unfold bind at 1, modify at 1. unfold bind at 1, get. unfold bind at 1, lift.
  cbn [t set_t].
  destruct (sample_position (t st + iv32) sample_rate rate) as [soi|e] eqn:Hpos;
    [|discriminate].
  cbn [current set_t].
  destruct (soi <=? current st); [discriminate|].
  unfold bind at 1.
  destruct (computeSamples _ _) as [[r'|e] st1] eqn:Hcs; [|discriminate].
  unfold bind, modify, ret. intros H. injection H as _ <-.
  destruct (computeSamples_spec _ _ _ _ Hcs) as ((H1 & _) & _).
  unfold clock_inv. cbn [t current set_current]. cbn [t set_t] in H1.
  rewrite H1. split; [lia | exact Hpos].
Qed.

Lemma process_line_inv (sample_rate rate : Z) (st st' : state) (r : option unit) :
  clock_inv sample_rate rate st ->
  process_line sample_rate rate st = (Ok r, st') ->
  clock_inv sample_rate rate st'.
Proof.
  intros Hinv. unfold process_line, bind at 1, get.
  destruct ((nth 0 (l_buf st) 0 =? 39) || isBlankStr (l_buf st)).
  { unfold ret. intros H. injection H as _ <-. exact Hinv. }
  destruct (negb (nth 1 (l_buf st) 0 =? 32) && negb (nth 1 (l_buf st) 0 =? 9)).
  { discriminate. }
  destruct (nth 0 (l_buf st) 0 =? 114).
  { unfold bind at 1, lift.
    destruct (parseByte _ _) as [[reg p1]|e]; [|discriminate].
    unfold bind at 1.
    destruct (parseByte _ p1) as [[val p2]|e]; [|discriminate].
    destruct (negb (isBlankStr p2)); [discriminate|].
    unfold bind, modify, ret. intros H. injection H as _ <-. exact Hinv. }
  destruct (nth 0 (l_buf st) 0 =? 119); [|discriminate].
  unfold bind at 1, lift.
  destruct (parseInt _ _) as [[iv32 p1]|e] eqn:Hparse; [|discriminate].
  destruct (negb (isBlankStr p1)); [discriminate|].
  apply wait_command_inv; [eapply parseInt_nonneg; exact Hparse | apply Hinv].
Qed.

Lemma readHeader_ok (st st' : state) (rate : Z) :
  readHeader st = (Ok rate, st') ->
  1 <= rate <= 1024 /\ t st' = t st /\ current st' = current st.
Proof.
  unfold readHeader, bind at 1.
  destruct (readInput st) as [[more|e] st1] eqn:Hread; [|discriminate].
  destruct (readInput_frame _ _ _ Hread) as (Ht & Hc & _).
  destruct more; cbn [negb]; [|discriminate].
  unfold bind at 1, get.
  destruct (negb (has_tag (l_buf st1))); [discriminate|].
  unfold bind at 1, lift.
  destruct (parseInt _ _) as [[ctl_rate pstr]|e]; [|discriminate].
  destruct (Z.ltb_spec ctl_rate 1) as [|Hlo]; [discriminate|].
  destruct (Z.gtb_spec ctl_rate 1024) as [|Hhi]; [discriminate|]. cbn [orb].
  destruct (negb (isBlankStr pstr)); [discriminate|].
  unfold ret. intros H. injection H as <- <-. repeat split; auto; lia.
Qed.

Lemma start_ok (sample_rate rate : Z) (stdin : list Z) (st : state) :
  start sample_rate (initial stdin) = (Ok rate, st) ->
  (sample_rate = 44100 \/ sample_rate = 48000)
  /\ 1 <= rate <= 1024 /\ t st = 0 /\ current st = 0.
Proof.
  unfold start, bind at 1, modify at 1. unfold bind at 1.
  destruct (readHeader _) as [[rate'|e] st1] eqn:Hhead; [|discriminate].
  destruct (readHeader_ok _ _ _ Hhead) as (Hr & Ht & Hc).
  cbn in Ht, Hc. unfold beginWAV, bind at 1.
  destruct (Z.eqb_spec sample_rate 48000) as [H48 | H48];
    destruct (Z.eqb_spec sample_rate 44100) as [H44 | H44];
    cbn [negb andb]; try discriminate;
    unfold modify, ret; intros H; injection H as <- <-; cbn; auto.
Qed.

Lemma sample_position_0 (sample_rate rate : Z) :
  sample_rate = 44100 \/ sample_rate = 48000 -> 1 <= rate <= 1024 ->
  sample_position 0 sample_rate rate = Ok 0.
Proof.
  intros Hs Hr.
  rewrite RateFacts.sample_position_spec by (destruct Hs; subst; lia).
  reflexivity.
Qed.

(** Every state of the loop has valid rates and satisfies the
    invariant. *)
Lemma reachable_inv (sample_rate rate : Z) (st : state) :
  reachable sample_rate rate st ->
  (sample_rate = 44100 \/ sample_rate = 48000)
  /\ 1 <= rate <= 1024
  /\ clock_inv sample_rate rate st.
Proof.
  induction 1 as [stdin st Hstart | st st' _ IH Hread | st st' _ IH Hline].
  - destruct (start_ok _ _ _ _ Hstart) as (Hs & Hr & Ht & Hc).
    split; [exact Hs|]. split; [exact Hr|].
    unfold clock_inv. rewrite Ht, Hc.
    split; [unfold INT32_MAX; lia | apply sample_position_0; assumption].
  - destruct IH as (Hs & Hr & Ht & Hpos).
    destruct (readInput_frame _ _ _ Hread) as (Ht' & Hc' & _).
    split; [exact Hs|]. split; [exact Hr|].
    unfold clock_inv. rewrite Ht', Hc'. split; assumption.
  - destruct IH as (Hs & Hr & Hinv).
    split; [exact Hs|]. split; [exact Hr|].
    eapply process_line_inv; eauto.
Qed.

(** **** Waits *)

Lemma set_t_same (st : state) : set_t st (t st + 0) = st.
Proof. destruct st. unfold set_t. cbn. rewrite Z.add_0_r. reflexivity. Qed.

(** C3, as stated, fails: the script [OPL2 60], [w 0] is rejected at
    its [w 0] line. *)
Lemma wait_zero_example :
  fst (run 44100 scenario_wait_zero) = Err ErrNotIncreasing
  /\ line_count (snd (run 44100 scenario_wait_zero)) = 2
  /\ generated (trace (snd (run 44100 scenario_wait_zero))) = 0.
Proof. repeat split; vm_compute; reflexivity. Qed.

(** C3, amended. In every state the interpreter reaches, a body line
    [w 0] is rejected: the new position equals the current one, the
    interpreter stops with the diagnostic of its test for a strictly
    greater position, and nothing is generated for the line (the state
    at the stop is the state [readInput] left, trace included). *)
Theorem wait_zero_rejected (sample_rate rate : Z) (st st1 : state) :
  reachable sample_rate rate st ->
  readInput st = (Ok true, st1) ->
  l_buf st1 = bytes_of "w 0" ->
  process_line sample_rate rate st1 = (Err ErrNotIncreasing, st1)
  /\ (forall rounds,
        body_loop (S rounds) sample_rate rate st = (Err ErrNotIncreasing, st1))
  /\ trace st1 = trace st.
Proof.
  intros Hreach Hread Hbuf.
  pose proof (reach_read _ _ _ _ Hreach Hread) as Hreach1.
  destruct (reachable_inv _ _ _ Hreach1) as (_ & _ & Ht & Hpos).
  assert (Hline : process_line sample_rate rate st1 = (Err ErrNotIncreasing, st1)).
  { unfold process_line, bind at 1, get. rewrite Hbuf.
    change (bytes_of "w 0") with [119; 32; 48].
    cbn [nth isBlankStr skipn is_blank negb andb orb Z.eqb Pos.eqb].
    unfold bind at 1, lift, parseInt.
    cbn [skip_blanks is_blank peek hd is_dec parse_digits negb andb orb
         Z.eqb Z.leb Z.compare Pos.eqb Pos.compare Pos.compare_cont].
    change (0 <=? INT32_MAX / 10) with true.
    change (0 * 10 <=? INT32_MAX - (48 - 48)) with true.
    cbv iota. change (0 * 10 + (48 - 48)) with 0. cbn [isBlankStr negb].
    unfold wait_command, bind at 1, get.
    destruct (Z.leb_spec (t st1) (INT32_MAX - 0)) as [_|]; [|lia].
    unfold bind at 1, modify at 1. unfold bind at 1, get. unfold bind at 1, lift.
    rewrite set_t_same, Hpos, Z.leb_refl. reflexivity. }
  split; [exact Hline|]. split.
  - intros rounds. cbn [body_loop]. unfold bind at 1. rewrite Hread.
    unfold bind at 1. rewrite Hline. reflexivity.
  - apply (readInput_frame _ _ _ Hread).
Qed.

Lemma wait_zero_rejected_witness :
  process_line 44100 60
    (mkState [] 2 (bytes_of "w 0") 0 0 0 0 [OplInit 44100; WavBegin 44100])
  = (Err ErrNotIncreasing,
     mkState [] 2 (bytes_of "w 0") 0 0 0 0 [OplInit 44100; WavBegin 44100]).
Proof.
  exact (proj1 (wait_zero_rejected 44100 60
                  (mkState (bytes_of ("w 0" ++ LF)%string) 1 (bytes_of "OPL2 60")
                     0 0 0 0 [OplInit 44100; WavBegin 44100])
                  (mkState [] 2 (bytes_of "w 0") 0 0 0 0
                     [OplInit 44100; WavBegin 44100])
                  (reach_start 44100 60 (bytes_of scenario_wait_zero) _ eq_refl)
                  eq_refl eq_refl)).
Defined.

(** C9. In every state the interpreter reaches, a wait of [N >= 1]
    ticks that does not overflow the clock and whose converted
    position passes the finiteness and range tests lands at least
    [43 * N] samples after the current position (the sample rate is
    at least 43 times the control rate), so the test for a strictly
    greater position does not stop the interpreter. *)
Theorem wait_advances_position (sample_rate rate : Z) (st : state) (N soi : Z) :
  reachable sample_rate rate st ->
  1 <= N ->
  t st + N <= INT32_MAX ->
  sample_position (t st + N) sample_rate rate = Ok soi ->
  current st + 43 * N <= soi
  /\ current st < soi
  /\ fst (wait_command sample_rate rate N st) <> Err ErrNotIncreasing.
Proof.
  intros Hreach HN Hover Hsoi.
  destruct (reachable_inv _ _ _ Hreach) as (Hs & Hr & Ht & Hpos).
  assert (Hs16 : 0 < sample_rate < 2 ^ 16) by (destruct Hs; subst; lia).
  assert (H43 : 43 * rate <= sample_rate) by (destruct Hs; subst; lia).
  assert (Hcur : t st * sample_rate / rate = current st).
  { rewrite RateFacts.sample_position_spec in Hpos by (unfold INT32_MAX in *; lia).
    destruct (t st * sample_rate / rate <=? INT32_MAX); [|discriminate].
    injection Hpos as Hpos. exact Hpos. }
  assert (Hnew : (t st + N) * sample_rate / rate = soi).
  { pose proof Hsoi as Hsoi'.
    rewrite RateFacts.sample_position_spec in Hsoi' by (unfold INT32_MAX in *; lia).
    destruct ((t st + N) * sample_rate / rate <=? INT32_MAX); [|discriminate].
    injection Hsoi' as Hsoi'. exact Hsoi'. }
  assert (Hadv : current st + 43 * N <= soi).
  { rewrite <- Hcur, <- Hnew.
    rewrite <- Z.div_add by lia.
    apply Z.div_le_mono; [lia | nia]. }
  split; [exact Hadv|]. split; [lia|].
  unfold wait_command, bind at 1, get.
  destruct (Z.leb_spec (t st) (INT32_MAX - N)) as [_|]; [|lia].
  unfold bind at 1, modify at 1. unfold bind at 1, get. unfold bind at 1, lift.
  cbn [t current set_t]. rewrite Hsoi.
  destruct (Z.leb_spec soi (current st)) as [|_]; [lia|].
  unfold bind at 1.
  destruct (computeSamples _ _) as [[r|e] st1] eqn:Hcs.
  - unfold bind, modify, ret. cbn [fst]. discriminate.
  - cbn [fst]. intros H. injection H as ->.
    destruct (computeSamples_spec _ _ _ _ Hcs) as (_ & _ & He).
    destruct (He _ eq_refl); discriminate.
Qed.

Lemma wait_advances_position_witness :
  0 + 43 * 120 <= 88200
  /\ 0 < 88200
  /\ fst (wait_command 44100 60 120
            (mkState (bytes_of ("w 120" ++ LF)%string) 1 (bytes_of "OPL2 60")
               0 0 0 0 [OplInit 44100; WavBegin 44100]))
     <> Err ErrNotIncreasing.
Proof.
  refine (wait_advances_position 44100 60
            (mkState (bytes_of ("w 120" ++ LF)%string) 1 (bytes_of "OPL2 60")
               0 0 0 0 [OplInit 44100; WavBegin 44100])
            120 88200
            (reach_start 44100 60
               (bytes_of ("OPL2 60" ++ LF ++ "w 120" ++ LF)%string) _ eq_refl)
            _ _ _).
  - lia.
  - vm_compute. discriminate.
  - vm_compute. reflexivity.
Defined.

(** **** The loops end *)

Lemma read_line_consumes (n c : Z) (rest buf line rest' : list Z) :
  read_line n c rest buf = Ok (line, rest') ->
  (List.length rest' <= List.length rest)%nat.
Proof.
  revert c buf. induction rest as [|c' rest IH]; intros c buf; cbn [read_line].
  - destruct (c =? 13); [discriminate|].
    destruct (c =? 10); [intros H; injection H as _ <-; lia|].
    destruct (negb (c =? 9) && ((c <? 32) || (c >? 126))); [discriminate|].
    destruct (Z.of_nat (List.length buf) >=? LINE_MAXIMUM); [discriminate|].
    intros H. injection H as _ <-. lia.
  - destruct (c =? 13).
    { destruct (c' =? 10); [|discriminate].
      intros H. injection H as _ <-. cbn [List.length]. lia. }
    destruct (c =? 10); [intros H; injection H as _ <-; lia|].
    destruct (negb (c =? 9) && ((c <? 32) || (c >? 126))); [discriminate|].
    destruct (Z.of_nat (List.length buf) >=? LINE_MAXIMUM); [discriminate|].
    intros H. apply IH in H. cbn [List.length]. lia.
Qed.

Lemma readInput_consumes (st st' : state) :
  readInput st = (Ok true, st') ->
  (List.length (input st') < List.length (input st))%nat.
Proof.
  intros H. destruct (readInput_true _ _ H) as (c & rest & buf & rest' & Hin & _ & Hrl & ->).
  rewrite Hin. cbn [input set_input List.length].
  apply read_line_consumes in Hrl. lia.
Qed.

Lemma wait_command_total (sample_rate rate iv32 : Z) (st st' : state)
  (r : result (option unit)) :
  wait_command sample_rate rate iv32 st = (r, st') ->
  input st' = input st /\ r <> Ok None.
Proof.
  unfold wait_command, bind at 1, get.
  destruct (t st <=? INT32_MAX - iv32).
  2:{ unfold raise. intros H. injection H as <- <-. split; congruence. }
  unfold bind at 1, modify at 1. unfold bind at 1, get. unfold bind at 1, lift.
  cbn [t set_t].
  destruct (sample_position (t st + iv32) sample_rate rate) as [soi|e].
  2:{ intros H. injection H as <- <-. split; [reflexivity | congruence]. }
  cbn [current set_t].
  destruct (soi <=? current st).
  { unfold raise. intros H. injection H as <- <-. split; [reflexivity | congruence]. }
  unfold bind at 1.
  destruct (computeSamples _ _) as [[r'|e] st1] eqn:Hcs.
  - destruct (computeSamples_spec _ _ _ _ Hcs) as ((_ & _ & Hin & _) & Hn & _).
    unfold bind, modify, ret. intros H. injection H as <- <-.
    cbn [input set_current]. cbn [input set_t] in Hin. split; [exact Hin|].
    intros H. apply Hn. congruence.
  - destruct (computeSamples_spec _ _ _ _ Hcs) as ((_ & _ & Hin & _) & _ & _).
    intros H. injection H as <- <-. cbn [input set_t] in Hin.
    split; [exact Hin | congruence].
Qed.

Lemma process_line_total (sample_rate rate : Z) (st st' : state)
  (r : result (option unit)) :
  process_line sample_rate rate st = (r, st') ->
  input st' = input st /\ r <> Ok None.
Proof.
  unfold process_line, bind at 1, get.
  destruct ((nth 0 (l_buf st) 0 =? 39) || isBlankStr (l_buf st)).
  { unfold ret. intros H. injection H as <- <-. split; congruence. }
  destruct (negb (nth 1 (l_buf st) 0 =? 32) && negb (nth 1 (l_buf st) 0 =? 9)).
  { unfold raise. intros H. injection H as <- <-. split; congruence. }
  destruct (nth 0 (l_buf st) 0 =? 114).
  { unfold bind at 1, lift.
    destruct (parseByte _ _) as [[reg p1]|e].
    2:{ intros H. injection H as <- <-. split; congruence. }
    unfold bind at 1.
    destruct (parseByte _ p1) as [[val p2]|e].
    2:{ intros H. injection H as <- <-. split; congruence. }
    destruct (negb (isBlankStr p2)).
    { unfold raise. intros H. injection H as <- <-. split; congruence. }
    unfold bind, modify, ret. intros H. injection H as <- <-.
    split; [reflexivity | congruence]. }
  destruct (nth 0 (l_buf st) 0 =? 119).
  2:{ unfold raise. intros H. injection H as <- <-. split; congruence. }
  unfold bind at 1, lift.
  destruct (parseInt _ _) as [[iv32 p1]|e].
  2:{ intros H. injection H as <- <-. split; congruence. }
  destruct (negb (isBlankStr p1)).
  { unfold raise. intros H. injection H as <- <-. split; congruence. }
  apply wait_command_total.
Qed.

Lemma body_loop_total (rounds : nat) (sample_rate rate : Z) (st : state) :
  (List.length (input st) < rounds)%nat ->
  fst (body_loop rounds sample_rate rate st) <> Ok None.
Proof.
  revert st. induction rounds as [|rounds IH]; intros st Hlen; [lia|].
  cbn [body_loop]. unfold bind at 1.
  destruct (readInput st) as [[[|]|e] st1] eqn:Hread; cbn [fst]; try discriminate.
  pose proof (readInput_consumes _ _ Hread) as Hless.
  unfold bind at 1.
  destruct (process_line sample_rate rate st1) as [[[[]|]|e] st2] eqn:Hline;
    cbn [fst]; try discriminate.
  - destruct (process_line_total _ _ _ _ _ Hline) as [Hin _].
    apply IH. rewrite Hin. lia.
  - destruct (process_line_total _ _ _ _ _ Hline) as [_ Hn]. congruence.
Qed.

(** [main] never runs out of rounds: it ends with success or with a
    diagnostic. *)
Theorem main_total (sample_rate : Z) (stdin : list Z) :
  fst (main sample_rate (initial stdin)) <> Ok None.
Proof.
  unfold main, bind at 1.
  destruct (start sample_rate (initial stdin)) as [[rate|e] st] eqn:Hstart;
    cbn [fst]; [|discriminate].
  unfold bind at 1, get. unfold bind at 1.
  pose proof (body_loop_total (S (List.length (input st))) sample_rate rate st
                ltac:(lia)) as Hloop.
  destruct (body_loop _ _ _ st) as [[[[]|]|e] st1]; cbn [fst] in *;
    try discriminate; try congruence.
  unfold bind at 1, modify. unfold bind at 1.
  destruct (finishWAV _) as [[[]|e] st2]; cbn; discriminate.
Qed.

End RetroOplFacts.

(** *** The binary event decoder *)

Module Vgm2OplFacts.
Import Vgm2Opl.

(** **** Opcodes *)

(** C4, as stated, fails: opcode 0x7A is one of the short waits
    0x70..0x7F (11 samples); the walk goes on and writes the register
    command that follows. *)
Lemma opcode_7A_is_a_wait :
  decode 1 section_7A
  = Finished (mkWalk 4 0 false 11 11 0 [CmdHeader; CmdR 0x20 0x01]).
Proof. vm_compute. reflexivity. Qed.

(** C4, amended. Whenever an opcode without a branch in the chain of
    tests (any byte other than 0x66, 0x70..0x7F, 0x61, 0x62, 0x63 and
    0x5A) is reached during a pass, the pass stops with the
    unsupported-opcode diagnostic carrying that byte, nothing more is
    written, and no later pass runs.  Opcode 0x7A is not such a byte:
    it requests a wait of 11 samples. *)
Theorem unsupported_opcode_stops (data : list Z) (w : walk) (op : Z) :
  data_len w > 0 ->
  at_pd data w 0 = Some op ->
  supported op = false ->
  (forall rounds,
      pass_loop (S rounds) data w = Stopped (ErrUnsupportedOpcode op) w)
  /\ (forall sec i w0 todo,
        pass sec i w0 = Stopped (ErrUnsupportedOpcode op) w ->
        passes (S todo) sec i w0 = Stopped (ErrUnsupportedOpcode op) w)
  /\ supported 0x7a = true
  /\ (forall data' w', at_pd data' w' 0 = Some 0x7a ->
        dispatch data' w' = Continue (set_wait w' true 11)).
Proof.
  intros Hlen Hop Hsup.
  assert (Hd : dispatch data w = Fail (ErrUnsupportedOpcode op) w).
  { unfold dispatch. rewrite Hop. unfold supported in Hsup.
    destruct (op =? 0x66); [discriminate|].
    destruct ((op >=? 0x70) && (op <=? 0x7f)); [discriminate|].
    destruct (op =? 0x63); [discriminate|].
    destruct (op =? 0x62); [discriminate|].
    destruct (op =? 0x61); [discriminate|].
    destruct (op =? 0x5a); [discriminate|]. reflexivity. }
  split; [|split; [|split]].
  - intros rounds. cbn [pass_loop].
    destruct (Z.gtb_spec (data_len w) 0); [|lia].
    unfold round. rewrite Hd. reflexivity.
  - intros sec i w0 todo Hpass. cbn [passes]. rewrite Hpass. reflexivity.
  - reflexivity.
  - intros data' w' H. unfold dispatch. rewrite H. reflexivity.
Qed.

Lemma unsupported_opcode_stops_witness :
  pass_loop 1 [0x30] (mkWalk 0 1 false 0 0 0 [CmdHeader])
  = Stopped (ErrUnsupportedOpcode 0x30) (mkWalk 0 1 false 0 0 0 [CmdHeader]).
Proof.
  exact (proj1 (unsupported_opcode_stops [0x30]
                  (mkWalk 0 1 false 0 0 0 [CmdHeader]) 0x30
                  eq_refl eq_refl eq_refl) O).
Defined.

(** **** Reads stay inside the data section *)

Lemma at_pd_in_bounds (data : list Z) (w : walk) (i : Z) :
  in_bounds data w -> 0 <= i < data_len w -> exists b, at_pd data w i = Some b.
Proof.
  intros (Hpd & Hlen & Hend) Hi. unfold at_pd.
  destruct (Z.ltb_spec (pd w + i) 0); [lia|].
  destruct (nth_error data (Z.to_nat (pd w + i))) as [b|] eqn:Hnth; [eauto|].
  apply nth_error_None in Hnth. lia.
Qed.

Lemma wrap32_small (x : Z) : 0 <= x < 2 ^ 32 -> wrap32 x = x.
Proof. intros H. unfold wrap32. apply Z.mod_small. exact H. Qed.

Lemma operands_in_bounds (data : list Z) (w : walk) (k : Z -> Z -> walk -> walk) :
  in_bounds data w ->
  (forall b1 b2, pd (k b1 b2 w) = pd w /\ data_len (k b1 b2 w) = data_len w) ->
  match operands data w k with
  | Continue w' => in_bounds data w' /\ 0 < data_len w' /\ data_len w' < data_len w
  | Break _ => False
  | Fail e _ => e = ErrMissingParameters
  end.
Proof.
  intros Hb Hk. unfold operands.
  destruct (Z.ltb_spec (data_len w) 3) as [|Hlen]; [reflexivity|].
  destruct (at_pd_in_bounds data w 1 Hb ltac:(lia)) as [b1 ->].
  destruct (at_pd_in_bounds data w 2 Hb ltac:(lia)) as [b2 ->].
  destruct (Hk b1 b2) as [Hpd Hdl]. destruct Hb as (H1 & H2 & H3).
  unfold in_bounds. cbn [pd data_len set_cursor]. rewrite Hpd, Hdl.
  rewrite wrap32_small by lia. lia.
Qed.

(** One round either stops on a diagnostic of the source, or leaves
    the cursor inside the data with fewer bytes to go. *)
Lemma round_in_bounds (data : list Z) (w : walk) :
  in_bounds data w -> 0 < data_len w ->
  match round data w with
  | Continue w' => in_bounds data w' /\ data_len w' < data_len w
  | Break _ => True
  | Fail e _ => e <> ErrOutOfBounds
  end.
Proof.
  intros Hb Hlen.
  assert (Hwait : forall w1, in_bounds data w1 -> 0 < data_len w1 ->
            data_len w1 <= data_len w ->
            match
              match handle_wait w1 with
              | Continue w2 =>
                  Continue (set_cursor w2 (pd w2 + 1) (wrap32 (data_len w2 - 1)))
              | o => o
              end
            with
            | Continue w' => in_bounds data w' /\ data_len w' < data_len w
            | Break _ => True
            | Fail e _ => e <> ErrOutOfBounds
            end).
  { intros w1 (H1 & H2 & H3) Hpos Hle. unfold handle_wait.
    set (w1' := if wait_cmd w1 && (wait_req w1 <? 1)
                then set_wait w1 false (wait_req w1) else w1).
    assert (Hsame : pd w1' = pd w1 /\ data_len w1' = data_len w1).
    { unfold w1'. destruct (wait_cmd w1 && (wait_req w1 <? 1)); auto. }
    destruct Hsame as [Hp Hd].
    destruct (wait_cmd w1'); cbv zeta.
    - destruct (samp_offs w1' <=? INT32_MAX - wait_req w1'); [|discriminate].
      cbn [samp_offs set_samp_offs].
      destruct (control_position _) as [new_ctl|e] eqn:Hcp.
      + destruct (new_ctl >? ctl_offs _);
          unfold in_bounds; cbn [pd data_len set_cursor set_ctl_offs print set_samp_offs];
          rewrite ?Hp, ?Hd, wrap32_small by lia; lia.
      + unfold control_position in Hcp.
        destruct (negb _) in Hcp; [|discriminate].
        injection Hcp as <-. discriminate.
    - unfold in_bounds. cbn [pd data_len set_cursor].
      rewrite ?Hp, ?Hd, wrap32_small by lia. lia. }
  unfold round, dispatch.
  destruct (at_pd_in_bounds data w 0 Hb ltac:(lia)) as [op ->].
  destruct (op =? 0x66); [exact I|].
  destruct ((op >=? 0x70) && (op <=? 0x7f)).
  { apply Hwait; [exact Hb | exact Hlen | cbn; lia]. }
  destruct (op =? 0x63).
  { apply Hwait; [exact Hb | exact Hlen | cbn; lia]. }
  destruct (op =? 0x62).
  { apply Hwait; [exact Hb | exact Hlen | cbn; lia]. }
  destruct (op =? 0x61).
  { pose proof (operands_in_bounds data w
                  (fun b1 b2 w => set_wait w true (Z.lor b1 (Z.shiftl b2 8)))
                  Hb ltac:(intros; split; reflexivity)) as Hop.
    destruct (operands data w _) as [w1|w1|e w1]; [|contradiction|subst e; discriminate].
    destruct Hop as (Hb1 & Hpos1 & Hlt1). apply Hwait; [assumption | assumption | lia]. }
  destruct (op =? 0x5a).
  { pose proof (operands_in_bounds data (set_wait w false (wait_req w))
                  (fun b1 b2 w => print w (CmdR b1 b2))
                  Hb ltac:(intros; split; reflexivity)) as Hop.
    destruct (operands data _ _) as [w1|w1|e w1]; [|contradiction|subst e; discriminate].
    destruct Hop as (Hb1 & Hpos1 & Hlt1). cbn [data_len set_wait] in Hlt1.
    apply Hwait; [assumption | assumption | lia]. }
  discriminate.
Qed.

(** A pass never reads outside the data section, and never runs out
    of rounds. *)
Lemma pass_loop_in_bounds (rounds : nat) (data : list Z) (w : walk) :
  in_bounds data w -> (Z.to_nat (data_len w) <= rounds)%nat ->
  match pass_loop rounds data w with
  | Finished _ => True
  | Stopped e _ => e <> ErrOutOfBounds
  | NoRoundsLeft => False
  end.
Proof.
  revert w. induction rounds as [|rounds IH]; intros w Hb Hr; cbn [pass_loop].
  - destruct (Z.gtb_spec (data_len w) 0); [lia | exact I].
  - destruct (Z.gtb_spec (data_len w) 0) as [Hpos|]; [|exact I].
    pose proof (round_in_bounds data w Hb ltac:(lia)) as Hround.
    destruct (round data w) as [w'|w'|e w']; [|exact I|exact Hround].
    destruct Hround as [Hb' Hlt]. apply IH; [exact Hb'|].
    destruct Hb' as (_ & Hd & _). lia.
Qed.

(** C8. Whenever opcode 0x61 (general wait) or 0x5A (register write)
    is reached with fewer than 3 bytes left in the data section, the
    pass stops with the missing-parameters diagnostic: no operand is
    read, nothing is written, and (in general) no pass reads a byte
    outside the loaded data. *)
Theorem missing_operands_stop (data : list Z) (w : walk) (op : Z) :
  0 < data_len w < 3 ->
  at_pd data w 0 = Some op ->
  op = 0x61 \/ op = 0x5a ->
  (forall rounds,
      exists w',
        pass_loop (S rounds) data w = Stopped ErrMissingParameters w'
        /\ pd w' = pd w /\ data_len w' = data_len w /\ output w' = output w)
  /\ (forall rounds w0,
        in_bounds data w0 -> (Z.to_nat (data_len w0) <= rounds)%nat ->
        forall w', pass_loop rounds data w0 <> Stopped ErrOutOfBounds w').
Proof.
  intros Hlen Hop Hcase. split.
  - intros rounds. cbn [pass_loop].
    destruct (Z.gtb_spec (data_len w) 0); [|lia].
    unfold round, dispatch. rewrite Hop.
    destruct Hcase as [-> | ->].
    + change (0x61 =? 0x66) with false. change ((0x61 >=? 0x70) && (0x61 <=? 0x7f)) with false.
      change (0x61 =? 0x63) with false. change (0x61 =? 0x62) with false.
      change (0x61 =? 0x61) with true. cbv iota.
      unfold operands. destruct (Z.ltb_spec (data_len w) 3) as [_|]; [|lia].
      exists w. repeat split.
    + change (0x5a =? 0x66) with false. change ((0x5a >=? 0x70) && (0x5a <=? 0x7f)) with false.
      change (0x5a =? 0x63) with false. change (0x5a =? 0x62) with false.
      change (0x5a =? 0x61) with false. change (0x5a =? 0x5a) with true. cbv iota.
      unfold operands. cbn [data_len set_wait].
      destruct (Z.ltb_spec (data_len w) 3) as [_|]; [|lia].
      exists (set_wait w false (wait_req w)). repeat split.
  - intros rounds w0 Hb Hr w' Heq.
    pose proof (pass_loop_in_bounds rounds data w0 Hb Hr) as H.
    rewrite Heq in H. apply H. reflexivity.
Qed.

Lemma missing_operands_stop_witness :
  exists w',
    pass_loop 1 [0x62; 0x61; 0x10] (mkWalk 1 2 true 735 735 16 [CmdHeader; CmdW 16])
    = Stopped ErrMissingParameters w'
    /\ pd w' = 1 /\ data_len w' = 2 /\ output w' = [CmdHeader; CmdW 16].
Proof.
  refine (proj1 (missing_operands_stop [0x62; 0x61; 0x10]
                   (mkWalk 1 2 true 735 735 16 [CmdHeader; CmdW 16]) 0x61
                   _ eq_refl (or_introl eq_refl)) O).
  cbn. lia.
Defined.

(** **** Wait accounting *)

Lemma extends_refl (w : walk) : extends w w.
Proof. split; [exists []; rewrite app_nil_r; reflexivity | lia]. Qed.

Lemma extends_trans (w1 w2 w3 : walk) :
  extends w1 w2 -> extends w2 w3 -> extends w1 w3.
Proof.
  intros [[m1 H1] L1] [[m2 H2] L2]. split; [|lia].
  exists (m1 ++ m2). rewrite H2, H1, app_assoc. reflexivity.
Qed.

Lemma total_wait_app (out1 out2 : list command) :
  total_wait (out1 ++ out2) = total_wait out1 + total_wait out2.
Proof.
  induction out1 as [|c out1 IH]; [reflexivity|].
  cbn [app]. unfold total_wait in *. cbn [fold_right]. rewrite IH.
  destruct c; lia.
Qed.

Lemma handle_wait_accounted (w : walk) :
  accounted w ->
  match handle_wait w with
  | Continue w' =>
      accounted w' /\ extends w w'
      /\ pd w' = pd w /\ data_len w' = data_len w
  | Break _ => False
  | Fail e _ => e = ErrSampleOverflow
  end.
Proof.
  intros (Hs & Hc & Ht). unfold handle_wait.
  assert (Hsame : forall w', samp_offs w' = samp_offs w -> ctl_offs w' = ctl_offs w ->
            output w' = output w -> accounted w' /\ extends w w').
  { intros w' E1 E2 E3. unfold accounted, extends. rewrite E1, E2, E3.
    split; [auto|]. split; [|lia]. exists []. rewrite app_nil_r. reflexivity. }
  destruct (wait_cmd w) eqn:Hcmd; cbn [andb].
  2:{ rewrite Hcmd. split; [|split; [|split]]; try reflexivity; apply Hsame; reflexivity. }
  destruct (Z.ltb_spec (wait_req w) 1) as [Hreq | Hreq]; cbn [wait_cmd set_wait].
  { split; [|split; [|split]]; try reflexivity; apply Hsame; reflexivity. }
  rewrite Hcmd.
  destruct (Z.leb_spec (samp_offs w) (INT32_MAX - wait_req w)) as [Hle|];
    [|reflexivity].
  cbn [samp_offs set_samp_offs].
  rewrite RateFacts.control_position_spec by (unfold INT32_MAX in *; lia).
  cbn [ctl_offs set_samp_offs].
  assert (Hmono : ctl_offs w <= (samp_offs w + wait_req w) * 980 / 44100).
  { rewrite Hc. apply Z.div_le_mono; lia. }
  destruct (Z.gtb_spec ((samp_offs w + wait_req w) * 980 / 44100) (ctl_offs w))
    as [Hgt | Hngt].
  - unfold accounted, extends.
    cbn [samp_offs ctl_offs output pd data_len set_ctl_offs print set_samp_offs].
    rewrite total_wait_app, Ht. cbn [total_wait fold_right].
    split; [split; [lia | split; [reflexivity | lia]]|].
    split; [split; [eexists; reflexivity | lia]|].
    split; reflexivity.
  - unfold accounted, extends.
    cbn [samp_offs ctl_offs output pd data_len set_samp_offs].
    split; [split; [lia | split; [lia | exact Ht]]|].
    split; [split; [exists []; rewrite app_nil_r; reflexivity | lia]|].
    split; reflexivity.
Qed.

Lemma operands_accounted (data : list Z) (w : walk) (k : Z -> Z -> walk -> walk) :
  accounted w ->
  (forall b1 b2, accounted (k b1 b2 w) /\ extends w (k b1 b2 w)) ->
  match operands data w k with
  | Continue w' => accounted w' /\ extends w w'
  | Break _ => False
  | Fail _ _ => True
  end.
Proof.
  intros Ha Hk. unfold operands.
  destruct (data_len w <? 3); [exact I|].
  destruct (at_pd data w 1) as [b1|]; [|exact I].
  destruct (at_pd data w 2) as [b2|]; [|exact I].
  destruct (Hk b1 b2) as [Ha' He']. split; [exact Ha' | exact He'].
Qed.

Lemma set_wait_accounted (w : walk) (c : bool) (req : Z) :
  accounted w -> accounted (set_wait w c req) /\ extends w (set_wait w c req).
Proof.
  intros Ha. split; [exact Ha|]. unfold extends. cbn [output samp_offs set_wait].
  split; [exists []; rewrite app_nil_r; reflexivity | lia].
Qed.

Lemma round_accounted (data : list Z) (w : walk) :
  accounted w ->
  match round data w with
  | Continue w' | Break w' => accounted w' /\ extends w w'
  | Fail _ _ => True
  end.
Proof.
  intros Ha.
  assert (Hwait : forall w1, accounted w1 -> extends w w1 ->
            match
              match handle_wait w1 with
              | Continue w2 =>
                  Continue (set_cursor w2 (pd w2 + 1) (wrap32 (data_len w2 - 1)))
              | o => o
              end
            with
            | Continue w' | Break w' => accounted w' /\ extends w w'
            | Fail _ _ => True
            end).
  { intros w1 Ha1 He1. pose proof (handle_wait_accounted w1 Ha1) as H.
    destruct (handle_wait w1) as [w2|w2|e w2]; [|contradiction|exact I].
    destruct H as (Ha2 & He2 & _). split; [exact Ha2|].
    exact (extends_trans _ _ _ He1 He2). }
  unfold round, dispatch.
  destruct (at_pd data w 0) as [op|]; [|exact I].
  destruct (op =? 0x66); [split; [exact Ha | apply extends_refl]|].
  destruct ((op >=? 0x70) && (op <=? 0x7f));
    [apply Hwait; apply set_wait_accounted; exact Ha|].
  destruct (op =? 0x63); [apply Hwait; apply set_wait_accounted; exact Ha|].
  destruct (op =? 0x62); [apply Hwait; apply set_wait_accounted; exact Ha|].
  destruct (op =? 0x61).
  { pose proof (operands_accounted data w
                  (fun b1 b2 w => set_wait w true (Z.lor b1 (Z.shiftl b2 8)))
                  Ha ltac:(intros; apply set_wait_accounted; exact Ha)) as Hop.
    destruct (operands data w _) as [w1|w1|e w1]; [|contradiction|exact I].
    destruct Hop as [Ha1 He1]. apply Hwait; assumption. }
  destruct (op =? 0x5a); [|exact I].
  assert (Hprint : forall b1 b2,
            accounted (print (set_wait w false (wait_req w)) (CmdR b1 b2))
            /\ extends (set_wait w false (wait_req w))
                 (print (set_wait w false (wait_req w)) (CmdR b1 b2))).
  { intros b1 b2. destruct Ha as (Hs & Hc & Ht).
    unfold accounted, extends. cbn [samp_offs ctl_offs output print set_wait].
    rewrite total_wait_app, Ht. cbn [total_wait fold_right].
    split; [split; [exact Hs | split; [exact Hc | lia]]|].
    split; [eexists; reflexivity | lia]. }
  pose proof (operands_accounted data (set_wait w false (wait_req w))
                (fun b1 b2 w => print w (CmdR b1 b2)) Ha Hprint) as Hop.
  destruct (operands data _ _) as [w1|w1|e w1]; [|contradiction|exact I].
  destruct Hop as [Ha1 He1]. apply Hwait; assumption.
Qed.

Lemma pass_loop_accounted (rounds : nat) (data : list Z) (w w' : walk) :
  accounted w ->
  pass_loop rounds data w = Finished w' ->
  accounted w' /\ extends w w'.
Proof.
  revert w. induction rounds as [|rounds IH]; intros w Ha; cbn [pass_loop].
  - destruct (data_len w >? 0); [discriminate|].
    intros H. injection H as <-. split; [exact Ha | apply extends_refl].
  - destruct (data_len w >? 0).
    2:{ intros H. injection H as <-. split; [exact Ha | apply extends_refl]. }
    pose proof (round_accounted data w Ha) as Hround.
    destruct (round data w) as [w1|w1|e w1]; [| |discriminate].
    + destruct Hround as [Ha1 He1]. intros H.
      destruct (IH _ Ha1 H) as [Ha' He']. split; [exact Ha'|].
      exact (extends_trans _ _ _ He1 He').
    + intros H. injection H as <-. exact Hround.
Qed.

Lemma pass_accounted (sec : section) (i : Z) (w w' : walk) :
  accounted w -> pass sec i w = Finished w' -> accounted w' /\ extends w w'.
Proof.
  intros Ha. unfold pass. cbv zeta. intros H.
  apply pass_loop_accounted in H.
  - destruct H as [Ha' He']. split; [exact Ha'|].
    unfold start_pass in He'. destruct (i >? 0); exact He'.
  - unfold start_pass. destruct (i >? 0); exact Ha.
Qed.

(** C6. When decoding with repeat count 2 succeeds, the second pass
    starts at the loop offset with the sample offset, the control
    position and the output the first pass ended with; at the end of
    each pass the waits written so far add up to the control position,
    which is the converted sample offset, so the waits of the second
    pass add up to exactly the advance of the control position over
    that pass. *)
Theorem two_pass_continuity (sec : section) (w2 : walk) :
  decode 2 sec = Finished w2 ->
  exists w1 : walk,
    pass sec 0 (print initial CmdHeader) = Finished w1
    /\ pass sec 1 w1 = Finished w2
    /\ pd (start_pass sec 1 w1) = loop_offs sec
    /\ samp_offs (start_pass sec 1 w1) = samp_offs w1
    /\ ctl_offs (start_pass sec 1 w1) = ctl_offs w1
    /\ output (start_pass sec 1 w1) = output w1
    /\ total_wait (output w1) = ctl_offs w1
    /\ ctl_offs w1 = samp_offs w1 * 980 / 44100
    /\ total_wait (output w2) = ctl_offs w2
    /\ ctl_offs w2 = samp_offs w2 * 980 / 44100
    /\ samp_offs w1 <= samp_offs w2
    /\ exists second, output w2 = output w1 ++ second
                      /\ total_wait second = ctl_offs w2 - ctl_offs w1.
Proof.
  unfold decode. change (Z.to_nat 2) with 2%nat. cbn [passes].
  destruct (pass sec 0 (print initial CmdHeader)) as [w1| |] eqn:Hp1;
    [|discriminate|discriminate].
  change (0 + 1) with 1.
  destruct (pass sec 1 w1) as [w2'| |] eqn:Hp2; [|discriminate|discriminate].
  intros H. injection H as ->.
  assert (Ha0 : accounted (print initial CmdHeader)).
  { unfold accounted. cbn. unfold INT32_MAX. lia. }
  destruct (pass_accounted _ _ _ _ Ha0 Hp1) as [(Hs1 & Hc1 & Ht1) _].
  destruct (pass_accounted _ _ _ _ (conj Hs1 (conj Hc1 Ht1)) Hp2)
    as [(Hs2 & Hc2 & Ht2) [[second Hout] Hle]].
  exists w1.
  split; [reflexivity|]. split; [exact Hp2|].
  split; [reflexivity|]. split; [reflexivity|].
  split; [reflexivity|]. split; [reflexivity|].
  split; [exact Ht1|]. split; [exact Hc1|].
  split; [exact Ht2|]. split; [exact Hc2|]. split; [exact Hle|].
  exists second. split; [exact Hout|].
  rewrite Hout, total_wait_app in Ht2. lia.
Qed.

Lemma two_pass_continuity_witness :
  exists w1 : walk,
    pass section_loop 0 (print initial CmdHeader) = Finished w1
    /\ pass section_loop 1 w1
       = Finished (mkWalk 5 1 true 882 3234 71
                     [CmdHeader; CmdW 16; CmdR 0x20 0x01; CmdW 19; CmdW 17;
                      CmdR 0x20 0x01; CmdW 19])
    /\ pd (start_pass section_loop 1 w1) = 0
    /\ samp_offs (start_pass section_loop 1 w1) = samp_offs w1
    /\ ctl_offs (start_pass section_loop 1 w1) = ctl_offs w1
    /\ output (start_pass section_loop 1 w1) = output w1
    /\ total_wait (output w1) = ctl_offs w1
    /\ ctl_offs w1 = samp_offs w1 * 980 / 44100
    /\ 71 = 71
    /\ 71 = 3234 * 980 / 44100
    /\ samp_offs w1 <= 3234
    /\ exists second,
         [CmdHeader; CmdW 16; CmdR 0x20 0x01; CmdW 19; CmdW 17; CmdR 0x20 0x01;
          CmdW 19] = output w1 ++ second
         /\ total_wait second = 71 - ctl_offs w1.
Proof.
  refine (two_pass_continuity section_loop
            (mkWalk 5 1 true 882 3234 71
               [CmdHeader; CmdW 16; CmdR 0x20 0x01; CmdW 19; CmdW 17;
                CmdR 0x20 0x01; CmdW 19]) _).
  vm_compute. reflexivity.
Defined.

(** **** Header resolution *)

Lemma wrap32_range (x : Z) : 0 <= wrap32 x < 2 ^ 32.
Proof. unfold wrap32. apply Z.mod_pos_bound. lia. Qed.

(** The values of [read_header] in terms of the header fields. *)
Lemma read_header_fields (file : list Z) (h : header) :
  read_header file = Ok h ->
  exists h04 h1c,
    readHead file 0x04 = Ok h04
    /\ readHead file 0x1c = Ok h1c
    /\ file_len h = wrap32 (h04 + 4)
    /\ loop_abs h = (if wrap32 (h1c + 0x1c) <=? 0x1c then data_offs h
                     else wrap32 (h1c + 0x1c))
    /\ ((file_ver h < 0x150 /\ data_offs h = 0x40)
        \/ (0x150 <= file_ver h
            /\ exists h34,
                 readHead file 0x34 = Ok h34
                 /\ data_offs h = (if wrap32 (h34 + 0x34) <=? 52 then 0x40
                                   else wrap32 (h34 + 0x34)))).
Proof.
  unfold read_header.
  destruct (readHead file 0) as [magic|e]; cbn [bind]; [|discriminate].
  destruct (negb (magic =? 0x206d6756)); [discriminate|].
  destruct (readHead file 0x08) as [ver|e]; cbn [bind]; [|discriminate].
  destruct (readHead file 0x04) as [h04|e]; cbn [bind]; [|discriminate].
  destruct (readHead file 0x1c) as [h1c|e]; cbn [bind]; [|discriminate].
  assert (Hloop : forall d,
            (if (if wrap32 (h1c + 0x1c) <=? 0x1c then 0 else wrap32 (h1c + 0x1c)) <=? 0
             then d
             else if wrap32 (h1c + 0x1c) <=? 0x1c then 0 else wrap32 (h1c + 0x1c))
            = (if wrap32 (h1c + 0x1c) <=? 0x1c then d else wrap32 (h1c + 0x1c))).
  { intros d. destruct (Z.leb_spec (wrap32 (h1c + 0x1c)) 0x1c) as [Hle | Hgt].
    - reflexivity.
    - destruct (Z.leb_spec (wrap32 (h1c + 0x1c)) 0); [lia | reflexivity]. }
  destruct (Z.geb_spec ver 0x150) as [Hver | Hver].
  - destruct (readHead file 0x34) as [h34|e]; cbn [bind]; [|discriminate].
    intros H. injection H as <-. cbn [file_len loop_abs data_offs file_ver].
    exists h04, h1c. rewrite Hloop.
    split; [reflexivity|]. split; [reflexivity|]. split; [reflexivity|].
    split; [reflexivity|]. right. split; [lia|]. exists h34. split; reflexivity.
  - cbn [bind]. intros H. injection H as <-.
    cbn [file_len loop_abs data_offs file_ver].
    exists h04, h1c. rewrite Hloop.
    split; [reflexivity|]. split; [reflexivity|]. split; [reflexivity|].
    split; [reflexivity|]. left. split; [lia | reflexivity].
Qed.

(** The layout of a section that [load] accepts. *)
Lemma load_layout (file : list Z) (sec : section) :
  load file = Ok sec ->
  exists h,
    read_header file = Ok h
    /\ data_offs h <= loop_abs h < data_offs h + full_length sec
    /\ data_offs h + full_length sec = file_len h
    /\ loop_offs sec = loop_abs h - data_offs h
    /\ 0 <= loop_offs sec < full_length sec
    /\ full_length sec <= MAX_DATA_SECTION
    /\ Z.of_nat (List.length (pData sec)) = full_length sec.
Proof.
  unfold load.
  destruct (read_header file) as [h|e] eqn:Hh; cbn [bind]; [|discriminate].
  destruct (read_header_fields _ _ Hh) as (h04 & h1c & _ & _ & Hfl & Hla & Hdo).
  assert (Hfl_r : 0 <= file_len h < 2 ^ 32) by (rewrite Hfl; apply wrap32_range).
  assert (Hdo_r : 0 <= data_offs h < 2 ^ 32).
  { destruct Hdo as [[_ ->] | [_ (h34 & _ & ->)]]; [lia|].
    pose proof (wrap32_range (h34 + 0x34)).
    destruct (wrap32 (h34 + 0x34) <=? 52); lia. }
  unfold load_section.
  destruct (Z.ltb_spec (loop_abs h) (data_offs h)) as [|Hlo]; [discriminate|].
  destruct (Z.geb_spec (loop_abs h) (file_len h)) as [|Hhi]; [discriminate|].
  cbn [orb].
  destruct (Z.leb_spec (file_len h) (data_offs h)) as [|Hlen]; [discriminate|].
  destruct (Z.gtb_spec (wrap32 (file_len h - data_offs h)) MAX_DATA_SECTION)
    as [|Hmax]; [discriminate|].
  destruct (negb (_ =? _)) eqn:Hread; [discriminate|].
  apply negb_false_iff, Z.eqb_eq in Hread.
  intros H. injection H as <-. cbn [full_length loop_offs pData].
  rewrite !wrap32_small in * by lia.
  exists h. split; [reflexivity|]. repeat split; first [lia | exact Hread].
Qed.

Lemma load_well_formed (file : list Z) (sec : section) :
  load file = Ok sec -> well_formed sec.
Proof.
  intros H. destruct (load_layout _ _ H) as (h & _ & _ & _ & _ & Hl & Hm & Hn).
  split; [exact Hn | split; [exact Hl | exact Hm]].
Qed.

(** C5. When header resolution succeeds, the absolute loop offset
    lies in the data section, which ends where the header says the
    file ends: data start <= loop offset < data start + data length.
    A loop-offset field that holds 0 falls back to the data start;
    for version >= 0x150 a data-offset field that gives an absolute
    offset of at most 52 falls back to 0x40.  A loop offset outside
    [data start, file end) stops [main] before anything is written
    or decoded. *)
Theorem loop_offset_within_data (file : list Z) :
  (forall sec, load file = Ok sec ->
     exists h,
       read_header file = Ok h
       /\ data_offs h <= loop_abs h < data_offs h + full_length sec
       /\ data_offs h + full_length sec = file_len h
       /\ loop_offs sec = loop_abs h - data_offs h
       /\ 0 <= loop_offs sec < full_length sec
       /\ full_length sec <= MAX_DATA_SECTION
       /\ Z.of_nat (List.length (pData sec)) = full_length sec)
  /\ (forall h, read_header file = Ok h ->
        (readHead file 0x1c = Ok 0 -> loop_abs h = data_offs h)
        /\ (forall h34, 0x150 <= file_ver h -> readHead file 0x34 = Ok h34 ->
              wrap32 (h34 + 0x34) <= 52 -> data_offs h = 0x40)
        /\ (forall rep_count,
              loop_abs h < data_offs h \/ file_len h <= loop_abs h ->
              main file rep_count = Stopped ErrInvalidLoopOffset initial)).
Proof.
  split.
  - intros sec. apply load_layout.
  - intros h Hh.
    destruct (read_header_fields _ _ Hh) as (h04 & h1c & _ & H1c & _ & Hla & Hdo).
    split; [|split].
    + intros H0. rewrite H0 in H1c. injection H1c as <-.
      rewrite Hla. reflexivity.
    + intros h34 Hver H34 Hsmall.
      destruct Hdo as [[Hlt _] | [_ (h34' & H34' & ->)]]; [lia|].
      rewrite H34 in H34'. injection H34' as <-.
      destruct (Z.leb_spec (wrap32 (h34 + 0x34)) 52); [reflexivity | lia].
    + intros rep_count Hout. unfold main, load. rewrite Hh. cbn [bind].
      unfold load_section.
      destruct (Z.ltb_spec (loop_abs h) (data_offs h));
        destruct (Z.geb_spec (loop_abs h) (file_len h)); cbn [orb];
        try reflexivity. lia.
Qed.

Lemma loop_offset_within_data_witness :
  exists h,
    read_header sample_file = Ok h
    /\ data_offs h <= loop_abs h < data_offs h + 5
    /\ data_offs h + 5 = file_len h
    /\ 0 = loop_abs h - data_offs h
    /\ 0 <= 0 < 5
    /\ 5 <= MAX_DATA_SECTION
    /\ Z.of_nat (List.length [0x62; 0x5a; 1; 2; 0x66]) = 5.
Proof.
  exact (proj1 (loop_offset_within_data sample_file)
           (mkSection [0x62; 0x5a; 1; 2; 0x66] 5 0) eq_refl).
Defined.

(** **** The walk ends, inside the data *)

Lemma pass_safe (sec : section) (i : Z) (w : walk) :
  well_formed sec ->
  match pass sec i w with
  | Finished _ => True
  | Stopped e _ => e <> ErrOutOfBounds
  | NoRoundsLeft => False
  end.
Proof.
  intros (Hlen & Hloop & Hmax). unfold pass. cbv zeta.
  apply pass_loop_in_bounds; [|lia].
  unfold MAX_DATA_SECTION in Hmax.
  unfold start_pass, in_bounds. destruct (i >? 0); cbn [pd data_len set_cursor].
  - rewrite wrap32_small by lia. lia.
  - lia.
Qed.

Lemma passes_safe (todo : nat) (sec : section) (i : Z) (w : walk) :
  well_formed sec ->
  match passes todo sec i w with
  | Finished _ => True
  | Stopped e _ => e <> ErrOutOfBounds
  | NoRoundsLeft => False
  end.
Proof.
  intros Hwf. revert i w. induction todo as [|todo IH]; intros i w; cbn [passes].
  - exact I.
  - pose proof (pass_safe sec i w Hwf) as Hp.
    destruct (pass sec i w) as [w'|e w'|]; [apply IH | exact Hp | exact Hp].
Qed.

Lemma readHead_error (file : list Z) (offs : Z) (e : error) :
  readHead file offs = Err e -> e <> ErrOutOfBounds.
Proof.
  unfold readHead. destruct (offs <? 0).
  { intros H. injection H as <-. discriminate. }
  unfold readDword, readByte.
  destruct (nth_error file (Z.to_nat offs)); cbn [bind];
    [|intros H; injection H as <-; discriminate].
  destruct (nth_error file (Z.to_nat (offs + 1))); cbn [bind];
    [|intros H; injection H as <-; discriminate].
  destruct (nth_error file (Z.to_nat (offs + 2))); cbn [bind];
    [|intros H; injection H as <-; discriminate].
  destruct (nth_error file (Z.to_nat (offs + 3))); cbn [bind];
    [discriminate | intros H; injection H as <-; discriminate].
Qed.

Lemma read_header_error (file : list Z) (e : error) :
  read_header file = Err e -> e <> ErrOutOfBounds.
Proof.
  unfold read_header.
  destruct (readHead file 0) as [magic|e0] eqn:H0; cbn [bind].
  2:{ intros H. injection H as <-. exact (readHead_error _ _ _ H0). }
  destruct (negb (magic =? 0x206d6756)).
  { intros H. injection H as <-. discriminate. }
  destruct (readHead file 0x08) as [ver|e0] eqn:H8; cbn [bind].
  2:{ intros H. injection H as <-. exact (readHead_error _ _ _ H8). }
  destruct (readHead file 0x04) as [h04|e0] eqn:H4; cbn [bind].
  2:{ intros H. injection H as <-. exact (readHead_error _ _ _ H4). }
  destruct (readHead file 0x1c) as [h1c|e0] eqn:H1c; cbn [bind].
  2:{ intros H. injection H as <-. exact (readHead_error _ _ _ H1c). }
  destruct (ver >=? 0x150); cbn [bind]; [|discriminate].
  destruct (readHead file 0x34) as [h34|e0] eqn:H34; cbn [bind]; [discriminate|].
  intros H. injection H as <-. exact (readHead_error _ _ _ H34).
Qed.

Lemma load_error (file : list Z) (e : error) :
  load file = Err e -> e <> ErrOutOfBounds.
Proof.
  unfold load.
  destruct (read_header file) as [h|e0] eqn:Hh; cbn [bind].
  2:{ intros H. injection H as <-. exact (read_header_error _ _ Hh). }
  unfold load_section.
  destruct ((loop_abs h <? data_offs h) || (loop_abs h >=? file_len h)).
  { intros H. injection H as <-. discriminate. }
  destruct (file_len h <=? data_offs h).
  { intros H. injection H as <-. discriminate. }
  destruct (wrap32 (file_len h - data_offs h) >? MAX_DATA_SECTION).
  { intros H. injection H as <-. discriminate. }
  destruct (negb _); [|discriminate].
  intros H. injection H as <-. discriminate.
Qed.

(** [main] ends with all passes done or with a diagnostic of the
    source: it never runs out of rounds and never reads outside the
    loaded data section. *)
Theorem main_safe (file : list Z) (rep_count : Z) :
  match main file rep_count with
  | Finished _ => True
  | Stopped e _ => e <> ErrOutOfBounds
  | NoRoundsLeft => False
  end.
Proof.
  unfold main. destruct (load file) as [sec|e] eqn:Hload.
  - apply passes_safe. exact (load_well_formed _ _ Hload).
  - exact (load_error _ _ Hload).
Qed.

End Vgm2OplFacts.

(** *** The line reader *)

Module ReaderFacts.
Import RetroOpl RetroOplFacts.

Lemma printable_cases (c : Z) :
  printable c = true ->
  (c =? 13) = false /\ (c =? 10) = false
  /\ (negb (c =? 9) && ((c <? 32) || (c >? 126))) = false.
Proof. unfold printable. intros H. lia. Qed.

(** Printable characters are stored one after the other. *)
Lemma read_line_through (n c : Z) (line term buf : list Z) :
  Forall (fun c => printable c = true) (c :: line) ->
  Z.of_nat (List.length buf) + Z.of_nat (List.length (c :: line)) <= LINE_MAXIMUM ->
  read_line n c (line ++ term) buf
  = match term with
    | [] => Ok (buf ++ c :: line, [])
    | c' :: term' => read_line n c' term' (buf ++ c :: line)
    end.
Proof.
  revert c buf. induction line as [|c1 line IH]; intros c buf Hp Hlen.
  - destruct (printable_cases c (Forall_inv Hp)) as (H13 & H10 & Hbad).
    cbn [List.length] in Hlen. unfold LINE_MAXIMUM in Hlen.
    assert (Hroom : (Z.of_nat (List.length buf) >=? LINE_MAXIMUM) = false)
      by (unfold LINE_MAXIMUM; lia).
    cbn [app]. destruct term as [|c' term']; cbn [read_line];
      rewrite H13, H10, Hbad, Hroom; reflexivity.
  - destruct (printable_cases c (Forall_inv Hp)) as (H13 & H10 & Hbad).
    cbn [List.length] in Hlen. unfold LINE_MAXIMUM in Hlen.
    assert (Hroom : (Z.of_nat (List.length buf) >=? LINE_MAXIMUM) = false)
      by (unfold LINE_MAXIMUM; lia).
    cbn [app read_line]. rewrite H13, H10, Hbad, Hroom.
    rewrite IH.
    + rewrite <- app_assoc. reflexivity.
    + exact (Forall_inv_tail Hp).
    + rewrite length_app. cbn [List.length]. unfold LINE_MAXIMUM. lia.
Qed.

Lemma read_line_at_CRLF (n : Z) (rest buf : list Z) :
  read_line n 13 (10 :: rest) buf = Ok (buf, rest).
Proof. reflexivity. Qed.

(** The line stored for a text followed by [term], when [term] ends
    the line. *)
Lemma read_text (n : Z) (line term rest : list Z) :
  Forall (fun c => printable c = true) line ->
  Z.of_nat (List.length line) <= LINE_MAXIMUM ->
  term = 10 :: rest \/ term = 13 :: 10 :: rest ->
  match line ++ term with
  | c :: more => read_line n c more [] = Ok (line, rest)
  | [] => False
  end.
Proof.
  intros Hp Hlen Hterm. destruct line as [|c line].
  - destruct Hterm as [-> | ->]; cbn [app]; [apply read_line_at_LF | reflexivity].
  - cbn [app]. rewrite read_line_through by (cbn [List.length] in *; lia || assumption).
    destruct Hterm as [-> | ->]; [apply read_line_at_LF | reflexivity].
Qed.

(** A line that ends with a line feed, read in any state. *)
Lemma readInput_line (st : state) (line rest : list Z) :
  Forall (fun c => printable c = true) line ->
  Z.of_nat (List.length line) <= LINE_MAXIMUM ->
  line_count st < INT32_MAX ->
  readInput (set_input st (line ++ 10 :: rest))
  = (Ok true, set_input (set_line st (line_count st + 1) line) rest).
Proof.
  intros Hp Hlen Hcount.
  pose proof (read_text (line_count st + 1) line (10 :: rest) rest Hp Hlen
                (or_introl eq_refl)) as Hread.
  unfold readInput, bind, get. cbn [input set_input line_count].
  destruct (line ++ 10 :: rest) as [|c more]; [contradiction|].
  destruct (Z.ltb_spec (line_count st) INT32_MAX); [|lia].
  rewrite Hread. reflexivity.
Qed.

(** X1. A line of at most 1023 printable characters is read the same
    whether it ends with a line feed, with a carriage return and a
    line feed, or (when it is not empty) with the end of input: the
    line is stored without its terminator, the line count goes up by
    one, and the input left is what follows the terminator. *)
Theorem line_terminators (st : state) (line rest : list Z) :
  Forall (fun c => printable c = true) line ->
  Z.of_nat (List.length line) <= LINE_MAXIMUM ->
  line_count st < INT32_MAX ->
  readInput (set_input st (line ++ 10 :: rest))
  = (Ok true, set_input (set_line st (line_count st + 1) line) rest)
  /\ readInput (set_input st (line ++ 13 :: 10 :: rest))
     = (Ok true, set_input (set_line st (line_count st + 1) line) rest)
  /\ (line <> [] ->
      readInput (set_input st line)
      = (Ok true, set_input (set_line st (line_count st + 1) line) [])).
Proof.
  intros Hp Hlen Hcount.
  assert (Hterm : forall term, term = 10 :: rest \/ term = 13 :: 10 :: rest ->
            readInput (set_input st (line ++ term))
            = (Ok true, set_input (set_line st (line_count st + 1) line) rest)).
  { intros term Hterm.
    pose proof (read_text (line_count st + 1) line term rest Hp Hlen Hterm) as Hread.
    unfold readInput, bind, get. cbn [input set_input line_count].
    destruct (line ++ term) as [|c more]; [contradiction|].
    destruct (Z.ltb_spec (line_count st) INT32_MAX); [|lia].
    rewrite Hread. reflexivity. }
  split; [apply Hterm; auto|]. split; [apply Hterm; auto|].
  intros Hne. destruct line as [|c line]; [congruence|].
  unfold readInput, bind, get. cbn [input set_input line_count].
  destruct (Z.ltb_spec (line_count st) INT32_MAX); [|lia].
  pose proof (read_line_through (line_count st + 1) c line [] [] Hp
                ltac:(cbn [List.length] in *; lia)) as Hread.
  rewrite app_nil_r in Hread. rewrite Hread. reflexivity.
Qed.

Lemma line_terminators_witness :
  readInput (set_input (initial []) (bytes_of "w 5" ++ 10 :: bytes_of "r"))
  = (Ok true, set_input (set_line (initial []) (0 + 1) (bytes_of "w 5")) (bytes_of "r"))
  /\ readInput (set_input (initial []) (bytes_of "w 5" ++ 13 :: 10 :: bytes_of "r"))
     = (Ok true, set_input (set_line (initial []) (0 + 1) (bytes_of "w 5")) (bytes_of "r"))
  /\ (bytes_of "w 5" <> [] ->
      readInput (set_input (initial []) (bytes_of "w 5"))
      = (Ok true, set_input (set_line (initial []) (0 + 1) (bytes_of "w 5")) [])).
Proof.
  refine (line_terminators (initial []) (bytes_of "w 5") (bytes_of "r") _ _ _).
  - repeat constructor.
  - vm_compute. discriminate.
  - reflexivity.
Defined.



(** X3. A character that is neither printable US-ASCII nor a tab, a
    line feed or a carriage return makes the reader stop with the
    invalid-character diagnostic; a carriage return that is not
    followed by a line feed (another character, or the end of input)
    makes it stop with the diagnostic for a lone carriage return. *)
Theorem line_rejects_control_characters (st : state) (line rest : list Z) (c : Z) :
  Forall (fun c => printable c = true) line ->
  Z.of_nat (List.length line) <= LINE_MAXIMUM ->
  line_count st < INT32_MAX ->
  (printable c = false -> c <> 10 -> c <> 13 ->
   fst (readInput (set_input st (line ++ c :: rest)))
   = Err (ErrInvalidChar (line_count st + 1)))
  /\ (c <> 10 ->
      fst (readInput (set_input st (line ++ 13 :: c :: rest)))
      = Err (ErrCRWithoutLF (line_count st + 1)))
  /\ fst (readInput (set_input st (line ++ [13])))
     = Err (ErrCRWithoutLF (line_count st + 1)).
Proof.
  intros Hp Hlen Hcount.
  assert (Hgo : forall term e,
            (forall buf, match term with
                         | c' :: term' =>
                             read_line (line_count st + 1) c' term' buf = Err e
                         | [] => False
                         end) ->
            fst (readInput (set_input st (line ++ term))) = Err e).
  { intros term e Hterm.
    unfold readInput, bind, get, modify, raise. cbn [input set_input line_count].
    destruct line as [|c0 line].
    - cbn [app]. destruct term as [|c' term']; [destruct (Hterm [])|].
      destruct (Z.ltb_spec (line_count st) INT32_MAX); [|lia].
      rewrite Hterm. reflexivity.
    - cbn [app].
      destruct (Z.ltb_spec (line_count st) INT32_MAX); [|lia].
      rewrite read_line_through by (cbn [List.length] in *; lia || assumption).
      destruct term as [|c' term']; [destruct (Hterm [])|].
      rewrite Hterm. reflexivity. }
  split; [|split].
  - intros Hc H10 H13. apply Hgo. intros buf.
    unfold printable in Hc.
    assert (E13 : (c =? 13) = false) by lia.
    assert (E10 : (c =? 10) = false) by lia.
    assert (Ebad : (negb (c =? 9) && ((c <? 32) || (c >? 126))) = true) by lia.
    destruct rest; cbn [read_line]; rewrite E13, E10, Ebad; reflexivity.
  - intros H10. apply Hgo. intros buf.
    assert (E10 : (c =? 10) = false) by lia.
    cbn [read_line Z.eqb Pos.eqb]. rewrite E10. reflexivity.
  - apply Hgo. intros buf. reflexivity.
Qed.

Lemma line_rejects_control_characters_witness :
  (printable 7 = false -> 7 <> 10 -> 7 <> 13 ->
   fst (readInput (set_input (initial []) (bytes_of "w 5" ++ 7 :: [10])))
   = Err (ErrInvalidChar (0 + 1)))
  /\ (7 <> 10 ->
      fst (readInput (set_input (initial []) (bytes_of "w 5" ++ 13 :: 7 :: [10])))
      = Err (ErrCRWithoutLF (0 + 1)))
  /\ fst (readInput (set_input (initial []) (bytes_of "w 5" ++ [13])))
     = Err (ErrCRWithoutLF (0 + 1)).
Proof.
  refine (line_rejects_control_characters (initial []) (bytes_of "w 5") [10] 7 _ _ _).
  - repeat constructor.
  - vm_compute. discriminate.
  - reflexivity.
Defined.

End ReaderFacts.

(** *** The token parsers and the text of the converter *)

Module ParserFacts.
Import RetroOpl RetroOplFacts.
Import Vgm2Opl (hex_digit, print_02x, dec_loop, print_ld).

Lemma hex_digit_is_hex (d : Z) :
  0 <= d < 16 ->
  is_hex (hex_digit d) = true /\ is_blank (hex_digit d) = false
  /\ is_hex (upper (hex_digit d)) = true /\ is_blank (upper (hex_digit d)) = false.
Proof.
  intros Hd. unfold hex_digit, upper, is_hex, is_blank.
  destruct (Z.ltb_spec d 10).
  - destruct (Z.leb_spec 97 (48 + d)); cbn [andb]; lia.
  - destruct (Z.leb_spec 97 (87 + d)); [|lia].
    destruct (Z.leb_spec (87 + d) 122); [|lia]. cbn [andb]. lia.
Qed.

(** One round of the digit loop on a digit printed by the converter,
    in either case. *)
Lemma hex_step_digit (line r d : Z) (rest : list Z) :
  0 <= d < 16 -> 0 <= r < 16 ->
  hex_step line r (hex_digit d :: rest) = Ok (r * 16 + d, rest)
  /\ hex_step line r (upper (hex_digit d) :: rest) = Ok (r * 16 + d, rest).
Proof.
  intros Hd Hr. unfold hex_step, hex_digit, upper. cbn [peek hd tl].
  rewrite Z.shiftl_mul_pow2 by lia. change (2 ^ 4) with 16.
  destruct (Z.ltb_spec d 10) as [Hlow | Hhigh].
  - destruct (Z.leb_spec 97 (48 + d)); [lia|]. cbn [andb].
    destruct (Z.leb_spec 48 (48 + d)); [|lia].
    destruct (Z.leb_spec (48 + d) 57); [|lia]. cbn [andb].
    rewrite Z.mod_small by lia. split; do 2 f_equal; lia.
  - destruct (Z.leb_spec 97 (87 + d)); [|lia].
    destruct (Z.leb_spec (87 + d) 122); [|lia]. cbn [andb].
    split.
    + destruct (Z.leb_spec 48 (87 + d)); [|lia].
      destruct (Z.leb_spec (87 + d) 57); [lia|]. cbn [andb].
      destruct (Z.leb_spec 65 (87 + d)); [|lia].
      destruct (Z.leb_spec (87 + d) 70); [lia|]. cbn [andb].
      destruct (Z.leb_spec (87 + d) 102); [|lia].
      rewrite Z.mod_small by lia. do 2 f_equal. lia.
    + destruct (Z.leb_spec 48 (87 + d - 32)); [|lia].
      destruct (Z.leb_spec (87 + d - 32) 57); [lia|]. cbn [andb].
      destruct (Z.leb_spec 65 (87 + d - 32)); [|lia].
      destruct (Z.leb_spec (87 + d - 32) 70); [|lia]. cbn [andb].
      rewrite Z.mod_small by lia. do 2 f_equal. lia.
Qed.

(** What the byte parser makes of the two digits the converter
    prints. *)
Lemma parseByte_print_02x (line b : Z) (ws tail : list Z) :
  0 <= b <= 255 ->
  Forall (fun c => is_blank c = true) ws ->
  is_hex (peek tail) = false ->
  parseByte line (ws ++ print_02x b ++ tail) = Ok (b, tail).
Proof.
  intros Hb Hws Htail.
  assert (Hhi : 0 <= b / 16 < 16).
  { split; [apply Z.div_pos; lia | apply Z.div_lt_upper_bound; lia]. }
  assert (Hlo : 0 <= b mod 16 < 16) by (apply Z.mod_pos_bound; lia).
  pose proof (Z.div_mod b 16 ltac:(lia)) as Hsum.
  destruct (hex_digit_is_hex (b / 16) Hhi) as (_ & Hblank & _).
  destruct (hex_step_digit line 0 (b / 16) (hex_digit (b mod 16) :: tail) Hhi ltac:(lia))
    as [Hs1 _].
  destruct (hex_step_digit line (b / 16) (b mod 16) tail Hlo Hhi) as [Hs2 _].
  unfold parseByte. rewrite skip_blanks_app by (assumption || exact Hblank).
  unfold print_02x. cbn [app]. rewrite Hs1.
  replace (0 * 16 + b / 16) with (b / 16) by lia. rewrite Hs2, Htail.
  do 2 f_equal. lia.
Qed.

(** X4. The byte parser reads back what the converter prints with
    ["%02x"]: after any blanks, the two hexadecimal digits of a byte
    [b], in lowercase or in uppercase, followed by something that is
    not a hexadecimal digit, give [b] and leave the cursor right after
    the second digit; a third hexadecimal digit makes the parser stop
    with its diagnostic. *)
Theorem parseByte_reads_print_02x (line b : Z) (ws tail : list Z) :
  0 <= b <= 255 ->
  Forall (fun c => is_blank c = true) ws ->
  (is_hex (peek tail) = false ->
   parseByte line (ws ++ print_02x b ++ tail) = Ok (b, tail)
   /\ parseByte line (ws ++ map upper (print_02x b) ++ tail) = Ok (b, tail))
  /\ (is_hex (peek tail) = true ->
      parseByte line (ws ++ print_02x b ++ tail) = Err (ErrByteParse line)).
Proof.
  intros Hb Hws.
  assert (Hhi : 0 <= b / 16 < 16).
  { split; [apply Z.div_pos; lia | apply Z.div_lt_upper_bound; lia]. }
  assert (Hlo : 0 <= b mod 16 < 16) by (apply Z.mod_pos_bound; lia).
  assert (Hval : 0 * 16 + b / 16 = b / 16) by lia.
  assert (Hsum : b / 16 * 16 + b mod 16 = b).
  { pose proof (Z.div_mod b 16 ltac:(lia)). lia. }
  destruct (hex_digit_is_hex (b / 16) Hhi) as (_ & Hblank & _ & Hblank').
  destruct (hex_step_digit line 0 (b / 16) (hex_digit (b mod 16) :: tail) Hhi ltac:(lia))
    as [Hs1 _].
  destruct (hex_step_digit line 0 (b / 16) (upper (hex_digit (b mod 16)) :: tail)
              Hhi ltac:(lia)) as [_ Hs1'].
  destruct (hex_step_digit line (b / 16) (b mod 16) tail Hlo Hhi) as [Hs2 Hs2'].
  rewrite Hval in Hs1, Hs1'. rewrite Hsum in Hs2, Hs2'.
  split.
  - intros Htail. split.
    + unfold parseByte. rewrite skip_blanks_app by (assumption || exact Hblank).
      unfold print_02x. cbn [app]. rewrite Hs1, Hs2, Htail. reflexivity.
    + unfold parseByte. rewrite skip_blanks_app by (assumption || exact Hblank').
      unfold print_02x. cbn [app map]. rewrite Hs1', Hs2', Htail. reflexivity.
  - intros Htail. unfold parseByte.
    rewrite skip_blanks_app by (assumption || exact Hblank).
    unfold print_02x. cbn [app]. rewrite Hs1, Hs2, Htail. reflexivity.
Qed.

Lemma parseByte_reads_print_02x_witness :
  (is_hex (peek [32]) = false ->
   parseByte 1 ([32] ++ print_02x 0xa2 ++ [32]) = Ok (0xa2, [32])
   /\ parseByte 1 ([32] ++ map upper (print_02x 0xa2) ++ [32]) = Ok (0xa2, [32]))
  /\ (is_hex (peek [32]) = true ->
      parseByte 1 ([32] ++ print_02x 0xa2 ++ [32]) = Err (ErrByteParse 1)).
Proof.
  refine (parseByte_reads_print_02x 1 0xa2 [32] [32] _ _).
  - lia.
  - repeat constructor.
Defined.

Lemma dec_loop_S (digits : nat) (n : Z) (acc : list Z) :
  dec_loop (S digits) n acc
  = if n / 10 =? 0 then (48 + n mod 10) :: acc
    else dec_loop digits (n / 10) ((48 + n mod 10) :: acc).
Proof. reflexivity. Qed.

(** The digits of [n], before [acc]. *)
Lemma dec_loop_spec (digits : nat) (n : Z) (acc : list Z) :
  0 <= n < 10 ^ Z.of_nat (S digits) ->
  Forall (fun c => is_dec c = true) acc ->
  Forall (fun c => is_dec c = true) (dec_loop (S digits) n acc)
  /\ dec_loop (S digits) n acc <> []
  /\ digits_value (dec_loop (S digits) n acc) 0 = digits_value acc n
  /\ (List.length (dec_loop (S digits) n acc) <= S digits + List.length acc)%nat.
Proof.
  revert n acc. induction digits as [|digits IH]; intros n acc Hn Hacc;
    rewrite (dec_loop_S _ n acc);
    pose proof (Z.mod_pos_bound n 10 ltac:(lia)) as Hm;
    pose proof (Z.div_mod n 10 ltac:(lia)) as Hdm;
    assert (Hd : is_dec (48 + n mod 10) = true) by (unfold is_dec; lia);
    assert (Hacc' : Forall (fun c => is_dec c = true) ((48 + n mod 10) :: acc))
      by (constructor; assumption);
    destruct (Z.eqb_spec (n / 10) 0) as [Hz | Hnz].
  - split; [exact Hacc'|]. split; [discriminate|]. split.
    + unfold digits_value. cbn [fold_left]. f_equal. lia.
    + cbn [List.length]. lia.
  - change (10 ^ Z.of_nat 1) with 10 in Hn.
    assert (n / 10 = 0) by (apply Z.div_small; lia). contradiction.
  - split; [exact Hacc'|]. split; [discriminate|]. split.
    + unfold digits_value. cbn [fold_left]. f_equal. lia.
    + cbn [List.length]. lia.
  - assert (Hq : 0 <= n / 10 < 10 ^ Z.of_nat (S digits)).
    { split; [apply Z.div_pos; lia|]. apply Z.div_lt_upper_bound; [lia|].
      rewrite (Nat2Z.inj_succ (S digits)), Z.pow_succ_r in Hn by lia. lia. }
    destruct (IH (n / 10) _ Hq Hacc') as (H1 & H2 & H3 & H4).
    split; [exact H1|]. split; [exact H2|]. split.
    + rewrite H3. unfold digits_value. cbn [fold_left]. f_equal. lia.
    + cbn [List.length] in H4. cbn [List.length]. lia.
Qed.

Lemma print_ld_spec (n : Z) :
  0 <= n ->
  Forall (fun c => is_dec c = true) (print_ld n)
  /\ print_ld n <> []
  /\ digits_value (print_ld n) 0 = n
  /\ (List.length (print_ld n) <= S (Z.to_nat (Z.log2 n)))%nat.
Proof.
  intros Hn. unfold print_ld. destruct (Z.ltb_spec n 0); [lia|].
  assert (Hfuel : 0 <= n < 10 ^ Z.of_nat (S (Z.to_nat (Z.log2 n)))).
  { split; [exact Hn|]. rewrite Nat2Z.inj_succ, Z2Nat.id by apply Z.log2_nonneg.
    destruct (Z.eq_dec n 0) as [-> | Hpos].
    - cbn. lia.
    - pose proof (Z.log2_spec n ltac:(lia)) as [_ Hlt].
      apply Z.lt_le_trans with (1 := Hlt).
      apply Z.pow_le_mono_l. pose proof (Z.log2_nonneg n). lia. }
  destruct (dec_loop_spec (Z.to_nat (Z.log2 n)) n [] Hfuel (Forall_nil _))
    as (H1 & H2 & H3 & H4).
  split; [exact H1|]. split; [exact H2|]. split; [exact H3|].
  cbn [List.length] in H4. lia.
Qed.

(** What the integer parser makes of printed digits. *)
Lemma parseInt_print_ld (line n : Z) (ws tail : list Z) :
  0 <= n ->
  Forall (fun c => is_blank c = true) ws ->
  is_dec (peek tail) = false ->
  parseInt line (ws ++ print_ld n ++ tail)
  = if n <=? INT32_MAX then Ok (n, tail) else Err (ErrIntOverflow line).
Proof.
  intros Hn Hws Htail.
  destruct (print_ld_spec n Hn) as (Hdec & Hne & Hval & _).
  rewrite parseInt_spec by assumption. rewrite Hval. reflexivity.
Qed.

Lemma digits_value_zeros (z : nat) (ds : list Z) :
  digits_value (repeat 48 z ++ ds) 0 = digits_value ds 0.
Proof.
  induction z as [|z IH]; [reflexivity|].
  cbn [repeat app]. unfold digits_value in *. cbn [fold_left]. exact IH.
Qed.

(** X5. The integer parser reads back what the converter prints with
    ["%ld"]: after any blanks and any number of leading zeros, the
    decimal digits of [n >= 0] followed by something that is not a
    digit give [n] and leave the cursor right after the last digit
    when [n] fits 32 bits, and the overflow diagnostic when it does
    not. *)
Theorem parseInt_reads_print_ld (line n : Z) (ws tail : list Z) (zeros : nat) :
  0 <= n ->
  Forall (fun c => is_blank c = true) ws ->
  is_dec (peek tail) = false ->
  parseInt line (ws ++ (repeat 48 zeros ++ print_ld n) ++ tail)
  = if n <=? INT32_MAX then Ok (n, tail) else Err (ErrIntOverflow line).
Proof.
  intros Hn Hws Htail.
  destruct (print_ld_spec n Hn) as (Hdec & Hne & Hval & _).
  rewrite parseInt_spec; try assumption.
  - rewrite digits_value_zeros, Hval. reflexivity.
  - apply Forall_app. split; [|exact Hdec].
    apply Forall_forall. intros c Hc. apply repeat_spec in Hc. subst c. reflexivity.
  - intros Happ. apply app_eq_nil in Happ. destruct Happ as [_ Happ]. contradiction.
Qed.

Lemma parseInt_reads_print_ld_witness :
  parseInt 1 ([32] ++ (repeat 48 2 ++ print_ld 2147483648) ++ [])
  = if 2147483648 <=? INT32_MAX then Ok (2147483648, [])
    else Err (ErrIntOverflow 1).
Proof.
  refine (parseInt_reads_print_ld 1 2147483648 [32] [] 2 _ _ eq_refl).
  - lia.
  - repeat constructor.
Defined.

End ParserFacts.

(** *** The commands of the script *)

Module CommandFacts.
Import RetroOpl RetroOplFacts ReaderFacts ParserFacts.
Import Vgm2Opl (command, CmdHeader, CmdR, CmdW, hex_digit, print_02x, print_ld,
                text, render, body_command).

(** X6. A line that is not blank and does not begin with an
    apostrophe is refused with the invalid-command diagnostic, the
    state left as it was, when its first character is not [r] or [w]
    (so for a line that begins with a space or a tab, or with an
    uppercase [R] or [W]), and also when its first character is [r] or
    [w] but the second one is not a space or a tab. *)
Theorem invalid_command_rejected (sample_rate rate : Z) (st : state) :
  isBlankStr (l_buf st) = false ->
  nth 0 (l_buf st) 0 <> 39 ->
  (nth 0 (l_buf st) 0 <> 114 /\ nth 0 (l_buf st) 0 <> 119)
  \/ is_blank (nth 1 (l_buf st) 0) = false ->
  process_line sample_rate rate st = (Err (ErrInvalidCommand (line_count st)), st).
Proof.
  intros Hblank Hquote Hcase.
  unfold process_line, bind at 1, get. rewrite Hblank.
  destruct (Z.eqb_spec (nth 0 (l_buf st) 0) 39) as [|_]; [contradiction|].
  cbn [orb].
  destruct (negb (nth 1 (l_buf st) 0 =? 32) && negb (nth 1 (l_buf st) 0 =? 9)) eqn:Hsecond;
    [reflexivity|].
  destruct Hcase as [[Hr Hw] | Hnb].
  - destruct (Z.eqb_spec (nth 0 (l_buf st) 0) 114) as [|_]; [contradiction|].
    destruct (Z.eqb_spec (nth 0 (l_buf st) 0) 119) as [|_]; [contradiction|].
    reflexivity.
  - unfold is_blank in Hnb. lia.
Qed.

Lemma invalid_command_rejected_witness :
  process_line 44100 60 (mkState [] 2 (bytes_of " r 20 01") 0 0 0 0 [])
  = (Err (ErrInvalidCommand 2), mkState [] 2 (bytes_of " r 20 01") 0 0 0 0 []).
Proof.
  refine (invalid_command_rejected 44100 60
            (mkState [] 2 (bytes_of " r 20 01") 0 0 0 0 []) eq_refl _ _).
  - discriminate.
  - left. split; discriminate.
Defined.

Lemma hex_digit_printable (d : Z) : 0 <= d < 16 -> printable (hex_digit d) = true.
Proof. intros H. unfold hex_digit, printable. destruct (d <? 10); lia. Qed.

Lemma print_02x_printable (b : Z) :
  0 <= b <= 255 -> Forall (fun c => printable c = true) (print_02x b).
Proof.
  intros Hb. unfold print_02x.
  repeat constructor; apply hex_digit_printable.
  - split; [apply Z.div_pos; lia | apply Z.div_lt_upper_bound; lia].
  - apply Z.mod_pos_bound. lia.
Qed.

(** The lines of the converter fit the line reader. *)
Lemma text_fits (c : command) :
  body_command c = true \/ c = CmdHeader ->
  Forall (fun c => printable c = true) (text c)
  /\ Z.of_nat (List.length (text c)) <= LINE_MAXIMUM.
Proof.
  intros Hc. destruct c as [|reg val|ticks].
  - split; [repeat constructor | vm_compute; discriminate].
  - destruct Hc as [Hc | Hc]; [|discriminate]. cbn [body_command] in Hc.
    split.
    + cbn [text]. apply Forall_app; split; [repeat constructor|].
      apply Forall_app; split; [apply print_02x_printable; lia|].
      apply Forall_app; split; [repeat constructor | apply print_02x_printable; lia].
    + unfold LINE_MAXIMUM. cbn. lia.
  - destruct Hc as [Hc | Hc]; [|discriminate]. cbn [body_command] in Hc.
    destruct (print_ld_spec ticks ltac:(lia)) as (Hdec & _ & _ & Hlen).
    assert (Hlog : Z.log2 ticks < 31).
    { apply Z.log2_lt_pow2; unfold INT32_MAX in *; lia. }
    pose proof (Z.log2_nonneg ticks).
    split.
    + cbn [text]. apply Forall_app; split; [repeat constructor|].
      apply dec_printable. exact Hdec.
    + cbn [text]. rewrite length_app. unfold LINE_MAXIMUM.
      change (List.length (bytes_of "w ")) with 2%nat. lia.
Qed.

(** The register line of the converter, once in the line buffer. *)
Lemma process_register_line (sample_rate rate reg val : Z) (st : state) :
  0 <= reg <= 255 -> 0 <= val <= 255 ->
  l_buf st = text (CmdR reg val) ->
  process_line sample_rate rate st = (Ok (Some tt), emit st (OplWrite reg val)).
Proof.
  intros Hreg Hval Hbuf.
  unfold process_line, bind at 1, get. rewrite Hbuf.
  change (text (CmdR reg val))
    with (114 :: 32 :: print_02x reg ++ [32] ++ print_02x val).
  cbn [nth skipn].
  change (isBlankStr (114 :: 32 :: print_02x reg ++ [32] ++ print_02x val)) with false.
  change (114 =? 39) with false. change (32 =? 32) with true.
  change (114 =? 114) with true. cbn [orb andb negb].
  unfold bind at 1, lift.
  pose proof (parseByte_print_02x (line_count st) reg [32] ([32] ++ print_02x val)
                Hreg ltac:(repeat constructor) eq_refl) as Hfirst.
  pose proof (parseByte_print_02x (line_count st) val [32] [] Hval
                ltac:(repeat constructor) eq_refl) as Hsecond.
  rewrite app_nil_r in Hsecond. cbn [app] in Hfirst, Hsecond |- *.
  rewrite Hfirst. cbv iota beta. unfold bind at 1.
  rewrite Hsecond. reflexivity.
Qed.

(** The wait line of the converter, once in the line buffer. *)
Lemma process_wait_line (sample_rate rate ticks : Z) (st : state) :
  0 <= ticks <= INT32_MAX ->
  l_buf st = text (CmdW ticks) ->
  process_line sample_rate rate st = wait_command sample_rate rate ticks st.
Proof.
  intros Hticks Hbuf.
  unfold process_line, bind at 1, get. rewrite Hbuf.
  change (text (CmdW ticks)) with (119 :: 32 :: print_ld ticks).
  cbn [nth skipn].
  change (isBlankStr (119 :: 32 :: print_ld ticks)) with false.
  change (119 =? 39) with false. change (32 =? 32) with true.
  change (119 =? 114) with false. change (119 =? 119) with true.
  cbn [orb andb negb].
  unfold bind at 1, lift.
  pose proof (parseInt_print_ld (line_count st) ticks [32] [] ltac:(lia)
                ltac:(repeat constructor) eq_refl) as Hparse.
  rewrite app_nil_r in Hparse. cbn [app] in Hparse. rewrite Hparse.
  destruct (Z.leb_spec ticks INT32_MAX); [|lia]. reflexivity.
Qed.

(** The header line of the converter. *)
Lemma readHeader_980 (st : state) (rest : list Z) :
  line_count st < INT32_MAX ->
  readHeader (set_input st (render CmdHeader ++ rest))
  = (Ok 980, set_input (set_line st (line_count st + 1) (text CmdHeader)) rest).
Proof.
  intros Hcount.
  destruct (text_fits CmdHeader (or_intror eq_refl)) as [Hp Hlen].
  pose proof (readInput_line st (text CmdHeader) rest Hp Hlen Hcount) as Hread.
  unfold render. rewrite <- app_assoc. cbn [app] in Hread |- *.
  rewrite (readHeader_tagged _ _ [32] (bytes_of "980") [] Hread eq_refl);
    [reflexivity | repeat constructor | repeat constructor | discriminate | reflexivity].
Qed.

(** X7. The interpreter reads back the lines the converter prints.
    The header line ["OPL2 980"] is accepted with control rate 980; a
    register line printed for two bytes is read as one line and makes
    exactly the register write of those two bytes; a wait line printed
    for a count that fits 32 bits is read as one line and is the wait
    of that count. *)
Theorem printed_lines_are_read_back (sample_rate rate : Z) (st : state) (rest : list Z) :
  line_count st < INT32_MAX ->
  let read c := set_input (set_line st (line_count st + 1) (text c)) rest in
  readHeader (set_input st (render CmdHeader ++ rest)) = (Ok 980, read CmdHeader)
  /\ (forall reg val, 0 <= reg <= 255 -> 0 <= val <= 255 ->
        readInput (set_input st (render (CmdR reg val) ++ rest))
        = (Ok true, read (CmdR reg val))
        /\ process_line sample_rate rate (read (CmdR reg val))
           = (Ok (Some tt), emit (read (CmdR reg val)) (OplWrite reg val)))
  /\ (forall ticks, 0 <= ticks <= INT32_MAX ->
        readInput (set_input st (render (CmdW ticks) ++ rest))
        = (Ok true, read (CmdW ticks))
        /\ process_line sample_rate rate (read (CmdW ticks))
           = wait_command sample_rate rate ticks (read (CmdW ticks))).
Proof.
  intros Hcount read.
  split; [apply readHeader_980; exact Hcount|]. split.
  - intros reg val Hreg Hval.
    destruct (text_fits (CmdR reg val)) as [Hp Hlen].
    { left. cbn [body_command]. lia. }
    split.
    + unfold render. rewrite <- app_assoc. apply readInput_line; assumption.
    + apply process_register_line; [assumption | assumption | reflexivity].
  - intros ticks Hticks.
    assert (Hread : forall line, Forall (fun c => printable c = true) line ->
              Z.of_nat (List.length line) <= LINE_MAXIMUM ->
              readInput (set_input st ((line ++ [10]) ++ rest))
              = (Ok true, set_input (set_line st (line_count st + 1) line) rest)).
    { intros line Hp Hlen. rewrite <- app_assoc. apply readInput_line; assumption. }
    split.
    + destruct (Z.eq_dec ticks 0) as [-> | Hpos].
      * apply Hread; [repeat constructor | vm_compute; discriminate].
      * destruct (text_fits (CmdW ticks)) as [Hp Hlen].
        { left. cbn [body_command]. lia. }
        apply Hread; assumption.
    + apply process_wait_line; [assumption | reflexivity].
Qed.

Lemma printed_lines_are_read_back_witness :
  readHeader (set_input (initial []) (render CmdHeader ++ [])) = (Ok 980,
    set_input (set_line (initial []) (0 + 1) (text CmdHeader)) [])
  /\ process_line 44100 980
       (set_input (set_line (initial []) (0 + 1) (text (CmdR 32 1))) [])
     = (Ok (Some tt),
        emit (set_input (set_line (initial []) (0 + 1) (text (CmdR 32 1))) [])
          (OplWrite 32 1))
  /\ process_line 44100 980
       (set_input (set_line (initial []) (0 + 1) (text (CmdW 16))) [])
     = wait_command 44100 980 16
         (set_input (set_line (initial []) (0 + 1) (text (CmdW 16))) []).
Proof.
  pose proof (printed_lines_are_read_back 44100 980 (initial []) [] eq_refl)
    as (Hhead & Hreg & Hwait).
  split; [exact Hhead|]. split.
  - refine (proj2 (Hreg 32 1 _ _)); lia.
  - refine (proj2 (Hwait 16 _)). unfold INT32_MAX. lia.
Defined.

End CommandFacts.

(** *** The sample buffer *)

Module BufferFacts.
Import RetroOpl RetroOplFacts.

Lemma generated_app (a b : list event) :
  generated (a ++ b) = generated a + generated b.
Proof.
  unfold generated. induction a as [|e a IH]; cbn [app fold_right]; [lia|].
  destruct e; lia.
Qed.

Lemma written_app (a b : list event) :
  written (a ++ b) = written a + written b.
Proof.
  unfold written. induction a as [|e a IH]; cbn [app fold_right]; [lia|].
  destruct e; lia.
Qed.

Lemma register_writes_app (a b : list event) :
  register_writes (a ++ b) = register_writes a ++ register_writes b.
Proof. apply flat_map_app. Qed.

Lemma sample_events_no_writes (evs : list event) :
  forallb sample_event evs = true -> register_writes evs = [].
Proof.
  induction evs as [|e evs IH]; [reflexivity|].
  cbn [forallb]. intros H. apply andb_prop in H. destruct H as [He Hevs].
  destruct e; try discriminate; cbn; apply IH; exact Hevs.
Qed.

(** A flush of a buffer that holds samples. *)
Lemma flushBuffer_run (st : state) :
  0 < s_fill st -> s_total st + s_fill st <= INT32_MAX ->
  flushBuffer st
  = (Ok tt, set_buffer (emit st (WavSamples (s_fill st))) (s_total st + s_fill st) 0).
Proof.
  intros Hfill Hsum. unfold flushBuffer, bind at 1, get.
  destruct (Z.gtb_spec (s_fill st) 0) as [_|Hno]; [|lia].
  unfold bind, modify. cbn [s_total s_fill emit].
  destruct (Z.leb_spec (s_total st) (INT32_MAX - s_fill st)) as [_|Hno]; [|lia].
  reflexivity.
Qed.

Lemma flushBuffer_empty (st : state) :
  s_fill st = 0 -> flushBuffer st = (Ok tt, st).
Proof.
  intros Hfill. unfold flushBuffer, bind at 1, get. rewrite Hfill. reflexivity.
Qed.

(** One round of the loop of [computeSamples], after its flush. *)
Lemma computeSamples_loop_step (rounds : nat) (count : Z) (st st1 : state) :
  0 < count ->
  (if s_fill st >=? BUFFER_SAMPLES then flushBuffer else ret tt) st = (Ok tt, st1) ->
  let work := if count <? BUFFER_SAMPLES - s_fill st1 then count
              else BUFFER_SAMPLES - s_fill st1 in
  computeSamples_loop (S rounds) count st
  = computeSamples_loop rounds (count - work)
      (set_buffer (emit st1 (OplGenerate (s_fill st1) work)) (s_total st1)
         (s_fill st1 + work)).
Proof.
  intros Hcount Hflush work. cbn [computeSamples_loop].
  destruct (Z.gtb_spec count 0) as [_|Hno]; [|lia].
  unfold bind at 1, get at 1. unfold bind at 1. rewrite Hflush.
  unfold bind at 1, get. unfold bind at 1, modify at 1.
  unfold bind at 1, modify. reflexivity.
Qed.

(** The flush at the top of a round leaves room in the buffer. *)
Lemma flush_when_full (st : state) :
  0 <= s_fill st <= BUFFER_SAMPLES -> s_total st + s_fill st <= INT32_MAX ->
  exists st1 evs,
    (if s_fill st >=? BUFFER_SAMPLES then flushBuffer else ret tt) st = (Ok tt, st1)
    /\ trace st1 = trace st ++ evs /\ same_script st st1
    /\ forallb sample_event evs = true /\ forallb call_ok evs = true
    /\ generated evs = 0 /\ written evs = s_total st1 - s_total st
    /\ s_total st1 + s_fill st1 = s_total st + s_fill st
    /\ 0 <= s_fill st1 < BUFFER_SAMPLES /\ s_total st <= s_total st1.
Proof.
  intros Hfill Hsum. unfold BUFFER_SAMPLES in *.
  destruct (Z.geb_spec (s_fill st) 4096) as [Hfull | Hroom].
  - exists (set_buffer (emit st (WavSamples (s_fill st))) (s_total st + s_fill st) 0),
      [WavSamples (s_fill st)].
    split; [apply flushBuffer_run; lia|].
    split; [reflexivity|]. split; [repeat split|].
    split; [reflexivity|].
    split.
    { cbn [forallb call_ok]. unfold BUFFER_SAMPLES.
      destruct (Z.leb_spec 1 (s_fill st)); [|lia].
      destruct (Z.leb_spec (s_fill st) 4096); [reflexivity | lia]. }
    cbn [generated written fold_right set_buffer emit s_total s_fill].
    split; [reflexivity|]. split; [lia|]. split; [lia|]. split; lia.
  - exists st, []. split; [reflexivity|]. rewrite app_nil_r.
    split; [reflexivity|]. split; [apply same_script_refl|].
    split; [reflexivity|]. split; [reflexivity|].
    cbn [generated written fold_right]. split; [reflexivity|].
    split; [lia|]. split; [lia|]. split; lia.
Qed.

(** The loop of [computeSamples] renders exactly [count] samples, in
    pieces that fit the buffer, when the sample count stays within 32
    bits. *)
Lemma computeSamples_loop_run (rounds : nat) (count : Z) (st : state) :
  0 <= count -> (Z.to_nat count <= rounds)%nat ->
  0 <= s_fill st <= BUFFER_SAMPLES -> 0 <= s_total st ->
  s_total st + s_fill st + count <= INT32_MAX ->
  exists st' evs,
    computeSamples_loop rounds count st = (Ok (Some tt), st')
    /\ trace st' = trace st ++ evs /\ same_script st st'
    /\ forallb sample_event evs = true /\ forallb call_ok evs = true
    /\ generated evs = count /\ written evs = s_total st' - s_total st
    /\ s_total st' + s_fill st' = s_total st + s_fill st + count
    /\ 0 <= s_fill st' <= BUFFER_SAMPLES /\ 0 <= s_total st'.
Proof.
  revert count st.
  assert (Hdone : forall rounds (st : state),
            0 <= s_fill st <= BUFFER_SAMPLES -> 0 <= s_total st ->
            exists st' evs,
              computeSamples_loop rounds 0 st = (Ok (Some tt), st')
              /\ trace st' = trace st ++ evs /\ same_script st st'
              /\ forallb sample_event evs = true /\ forallb call_ok evs = true
              /\ generated evs = 0 /\ written evs = s_total st' - s_total st
              /\ s_total st' + s_fill st' = s_total st + s_fill st + 0
              /\ 0 <= s_fill st' <= BUFFER_SAMPLES /\ 0 <= s_total st').
  { intros n st Hfill Htotal. exists st, [].
    split; [destruct n; reflexivity|]. rewrite app_nil_r.
    split; [reflexivity|]. split; [apply same_script_refl|].
    split; [reflexivity|]. split; [reflexivity|].
    cbn [generated written fold_right].
    split; [reflexivity|]. split; [lia|]. split; [lia|]. split; assumption. }
  induction rounds as [|rounds IH]; intros count st Hcount Hrounds Hfill Htotal Hsum.
  - assert (count = 0) as -> by lia. apply Hdone; assumption.
  - destruct (Z.eq_dec count 0) as [-> | Hpos]; [apply Hdone; assumption|].
    destruct (flush_when_full st Hfill ltac:(lia))
      as (st1 & evs1 & Hflush & Htr1 & Hsame1 & Hse1 & Hok1 & Hgen1 & Hwr1 & Hsum1
          & Hfill1 & Htot1).
    rewrite (computeSamples_loop_step rounds count st st1 ltac:(lia) Hflush).
    set (work := if count <? BUFFER_SAMPLES - s_fill st1 then count
                 else BUFFER_SAMPLES - s_fill st1).
    assert (Hwork : 1 <= work <= count /\ s_fill st1 + work <= BUFFER_SAMPLES).
    { unfold work. destruct (Z.ltb_spec count (BUFFER_SAMPLES - s_fill st1)); lia. }
    set (st2 := set_buffer (emit st1 (OplGenerate (s_fill st1) work)) (s_total st1)
                  (s_fill st1 + work)).
    destruct (IH (count - work) st2) as
      (st' & evs2 & Hloop & Htr2 & Hsame2 & Hse2 & Hok2 & Hgen2 & Hwr2 & Hsum2 & Hfill2 & Htot2).
    { lia. }
    { lia. }
    { unfold st2. cbn [s_fill set_buffer]. lia. }
    { unfold st2. cbn [s_total set_buffer]. lia. }
    { unfold st2. cbn [s_total s_fill set_buffer]. lia. }
    exists st', (evs1 ++ OplGenerate (s_fill st1) work :: evs2).
    split; [exact Hloop|].
    split.
    { rewrite Htr2. unfold st2. cbn [trace set_buffer emit]. rewrite Htr1.
      rewrite <- !app_assoc. reflexivity. }
    split.
    { apply (same_script_trans st st1 st'); [exact Hsame1|].
      apply (same_script_trans st1 st2 st'); [repeat split | exact Hsame2]. }
    split.
    { rewrite forallb_app, Hse1. cbn [forallb sample_event andb]. exact Hse2. }
    split.
    { rewrite forallb_app, Hok1. cbn [forallb call_ok].
      destruct (Z.leb_spec 0 (s_fill st1)); [|lia].
      destruct (Z.leb_spec 1 work); [|lia].
      destruct (Z.leb_spec (s_fill st1 + work) BUFFER_SAMPLES); [|lia].
      exact Hok2. }
    unfold st2 in Hwr2, Hsum2. cbn [s_total s_fill set_buffer emit] in Hwr2, Hsum2.
    split.
    { rewrite generated_app, Hgen1.
      change (generated (OplGenerate (s_fill st1) work :: evs2))
        with (work + generated evs2). lia. }
    split.
    { rewrite written_app, Hwr1.
      change (written (OplGenerate (s_fill st1) work :: evs2)) with (written evs2).
      lia. }
    split; [lia|]. split; assumption.
Qed.

(** The buffer invariant after more events. *)
Lemma buffer_inv_extend (st st' : state) (evs : list event) (count : Z) :
  buffer_inv st ->
  trace st' = trace st ++ evs -> forallb call_ok evs = true ->
  generated evs = count -> written evs = s_total st' - s_total st ->
  s_total st' + s_fill st' = s_total st + s_fill st + count ->
  0 <= s_fill st' <= BUFFER_SAMPLES -> 0 <= s_total st' ->
  buffer_inv st'.
Proof.
  intros (Hfill & Htotal & Hwr & Hgen & Hok) Htr Hok' Hgen' Hwr' Hsum Hfill' Htotal'.
  unfold buffer_inv. rewrite Htr, written_app, generated_app, forallb_app, Hok, Hok'.
  split; [exact Hfill'|]. split; [exact Htotal'|].
  split; [lia|]. split; [lia | reflexivity].
Qed.

(** X8. [computeSamples] refuses a count below one with its check and
    touches nothing.  For a count of at least one that keeps the total
    of rendered samples within 32 bits, it succeeds: it asks the driver
    for exactly [count] samples, every piece lying inside the sample
    buffer, flushes the buffer only in pieces the buffer can hold,
    and leaves the buffer invariant in place and the rest of the state
    as it was. *)
Theorem computeSamples_renders_count (count : Z) (st : state) :
  buffer_inv st ->
  (count < 1 -> computeSamples count st = (Err ErrCheck, st))
  /\ (1 <= count -> generated (trace st) + count <= INT32_MAX ->
      exists st' evs,
        computeSamples count st = (Ok (Some tt), st')
        /\ trace st' = trace st ++ evs
        /\ forallb sample_event evs = true /\ forallb call_ok evs = true
        /\ generated evs = count
        /\ buffer_inv st' /\ same_script st st').
Proof.
  intros Hinv. split.
  - intros Hlow. unfold computeSamples.
    destruct (Z.ltb_spec count 1); [reflexivity | lia].
  - intros Hcount Hsum. unfold computeSamples.
    destruct (Z.ltb_spec count 1) as [|_]; [lia|].
    pose proof Hinv as (Hfill & Htotal & _ & Hgen & _).
    destruct (computeSamples_loop_run (Z.to_nat count) count st)
      as (st' & evs & Hrun & Htr & Hsame & Hse & Hok & Hgen' & Hwr' & Hsum' & Hfill'
          & Htotal'); try lia.
    exists st', evs. split; [exact Hrun|]. split; [exact Htr|].
    split; [exact Hse|]. split; [exact Hok|]. split; [exact Hgen'|].
    split; [|exact Hsame].
    exact (buffer_inv_extend st st' evs count Hinv Htr Hok Hgen' Hwr' Hsum' Hfill'
             Htotal').
Qed.

Lemma computeSamples_renders_count_witness :
  buffer_inv (initial [])
  /\ exists st' evs,
       computeSamples 5000 (initial []) = (Ok (Some tt), st')
       /\ trace st' = trace (initial []) ++ evs
       /\ forallb sample_event evs = true /\ forallb call_ok evs = true
       /\ generated evs = 5000
       /\ buffer_inv st' /\ same_script (initial []) st'.
Proof.
  assert (Hinv : buffer_inv (initial [])).
  { unfold buffer_inv, BUFFER_SAMPLES. cbn.
    split; [lia|]. split; [lia|]. split; [reflexivity|]. split; reflexivity. }
  split; [exact Hinv|].
  refine (proj2 (computeSamples_renders_count 5000 (initial []) Hinv) _ _).
  - lia.
  - cbn. unfold INT32_MAX. lia.
Defined.

End BufferFacts.

(** *** The run of the interpreter *)

Module RunFacts.
Import RetroOpl RetroOplFacts BufferFacts.

(** The invariant of [main] reads five fields only. *)
Lemma run_inv_frame (sample_rate rate : Z) (st st' : state) :
  t st' = t st -> current st' = current st -> trace st' = trace st ->
  s_fill st' = s_fill st -> s_total st' = s_total st ->
  run_inv sample_rate rate st -> run_inv sample_rate rate st'.
Proof.
  intros Ht Hc Htr Hf Hs. unfold run_inv, clock_inv, buffer_inv.
  rewrite Ht, Hc, Htr, Hf, Hs. exact (fun H => H).
Qed.

Lemma hex_step_range (line r v : Z) (pstr rest : list Z) :
  hex_step line r pstr = Ok (v, rest) -> 0 <= v <= 255.
Proof.
  unfold hex_step.
  destruct ((48 <=? peek pstr) && (peek pstr <=? 57));
    [|destruct ((65 <=? peek pstr) && (peek pstr <=? 70));
      [|destruct ((97 <=? peek pstr) && (peek pstr <=? 102)); [|discriminate]]];
    intros H; injection H as <- _;
    match goal with
    | |- 0 <= ?a mod 256 <= 255 => pose proof (Z.mod_pos_bound a 256 ltac:(lia)); lia
    end.
Qed.

Lemma hex_step_error (line r : Z) (pstr : list Z) (e : error) :
  hex_step line r pstr = Err e -> e = ErrByteParse line.
Proof.
  unfold hex_step.
  destruct ((48 <=? peek pstr) && (peek pstr <=? 57)); [discriminate|].
  destruct ((65 <=? peek pstr) && (peek pstr <=? 70)); [discriminate|].
  destruct ((97 <=? peek pstr) && (peek pstr <=? 102)); [discriminate|].
  intros H. injection H as <-. reflexivity.
Qed.

(** What [parseByte] returns is a byte, and it has one diagnostic. *)
Lemma parseByte_range (line v : Z) (pstr rest : list Z) :
  parseByte line pstr = Ok (v, rest) -> 0 <= v <= 255.
Proof.
  unfold parseByte.
  destruct (hex_step line 0 (skip_blanks pstr)) as [[r1 p1]|e]; [|discriminate].
  destruct (hex_step line r1 p1) as [[r2 p2]|e] eqn:Hsecond; [|discriminate].
  destruct (is_hex (peek p2)); [discriminate|].
  intros H. injection H as <- _. exact (hex_step_range _ _ _ _ _ Hsecond).
Qed.

Lemma parseByte_error (line : Z) (pstr : list Z) (e : error) :
  parseByte line pstr = Err e -> e = ErrByteParse line.
Proof.
  unfold parseByte.
  destruct (hex_step line 0 (skip_blanks pstr)) as [[r1 p1]|e1] eqn:Hfirst.
  - destruct (hex_step line r1 p1) as [[r2 p2]|e2] eqn:Hsecond.
    + destruct (is_hex (peek p2)); [|discriminate].
      intros H. injection H as <-. reflexivity.
    + intros H. injection H as <-. exact (hex_step_error _ _ _ _ Hsecond).
  - intros H. injection H as <-. exact (hex_step_error _ _ _ _ Hfirst).
Qed.

Lemma parse_digits_error (line acc : Z) (pstr : list Z) (e : error) :
  parse_digits line acc pstr = Err e -> e = ErrIntOverflow line.
Proof.
  revert acc. induction pstr as [|c rest IH]; intros acc; cbn [parse_digits];
    [discriminate|].
  destruct (is_dec c); [|discriminate].
  destruct (acc <=? INT32_MAX / 10).
  - destruct (acc * 10 <=? INT32_MAX - (c - 48)); [apply IH|].
    intros H. injection H as <-. reflexivity.
  - intros H. injection H as <-. reflexivity.
Qed.

Lemma parseInt_error (line : Z) (pstr : list Z) (e : error) :
  parseInt line pstr = Err e -> internal e = false.
Proof.
  unfold parseInt. destruct (negb (is_dec (peek (skip_blanks pstr)))).
  - intros H. injection H as <-. reflexivity.
  - intros H. apply parse_digits_error in H. subst e. reflexivity.
Qed.

Lemma read_line_error (n c : Z) (rest buf : list Z) (e : error) :
  read_line n c rest buf = Err e -> internal e = false.
Proof.
  revert c buf. induction rest as [|c' rest IH]; intros c buf; cbn [read_line].
  - destruct (c =? 13); [intros H; injection H as <-; reflexivity|].
    destruct (c =? 10); [discriminate|].
    destruct (negb (c =? 9) && ((c <? 32) || (c >? 126)));
      [intros H; injection H as <-; reflexivity|].
    destruct (Z.of_nat (List.length buf) >=? LINE_MAXIMUM);
      [intros H; injection H as <-; reflexivity | discriminate].
  - destruct (c =? 13).
    { destruct (c' =? 10); [discriminate|]. intros H. injection H as <-. reflexivity. }
    destruct (c =? 10); [discriminate|].
    destruct (negb (c =? 9) && ((c <? 32) || (c >? 126)));
      [intros H; injection H as <-; reflexivity|].
    destruct (Z.of_nat (List.length buf) >=? LINE_MAXIMUM);
      [intros H; injection H as <-; reflexivity | apply IH].
Qed.

Lemma readInput_error (st st' : state) (e : error) :
  readInput st = (Err e, st') -> internal e = false.
Proof.
  unfold readInput, bind, get, modify, ret, raise.
  destruct (input st) as [|c rest]; [discriminate|].
  destruct (line_count st <? INT32_MAX).
  - destruct (read_line (line_count st + 1) c rest []) as [[buf rest']|e'] eqn:Hread;
      [discriminate|].
    intros H. injection H as <- _. exact (read_line_error _ _ _ _ _ Hread).
  - intros H. injection H as <- _. reflexivity.
Qed.

(** The [w] command under the invariant: the three ways it stops, and
    what it does otherwise. *)
Lemma wait_command_run (sample_rate rate iv32 : Z) (st st' : state)
  (r : result (option unit)) :
  sample_rate = 44100 \/ sample_rate = 48000 -> 1 <= rate <= 1024 ->
  run_inv sample_rate rate st -> 0 <= iv32 ->
  wait_command sample_rate rate iv32 st = (r, st') ->
  input st' = input st /\ line_count st' = line_count st
  /\ (exists evs, trace st' = trace st ++ evs
                  /\ forallb sample_event evs = true /\ forallb call_ok evs = true)
  /\ match r with
     | Ok x => x = Some tt /\ run_inv sample_rate rate st' /\ t st' = t st + iv32
     | Err e =>
         (e = ErrTimeOverflow /\ INT32_MAX < t st + iv32)
         \/ (e = ErrOffsetRange /\ INT32_MAX < (t st + iv32) * sample_rate / rate)
         \/ (e = ErrNotIncreasing /\ (t st + iv32) * sample_rate / rate <= current st)
     end.
Proof.
  intros Hsr Hrate ([Ht Hpos] & Hbuf & Hgen) Hiv.
  assert (Hnone : exists evs : list event,
            trace st = trace st ++ evs
            /\ forallb sample_event evs = true /\ forallb call_ok evs = true).
  { exists []. rewrite app_nil_r. auto. }
  unfold wait_command, bind at 1, get.
  destruct (Z.leb_spec (t st) (INT32_MAX - iv32)) as [Hle | Hgt].
  2:{ unfold raise. intros H. injection H as <- <-.
      split; [reflexivity|]. split; [reflexivity|]. split; [exact Hnone|].
      left. split; [reflexivity | lia]. }
  unfold bind at 1, modify at 1. unfold bind at 1, get. unfold bind at 1, lift.
  cbn [t set_t].
  assert (Hspec : sample_position (t st + iv32) sample_rate rate
                  = if (t st + iv32) * sample_rate / rate <=? INT32_MAX
                    then Ok ((t st + iv32) * sample_rate / rate)
                    else Err ErrOffsetRange).
  { apply RateFacts.sample_position_spec; unfold INT32_MAX in *;
      destruct Hsr; subst; lia. }
  rewrite Hspec.
  destruct (Z.leb_spec ((t st + iv32) * sample_rate / rate) INT32_MAX) as [Hq | Hq].
  2:{ intros H. injection H as <- <-.
      split; [reflexivity|]. split; [reflexivity|]. split; [exact Hnone|].
      right. left. split; [reflexivity | lia]. }
  set (soi := (t st + iv32) * sample_rate / rate) in *.
  cbn [current set_t].
  destruct (Z.leb_spec soi (current st)) as [Hlate | Hahead].
  { unfold raise. intros H. injection H as <- <-.
    split; [reflexivity|]. split; [reflexivity|]. split; [exact Hnone|].
    right. right. split; [reflexivity | lia]. }
  pose proof Hbuf as (Hfill & Htotal & _ & Hgen' & _).
  unfold bind at 1, computeSamples.
  destruct (Z.ltb_spec (soi - current st) 1) as [|_]; [lia|].
  destruct (computeSamples_loop_run (Z.to_nat (soi - current st)) (soi - current st)
              (set_t st (t st + iv32)))
    as (st1 & evs & Hrun & Htr & Hsame & Hse & Hok & Hgen1 & Hwr1 & Hsum1 & Hfill1
        & Htotal1); cbn [s_fill s_total set_t]; try lia.
  rewrite Hrun. unfold bind, modify, ret. intros H. injection H as <- <-.
  destruct Hsame as (Ht1 & Hc1 & Hin1 & Hln1 & _).
  cbn [t current input line_count trace s_fill s_total set_t set_current] in *.
  split; [exact Hin1|]. split; [exact Hln1|].
  split; [exists evs; auto|].
  split; [reflexivity|]. split; [|exact Ht1].
  unfold run_inv, clock_inv.
  cbn [t current trace s_fill s_total set_current]. rewrite Ht1.
  split; [split; [lia|] |].
  { rewrite Hspec. fold soi. destruct (Z.leb_spec soi INT32_MAX); [reflexivity | lia]. }
  split.
  - apply (buffer_inv_extend st (set_current st1 soi) evs (soi - current st));
      cbn [trace s_fill s_total set_current]; assumption.
  - rewrite Htr, generated_app. lia.
Qed.

(** A line of the script under the invariant. *)
Lemma process_line_run (sample_rate rate : Z) (st st' : state)
  (r : result (option unit)) :
  sample_rate = 44100 \/ sample_rate = 48000 -> 1 <= rate <= 1024 ->
  run_inv sample_rate rate st ->
  process_line sample_rate rate st = (r, st') ->
  input st' = input st /\ line_count st' = line_count st
  /\ (exists evs, trace st' = trace st ++ evs /\ forallb call_ok evs = true)
  /\ match r with
     | Ok x => x = Some tt /\ run_inv sample_rate rate st'
     | Err e => internal e = false
     end.
Proof.
  intros Hsr Hrate Hinv.
  assert (Hnone : exists evs : list event,
            trace st = trace st ++ evs /\ forallb call_ok evs = true).
  { exists []. rewrite app_nil_r. auto. }
  unfold process_line, bind at 1, get.
  destruct ((nth 0 (l_buf st) 0 =? 39) || isBlankStr (l_buf st)).
  { unfold ret. intros H. injection H as <- <-. auto. }
  destruct (negb (nth 1 (l_buf st) 0 =? 32) && negb (nth 1 (l_buf st) 0 =? 9)).
  { unfold raise. intros H. injection H as <- <-. auto. }
  destruct (nth 0 (l_buf st) 0 =? 114).
  { unfold bind at 1, lift.
    destruct (parseByte _ _) as [[reg p1]|e] eqn:Hreg.
    2:{ intros H. injection H as <- <-. apply parseByte_error in Hreg. subst e. auto. }
    unfold bind at 1.
    destruct (parseByte _ p1) as [[val p2]|e] eqn:Hval.
    2:{ intros H. injection H as <- <-. apply parseByte_error in Hval. subst e. auto. }
    destruct (negb (isBlankStr p2)).
    { unfold raise. intros H. injection H as <- <-. auto. }
    unfold bind, modify, ret. intros H. injection H as <- <-.
    apply parseByte_range in Hreg, Hval.
    assert (Hcall : forallb call_ok [OplWrite reg val] = true).
    { cbn [forallb call_ok].
      destruct (Z.leb_spec 0 reg); [|lia]. destruct (Z.leb_spec reg 255); [|lia].
      destruct (Z.leb_spec 0 val); [|lia]. destruct (Z.leb_spec val 255); [|lia].
      reflexivity. }
    split; [reflexivity|]. split; [reflexivity|].
    split; [exists [OplWrite reg val]; auto|].
    split; [reflexivity|].
    destruct Hinv as (Hclock & Hbuf & Hgen).
    split; [exact Hclock|]. split.
    - apply (buffer_inv_extend st (emit st (OplWrite reg val)) [OplWrite reg val] 0);
        try assumption; try reflexivity;
        cbn [s_total s_fill emit written generated fold_right];
        destruct Hbuf as (? & ? & _); lia.
    - cbn [trace current emit]. rewrite generated_app. cbn. lia. }
  destruct (nth 0 (l_buf st) 0 =? 119).
  { unfold bind at 1, lift.
    destruct (parseInt _ _) as [[iv32 p1]|e] eqn:Hint.
    2:{ intros H. injection H as <- <-. apply parseInt_error in Hint. auto. }
    destruct (negb (isBlankStr p1)).
    { unfold raise. intros H. injection H as <- <-. auto. }
    intros H. apply parseInt_nonneg in Hint.
    destruct (wait_command_run _ _ _ _ _ _ Hsr Hrate Hinv Hint H)
      as (Hin & Hln & (evs & Htr & _ & Hok) & Hres).
    split; [exact Hin|]. split; [exact Hln|]. split; [exists evs; auto|].
    destruct r as [x|e].
    - destruct Hres as (Hx & Hinv' & _). auto.
    - destruct Hres as [[-> _] | [[-> _] | [-> _]]]; reflexivity. }
  unfold raise. intros H. injection H as <- <-. auto.
Qed.

(** The [while] loop under the invariant. *)
Lemma body_loop_run (rounds : nat) (sample_rate rate : Z) (st st' : state)
  (r : result (option unit)) :
  sample_rate = 44100 \/ sample_rate = 48000 -> 1 <= rate <= 1024 ->
  run_inv sample_rate rate st ->
  body_loop rounds sample_rate rate st = (r, st') ->
  (exists evs, trace st' = trace st ++ evs /\ forallb call_ok evs = true)
  /\ match r with
     | Ok _ => run_inv sample_rate rate st'
     | Err e => internal e = false
     end.
Proof.
  intros Hsr Hrate. revert st.
  induction rounds as [|rounds IH]; intros st Hinv; cbn [body_loop].
  - unfold ret. intros H. injection H as <- <-.
    split; [exists []; rewrite app_nil_r; auto | exact Hinv].
  - unfold bind at 1.
    destruct (readInput st) as [[more|e] st1] eqn:Hread.
    2:{ intros H. injection H as <- <-.
        destruct (readInput_frame _ _ _ Hread) as (_ & _ & Htr & _).
        split; [exists []; rewrite app_nil_r; auto|].
        exact (readInput_error _ _ _ Hread). }
    destruct (readInput_frame _ _ _ Hread) as (Ht & Hc & Htr & Hf & Hs).
    pose proof (run_inv_frame _ _ _ _ Ht Hc Htr Hf Hs Hinv) as Hinv1.
    destruct more.
    2:{ unfold ret. intros H. injection H as <- <-.
        split; [exists []; rewrite app_nil_r; auto | exact Hinv1]. }
    unfold bind at 1.
    destruct (process_line sample_rate rate st1) as [[x|e] st2] eqn:Hline;
      destruct (process_line_run _ _ _ _ _ Hsr Hrate Hinv1 Hline)
        as (_ & _ & (evs1 & Htr1 & Hok1) & Hres).
    2:{ intros H. injection H as <- <-.
        split; [exists evs1; rewrite Htr1, Htr; auto | exact Hres]. }
    destruct Hres as [-> Hinv2]. intros H.
    destruct (IH _ Hinv2 H) as ((evs2 & Htr2 & Hok2) & Hres2).
    split; [|exact Hres2].
    exists (evs1 ++ evs2). rewrite Htr2, Htr1, Htr, app_assoc, forallb_app, Hok1, Hok2.
    auto.
Qed.

(** The header line has none of the internal diagnostics. *)
Lemma readHeader_run (st st' : state) (r : result Z) :
  readHeader st = (r, st') ->
  (t st' = t st /\ current st' = current st /\ trace st' = trace st
   /\ s_fill st' = s_fill st /\ s_total st' = s_total st)
  /\ match r with
     | Ok rate => 1 <= rate <= 1024
     | Err e => internal e = false
     end.
Proof.
  unfold readHeader, bind at 1.
  destruct (readInput st) as [[more|e] st1] eqn:Hread.
  2:{ intros H. injection H as <- <-.
      split; [exact (readInput_frame _ _ _ Hread) | exact (readInput_error _ _ _ Hread)]. }
  pose proof (readInput_frame _ _ _ Hread) as Hframe.
  destruct more; cbn [negb].
  2:{ unfold raise. intros H. injection H as <- <-. auto. }
  unfold bind at 1, get.
  destruct (negb (has_tag (l_buf st1))).
  { unfold raise. intros H. injection H as <- <-. auto. }
  unfold bind at 1, lift.
  destruct (parseInt _ _) as [[ctl_rate pstr]|e] eqn:Hint.
  2:{ intros H. injection H as <- <-. split; [exact Hframe|].
      exact (parseInt_error _ _ _ Hint). }
  destruct (Z.ltb_spec ctl_rate 1) as [Hlow | Hlo].
  { unfold raise. intros H. injection H as <- <-. auto. }
  destruct (Z.gtb_spec ctl_rate 1024) as [Hhigh | Hhi].
  { unfold raise. intros H. injection H as <- <-. auto. }
  cbn [orb]. destruct (negb (isBlankStr pstr)).
  { unfold raise. intros H. injection H as <- <-. auto. }
  unfold ret. intros H. injection H as <- <-. split; [exact Hframe | lia].
Qed.

(** [main] up to its loop. *)
Lemma start_run (sample_rate : Z) (stdin : list Z) (st : state) (r : result Z) :
  sample_rate = 44100 \/ sample_rate = 48000 ->
  start sample_rate (initial stdin) = (r, st) ->
  match r with
  | Ok rate =>
      1 <= rate <= 1024 /\ run_inv sample_rate rate st
      /\ trace st = [OplInit sample_rate; WavBegin sample_rate]
  | Err e => internal e = false /\ trace st = [OplInit sample_rate]
  end.
Proof.
  intros Hsr. unfold start, bind at 1, modify at 1. unfold bind at 1.
  destruct (readHeader _) as [[rate|e] st1] eqn:Hhead;
    destruct (readHeader_run _ _ _ Hhead) as ((Ht & Hc & Htr & Hf & Hs) & Hres);
    cbn [t current trace s_fill s_total emit initial app] in Ht, Hc, Htr, Hf, Hs.
  2:{ intros H. injection H as <- <-. auto. }
  assert (Hbegin : beginWAV sample_rate st1
                   = (Ok tt, emit st1 (WavBegin sample_rate))).
  { unfold beginWAV. destruct Hsr; subst sample_rate; reflexivity. }
  unfold bind at 1. rewrite Hbegin. unfold ret. intros H. injection H as <- <-.
  split; [exact Hres|]. split.
  - unfold run_inv, clock_inv, buffer_inv, BUFFER_SAMPLES.
    cbn [t current trace s_fill s_total emit]. rewrite Ht, Hc, Htr, Hf, Hs.
    split; [split; [unfold INT32_MAX; lia | apply sample_position_0; assumption]|].
    split; [|reflexivity].
    split; [lia|]. split; [lia|]. split; [reflexivity|]. split; [reflexivity|].
    cbn [app forallb call_ok]. destruct Hsr; subst sample_rate; reflexivity.
  - cbn [trace emit]. rewrite Htr. reflexivity.
Qed.

(** Under the clock invariant the current position is the integer
    quotient, and it fits 32 bits. *)
Lemma clock_position (sample_rate rate : Z) (st : state) :
  sample_rate = 44100 \/ sample_rate = 48000 -> 1 <= rate <= 1024 ->
  clock_inv sample_rate rate st ->
  current st = t st * sample_rate / rate /\ 0 <= current st <= INT32_MAX.
Proof.
  intros Hsr Hrate [Ht Hpos].
  rewrite RateFacts.sample_position_spec in Hpos
    by (unfold INT32_MAX in *; destruct Hsr; subst; lia).
  destruct (Z.leb_spec (t st * sample_rate / rate) INT32_MAX) as [Hq | Hq];
    [|discriminate].
  injection Hpos as Hpos. rewrite <- Hpos.
  split; [reflexivity|]. split; [|exact Hq].
  apply Z.div_pos; [|lia]. destruct Hsr; subst; lia.
Qed.

(** [finishWAV]: the last flush and the two sizes of the header. *)
Lemma finishWAV_run (st st' : state) (r : result unit) :
  buffer_inv st -> generated (trace st) <= INT32_MAX ->
  finishWAV st = (r, st') ->
  t st' = t st /\ current st' = current st
  /\ exists evs,
       forallb call_ok evs = true /\ forallb sample_event evs = true
       /\ generated evs = 0
       /\ written (trace st ++ evs) = generated (trace st)
       /\ match r with
          | Ok _ =>
              trace st' = trace st ++ evs
                          ++ [WavFinish (2 * generated (trace st) + 36)
                                (2 * generated (trace st))]
              /\ s_total st' = generated (trace st) /\ s_fill st' = 0
              /\ 2 * generated (trace st) + 36 <= INT32_MAX
          | Err e =>
              e = ErrFileSizeOverflow /\ INT32_MAX < 2 * generated (trace st) + 36
              /\ trace st' = trace st ++ evs
          end.
Proof.
  intros (Hfill & Htotal & Hwr & Hgen & Hok) Hmax.
  assert (Hflush : exists st1 evs,
            flushBuffer st = (Ok tt, st1) /\ trace st1 = trace st ++ evs
            /\ forallb call_ok evs = true /\ forallb sample_event evs = true
            /\ generated evs = 0 /\ written evs = s_fill st
            /\ s_total st1 = s_total st + s_fill st /\ s_fill st1 = 0
            /\ t st1 = t st /\ current st1 = current st).
  { destruct (Z.eq_dec (s_fill st) 0) as [Hempty | Hsome].
    - exists st, []. rewrite app_nil_r.
      split; [apply flushBuffer_empty; exact Hempty|].
      cbn [forallb generated written fold_right]. repeat split; lia.
    - exists (set_buffer (emit st (WavSamples (s_fill st))) (s_total st + s_fill st) 0),
        [WavSamples (s_fill st)].
      split; [apply flushBuffer_run; lia|].
      split; [reflexivity|]. split.
      { cbn [forallb call_ok].
        destruct (Z.leb_spec 1 (s_fill st)); [|lia].
        destruct (Z.leb_spec (s_fill st) BUFFER_SAMPLES); [reflexivity | lia]. }
      cbn [forallb sample_event generated written fold_right andb].
      repeat split; lia. }
  destruct Hflush as (st1 & evs & Hflush & Htr & Hok1 & Hse1 & Hgen1 & Hwr1 & Htot1
                      & Hfill1 & Ht1 & Hc1).
  unfold finishWAV, bind at 1. rewrite Hflush. unfold bind at 1, get.
  change (INT32_MAX / 2) with 1073741823. unfold INT32_MAX in *.
  assert (Hn : s_total st1 = generated (trace st)) by lia.
  assert (Hwritten : written (trace st ++ evs) = generated (trace st)).
  { rewrite written_app. lia. }
  destruct (Z.leb_spec (s_total st1) 1073741823) as [Hhalf | Hhalf].
  - destruct (Z.leb_spec (s_total st1 * 2) (2147483647 - 36)) as [Hsize | Hsize].
    + unfold modify. intros H. injection H as <- <-.
      cbn [t current trace s_total s_fill emit].
      split; [exact Ht1|]. split; [exact Hc1|]. exists evs.
      split; [exact Hok1|]. split; [exact Hse1|]. split; [exact Hgen1|].
      split; [exact Hwritten|].
      split; [|split; [exact Hn | split; [exact Hfill1 | lia]]].
      rewrite Htr, <- app_assoc, Hn.
      replace (generated (trace st) * 2) with (2 * generated (trace st)) by lia.
      reflexivity.
    + unfold raise. intros H. injection H as <- <-.
      split; [exact Ht1|]. split; [exact Hc1|]. exists evs.
      split; [exact Hok1|]. split; [exact Hse1|]. split; [exact Hgen1|].
      split; [exact Hwritten|].
      split; [reflexivity|]. split; [lia | exact Htr].
  - unfold raise. intros H. injection H as <- <-.
    split; [exact Ht1|]. split; [exact Hc1|]. exists evs.
    split; [exact Hok1|]. split; [exact Hse1|]. split; [exact Hgen1|].
    split; [exact Hwritten|].
    split; [reflexivity|]. split; [lia | exact Htr].
Qed.

(** The whole of [main] for a supported sampling rate. *)
Lemma main_run (sample_rate : Z) (stdin : list Z) (st : state)
  (r : result (option unit)) :
  sample_rate = 44100 \/ sample_rate = 48000 ->
  main sample_rate (initial stdin) = (r, st) ->
  forallb call_ok (trace st) = true
  /\ match r with
     | Err e => internal e = false
     | Ok _ =>
         exists rate tr,
           fst (start sample_rate (initial stdin)) = Ok rate
           /\ 1 <= rate <= 1024 /\ clock_inv sample_rate rate st
           /\ generated (trace st) = current st /\ written (trace st) = current st
           /\ s_total st = current st /\ s_fill st = 0
           /\ 2 * current st + 36 <= INT32_MAX
           /\ trace st = OplInit sample_rate :: WavBegin sample_rate
                         :: tr ++ [WavFinish (2 * current st + 36) (2 * current st)]
     end.
Proof.
  intros Hsr. unfold main, bind at 1.
  destruct (start sample_rate (initial stdin)) as [[rate|e] st0] eqn:Hstart;
    pose proof (start_run _ _ _ _ Hsr Hstart) as Hst.
  2:{ intros H. injection H as <- <-. destruct Hst as [Hint Htr].
      split; [|exact Hint]. rewrite Htr. cbn [forallb call_ok].
      destruct Hsr; subst sample_rate; reflexivity. }
  destruct Hst as (Hrate & Hinv0 & Htr0).
  unfold bind at 1, get. unfold bind at 1.
  pose proof (body_loop_total (S (List.length (input st0))) sample_rate rate st0
                ltac:(lia)) as Htotal.
  destruct (body_loop _ _ _ st0) as [[x|e] st1] eqn:Hloop;
    destruct (body_loop_run _ _ _ _ _ _ Hsr Hrate Hinv0 Hloop)
      as ((evs1 & Htr1 & Hok1) & Hres).
  2:{ intros H. injection H as <- <-. split; [|exact Hres].
      rewrite Htr1, Htr0, forallb_app, Hok1. cbn [forallb call_ok].
      destruct Hsr; subst sample_rate; reflexivity. }
  destruct x as [[]|]; [|cbn [fst] in Htotal; congruence].
  destruct Hres as (Hclock & Hbuf & Hgen).
  destruct (clock_position _ _ _ Hsr Hrate Hclock) as [_ Hcur].
  assert (Hbuf' : buffer_inv (emit st1 OplFinish)).
  { apply (buffer_inv_extend st1 (emit st1 OplFinish) [OplFinish] 0);
      try assumption; try reflexivity;
      cbn [s_total s_fill emit written generated fold_right];
      destruct Hbuf as (? & ? & _); lia. }
  assert (Hgen' : generated (trace (emit st1 OplFinish)) = current st1).
  { cbn [trace emit]. rewrite generated_app. cbn. lia. }
  unfold bind at 1, modify at 1. unfold bind at 1.
  destruct (finishWAV (emit st1 OplFinish)) as [[u|e] st2] eqn:Hfinish;
    destruct (finishWAV_run _ _ _ Hbuf' ltac:(lia) Hfinish)
      as (Ht2 & Hc2 & evs2 & Hok2 & Hse2 & Hgen2 & Hwr2 & Hres2);
    rewrite Hgen' in Hres2, Hwr2; cbn [t current trace emit] in Ht2, Hc2, Hres2, Hwr2.
  2:{ intros H. injection H as <- <-. destruct Hres2 as (-> & _ & Htr2).
      split; [|reflexivity].
      rewrite Htr2, Htr1, Htr0, !forallb_app, Hok1, Hok2. cbn [forallb call_ok].
      destruct Hsr; subst sample_rate; reflexivity. }
  unfold ret. intros H. injection H as <- <-.
  destruct Hres2 as (Htr2 & Htot2 & Hfill2 & Hsize).
  split.
  { rewrite Htr2, Htr1, Htr0, !forallb_app, Hok1, Hok2. cbn [forallb call_ok].
    destruct Hsr; subst sample_rate; reflexivity. }
  exists rate, (evs1 ++ OplFinish :: evs2). rewrite Hc2.
  split; [reflexivity|]. split; [exact Hrate|].
  split.
  { unfold clock_inv. rewrite Ht2, Hc2. exact Hclock. }
  split.
  { rewrite Htr2, !generated_app, Hgen2, <- generated_app. cbn [generated fold_right].
    cbn [trace emit] in Hgen'. lia. }
  split.
  { rewrite Htr2, app_assoc, written_app, Hwr2. cbn. lia. }
  split; [exact Htot2|]. split; [exact Hfill2|]. split; [exact Hsize|].
  rewrite Htr2, Htr1, Htr0. cbn [app]. rewrite <- !app_assoc. reflexivity.
Qed.

(** [main] proper runs only with three program arguments, the third
    naming one of the two supported rates. *)
Lemma main_argv_ran (argv : list string) (stdin : list Z)
  (r : result (option unit) * state) :
  main_argv argv stdin = Ran r ->
  List.length argv = 3%nat
  /\ exists sample_rate,
       ((nth 2 argv EmptyString = "44100"%string /\ sample_rate = 44100)
        \/ (nth 2 argv EmptyString = "48000"%string /\ sample_rate = 48000))
       /\ r = main sample_rate (initial stdin).
Proof.
  unfold main_argv. intros Hrun.
  destruct (List.length argv <? 2)%nat; [discriminate|].
  destruct (Nat.eqb_spec (List.length argv) 3) as [Hlen | Hlen]; cbn [negb] in Hrun;
    [|discriminate].
  split; [exact Hlen|].
  destruct (String.eqb_spec (nth 2 argv EmptyString) "44100") as [H44 | H44].
  - injection Hrun as <-. exists 44100. auto.
  - destruct (String.eqb_spec (nth 2 argv EmptyString) "48000") as [H48 | H48];
      [|discriminate].
    injection Hrun as <-. exists 48000. auto.
Qed.

(** X9. A run that ends well has accounted for every sample.  With
    [rate] the control rate of the header line and [n] the integer
    quotient of the final tick count times the sampling rate by
    [rate]: the driver was asked for exactly [n] samples, exactly [n]
    samples were written to the file, [s_total] is [n] and the buffer
    is empty, and the trace begins with the initialisation of the
    driver and of the file and ends with the two header sizes [2n + 36]
    and [2n], which fit 32 bits. *)
Theorem successful_run_accounting (argv : list string) (stdin : list Z)
  (x : option unit) (st : state) :
  main_argv argv stdin = Ran (Ok x, st) ->
  exists sample_rate rate tr,
    (sample_rate = 44100 \/ sample_rate = 48000)
    /\ fst (start sample_rate (initial stdin)) = Ok rate /\ 1 <= rate <= 1024
    /\ 0 <= t st <= INT32_MAX
    /\ let n := t st * sample_rate / rate in
       current st = n /\ generated (trace st) = n /\ written (trace st) = n
       /\ s_total st = n /\ s_fill st = 0 /\ 2 * n + 36 <= INT32_MAX
       /\ trace st = OplInit sample_rate :: WavBegin sample_rate
                     :: tr ++ [WavFinish (2 * n + 36) (2 * n)].
Proof.
  intros Hrun.
  destruct (main_argv_ran _ _ _ Hrun) as (_ & sample_rate & Harg & Hmain).
  assert (Hsr : sample_rate = 44100 \/ sample_rate = 48000).
  { destruct Harg as [[_ ->] | [_ ->]]; auto. }
  destruct (main_run sample_rate stdin st (Ok x) Hsr (eq_sym Hmain))
    as (_ & rate & tr & Hstart & Hrate & Hclock & Hgen & Hwr & Htot & Hfill & Hsize
        & Htr).
  destruct (clock_position _ _ _ Hsr Hrate Hclock) as [Hcur _].
  exists sample_rate, rate, tr.
  split; [exact Hsr|]. split; [exact Hstart|]. split; [exact Hrate|].
  split; [exact (proj1 Hclock)|].
  cbv zeta. rewrite <- Hcur.
  split; [reflexivity|]. split; [exact Hgen|]. split; [exact Hwr|].
  split; [exact Htot|]. split; [exact Hfill|]. split; [exact Hsize | exact Htr].
Qed.

Lemma successful_run_accounting_witness :
  let st := snd (main 44100 (initial (bytes_of scenario_A))) in
  exists sample_rate rate tr,
    (sample_rate = 44100 \/ sample_rate = 48000)
    /\ fst (start sample_rate (initial (bytes_of scenario_A))) = Ok rate
    /\ 1 <= rate <= 1024
    /\ 0 <= t st <= INT32_MAX
    /\ let n := t st * sample_rate / rate in
       current st = n /\ generated (trace st) = n /\ written (trace st) = n
       /\ s_total st = n /\ s_fill st = 0 /\ 2 * n + 36 <= INT32_MAX
       /\ trace st = OplInit sample_rate :: WavBegin sample_rate
                     :: tr ++ [WavFinish (2 * n + 36) (2 * n)].
Proof.
  refine (successful_run_accounting ["retro_opl"; "out.wav"; "44100"]%string
            (bytes_of scenario_A) (Some tt)
            (snd (main 44100 (initial (bytes_of scenario_A)))) _).
  vm_compute. reflexivity.
Defined.

(** X10. The diagnostics of the internal checks never end a run: no
    input makes the program stop on a failed parameter check, on a
    sample offset that is not finite, or on an overflow of the count
    of samples written. *)
Theorem no_internal_diagnostic (argv : list string) (stdin : list Z)
  (e : error) (st : state) :
  main_argv argv stdin = Ran (Err e, st) ->
  e <> ErrCheck /\ e <> ErrNotFinite /\ e <> ErrSampleCountOverflow.
Proof.
  intros Hrun.
  destruct (main_argv_ran _ _ _ Hrun) as (_ & sample_rate & Harg & Hmain).
  assert (Hsr : sample_rate = 44100 \/ sample_rate = 48000).
  { destruct Harg as [[_ ->] | [_ ->]]; auto. }
  destruct (main_run sample_rate stdin st (Err e) Hsr (eq_sym Hmain)) as [_ Hint].
  destruct e; try discriminate Hint; repeat split; discriminate.
Qed.

Lemma no_internal_diagnostic_witness :
  ErrNotIncreasing <> ErrCheck /\ ErrNotIncreasing <> ErrNotFinite
  /\ ErrNotIncreasing <> ErrSampleCountOverflow.
Proof.
  refine (no_internal_diagnostic ["retro_opl"; "out.wav"; "48000"]%string
            (bytes_of scenario_wait_zero) ErrNotIncreasing
            (snd (main 48000 (initial (bytes_of scenario_wait_zero)))) _).
  vm_compute. reflexivity.
Defined.

(** X11. Every run, whether it ends well or stops on a diagnostic,
    keeps the preconditions [opl_driver.h] documents: the driver is
    initialised with 44100 or 48000; every register write has a
    register and a value between 0 and 255; every request for samples
    is for at least one sample and lies inside the buffer of 4096
    samples; and every block of samples written to the file has
    between 1 and 4096 samples. *)
Theorem driver_contract_kept (argv : list string) (stdin : list Z)
  (r : result (option unit)) (st : state) :
  main_argv argv stdin = Ran (r, st) ->
  Forall (fun e =>
            match e with
            | OplInit sample_rate => sample_rate = 44100 \/ sample_rate = 48000
            | OplWrite reg val => 0 <= reg <= 255 /\ 0 <= val <= 255
            | OplGenerate offset count =>
                0 <= offset /\ 1 <= count /\ offset + count <= BUFFER_SAMPLES
            | WavSamples count => 1 <= count <= BUFFER_SAMPLES
            | _ => True
            end) (trace st).
Proof.
  intros Hrun.
  destruct (main_argv_ran _ _ _ Hrun) as (_ & sample_rate & Harg & Hmain).
  assert (Hsr : sample_rate = 44100 \/ sample_rate = 48000).
  { destruct Harg as [[_ ->] | [_ ->]]; auto. }
  destruct (main_run sample_rate stdin st r Hsr (eq_sym Hmain)) as [Hok _].
  rewrite forallb_forall in Hok. apply Forall_forall. intros e Hin.
  specialize (Hok e Hin). destruct e as [sr|reg val|offset count| |sr|count|c d];
    cbn [call_ok] in Hok; try exact I.
  - apply orb_prop in Hok. destruct Hok as [H | H]; apply Z.eqb_eq in H; auto.
  - apply andb_prop in Hok. destruct Hok as [Hok Hv2].
    apply andb_prop in Hok. destruct Hok as [Hok Hv1].
    apply andb_prop in Hok. destruct Hok as [Hr1 Hr2].
    apply Z.leb_le in Hv2, Hv1, Hr1, Hr2. lia.
  - apply andb_prop in Hok. destruct Hok as [Hok Hroom].
    apply andb_prop in Hok. destruct Hok as [Hoff Hcount].
    apply Z.leb_le in Hroom, Hoff, Hcount. lia.
  - apply andb_prop in Hok. destruct Hok as [Hlo Hhi].
    apply Z.leb_le in Hlo, Hhi. lia.
Qed.

Lemma driver_contract_kept_witness :
  Forall (fun e =>
            match e with
            | OplInit sample_rate => sample_rate = 44100 \/ sample_rate = 48000
            | OplWrite reg val => 0 <= reg <= 255 /\ 0 <= val <= 255
            | OplGenerate offset count =>
                0 <= offset /\ 1 <= count /\ offset + count <= BUFFER_SAMPLES
            | WavSamples count => 1 <= count <= BUFFER_SAMPLES
            | _ => True
            end)
    (trace (snd (main 44100 (initial (bytes_of scenario_A))))).
Proof.
  refine (driver_contract_kept ["retro_opl"; "out.wav"; "44100"]%string
            (bytes_of scenario_A)
            (fst (main 44100 (initial (bytes_of scenario_A))))
            (snd (main 44100 (initial (bytes_of scenario_A)))) _).
  vm_compute. reflexivity.
Defined.

End RunFacts.

(** *** The output of the decoder *)

Module DecoderFacts.
Import Vgm2Opl Vgm2OplFacts.

Lemma Forall_skipn_of {A : Type} (P : A -> Prop) (n : nat) (l : list A) :
  Forall P l -> Forall P (skipn n l).
Proof.
  revert l. induction n as [|n IH]; intros l H; [exact H|].
  destruct l as [|a l]; [constructor|]. cbn [skipn]. apply IH.
  inversion H; assumption.
Qed.

Lemma Forall_firstn_of {A : Type} (P : A -> Prop) (n : nat) (l : list A) :
  Forall P l -> Forall P (firstn n l).
Proof.
  revert l. induction n as [|n IH]; intros l H; [constructor|].
  destruct l as [|a l]; cbn [firstn]; [constructor|].
  inversion H; subst. constructor; [assumption | apply IH; assumption].
Qed.

Lemma at_pd_byte (data : list Z) (w : walk) (i b : Z) :
  Forall (fun b => 0 <= b <= 255) data -> at_pd data w i = Some b -> 0 <= b <= 255.
Proof.
  intros Hdata. unfold at_pd. destruct (pd w + i <? 0); [discriminate|].
  intros H. apply nth_error_In in H. rewrite Forall_forall in Hdata.
  exact (Hdata b H).
Qed.

Lemma is_script_app (out more : list command) :
  is_script out = true -> forallb body_command more = true ->
  is_script (out ++ more) = true.
Proof.
  destruct out as [|c body]; [discriminate|]. destruct c; try discriminate.
  cbn [is_script app]. intros Hbody Hmore. rewrite forallb_app, Hbody, Hmore.
  reflexivity.
Qed.

(** The waits written are body commands. *)
Lemma handle_wait_script (w : walk) :
  accounted w -> is_script (output w) = true ->
  match handle_wait w with
  | Continue w' | Break w' | Fail _ w' => is_script (output w') = true
  end.
Proof.
  intros (Hs & Hc & Ht) Hscript. unfold handle_wait.
  destruct (wait_cmd w) eqn:Hcmd; cbn [andb].
  2:{ rewrite Hcmd. exact Hscript. }
  destruct (Z.ltb_spec (wait_req w) 1) as [Hreq | Hreq]; cbn [wait_cmd set_wait].
  { exact Hscript. }
  rewrite Hcmd.
  destruct (Z.leb_spec (samp_offs w) (INT32_MAX - wait_req w)) as [Hle | Hgt];
    [|exact Hscript].
  cbn [samp_offs set_samp_offs].
  rewrite RateFacts.control_position_spec by (unfold INT32_MAX in *; lia).
  cbn [ctl_offs set_samp_offs].
  assert (Hhigh : (samp_offs w + wait_req w) * 980 / 44100 <= INT32_MAX).
  { apply Z.div_le_upper_bound; unfold INT32_MAX in *; lia. }
  assert (Hlow : 0 <= ctl_offs w).
  { rewrite Hc. apply Z.div_pos; lia. }
  destruct (Z.gtb_spec ((samp_offs w + wait_req w) * 980 / 44100) (ctl_offs w))
    as [Hgt | Hngt]; [|exact Hscript].
  cbn [output set_ctl_offs print set_samp_offs].
  apply is_script_app; [exact Hscript|]. cbn [forallb body_command].
  destruct (Z.leb_spec 1 ((samp_offs w + wait_req w) * 980 / 44100 - ctl_offs w));
    [|lia].
  destruct (Z.leb_spec ((samp_offs w + wait_req w) * 980 / 44100 - ctl_offs w)
              INT32_MAX); [reflexivity | lia].
Qed.

Lemma operands_script (data : list Z) (w : walk) (k : Z -> Z -> walk -> walk) :
  Forall (fun b => 0 <= b <= 255) data ->
  is_script (output w) = true ->
  (forall b1 b2, 0 <= b1 <= 255 -> 0 <= b2 <= 255 ->
                 is_script (output (k b1 b2 w)) = true) ->
  match operands data w k with
  | Continue w' | Break w' | Fail _ w' => is_script (output w') = true
  end.
Proof.
  intros Hdata Hscript Hk. unfold operands.
  destruct (data_len w <? 3); [exact Hscript|].
  destruct (at_pd data w 1) as [b1|] eqn:H1; [|exact Hscript].
  destruct (at_pd data w 2) as [b2|] eqn:H2; [|exact Hscript].
  cbn [output set_cursor].
  apply Hk; [exact (at_pd_byte _ _ _ _ Hdata H1) | exact (at_pd_byte _ _ _ _ Hdata H2)].
Qed.

(** One round of the walk prints body commands only, however it
    ends. *)
Lemma round_script (data : list Z) (w : walk) :
  Forall (fun b => 0 <= b <= 255) data ->
  accounted w -> is_script (output w) = true ->
  match round data w with
  | Continue w' | Break w' | Fail _ w' => is_script (output w') = true
  end.
Proof.
  intros Hdata Ha Hscript.
  assert (Hwait : forall w1, accounted w1 -> is_script (output w1) = true ->
            match
              match handle_wait w1 with
              | Continue w2 =>
                  Continue (set_cursor w2 (pd w2 + 1) (wrap32 (data_len w2 - 1)))
              | o => o
              end
            with
            | Continue w' | Break w' | Fail _ w' => is_script (output w') = true
            end).
  { intros w1 Ha1 Hs1. pose proof (handle_wait_script w1 Ha1 Hs1) as H.
    destruct (handle_wait w1) as [w2|w2|e w2]; exact H. }
  unfold round, dispatch.
  destruct (at_pd data w 0) as [op|]; [|exact Hscript].
  destruct (op =? 0x66); [exact Hscript|].
  destruct ((op >=? 0x70) && (op <=? 0x7f)); [apply Hwait; assumption|].
  destruct (op =? 0x63); [apply Hwait; assumption|].
  destruct (op =? 0x62); [apply Hwait; assumption|].
  destruct (op =? 0x61).
  { pose proof (operands_accounted data w
                  (fun b1 b2 w => set_wait w true (Z.lor b1 (Z.shiftl b2 8)))
                  Ha ltac:(intros; apply set_wait_accounted; exact Ha)) as Hop.
    pose proof (operands_script data w
                  (fun b1 b2 w => set_wait w true (Z.lor b1 (Z.shiftl b2 8)))
                  Hdata Hscript ltac:(intros; exact Hscript)) as Hos.
    destruct (operands data w _) as [w1|w1|e w1]; [|contradiction|exact Hos].
    destruct Hop as [Ha1 _]. apply Hwait; assumption. }
  destruct (op =? 0x5a); [|exact Hscript].
  assert (Hprint : forall b1 b2,
            accounted (print (set_wait w false (wait_req w)) (CmdR b1 b2))
            /\ extends (set_wait w false (wait_req w))
                 (print (set_wait w false (wait_req w)) (CmdR b1 b2))).
  { intros b1 b2. destruct Ha as (Hs & Hc & Ht).
    unfold accounted, extends. cbn [samp_offs ctl_offs output print set_wait].
    rewrite total_wait_app, Ht. cbn [total_wait fold_right].
    split; [split; [exact Hs | split; [exact Hc | lia]]|].
    split; [eexists; reflexivity | lia]. }
  assert (Hbytes : forall b1 b2, 0 <= b1 <= 255 -> 0 <= b2 <= 255 ->
            is_script (output (print (set_wait w false (wait_req w)) (CmdR b1 b2)))
            = true).
  { intros b1 b2 H1 H2. cbn [output print set_wait].
    apply is_script_app; [exact Hscript|]. cbn [forallb body_command].
    destruct (Z.leb_spec 0 b1); [|lia]. destruct (Z.leb_spec b1 255); [|lia].
    destruct (Z.leb_spec 0 b2); [|lia]. destruct (Z.leb_spec b2 255); [|lia].
    reflexivity. }
  pose proof (operands_accounted data (set_wait w false (wait_req w))
                (fun b1 b2 w => print w (CmdR b1 b2)) Ha Hprint) as Hop.
  pose proof (operands_script data (set_wait w false (wait_req w))
                (fun b1 b2 w => print w (CmdR b1 b2)) Hdata Hscript Hbytes) as Hos.
  destruct (operands data _ _) as [w1|w1|e w1]; [|contradiction|exact Hos].
  destruct Hop as [Ha1 _]. apply Hwait; assumption.
Qed.

Lemma pass_loop_script (rounds : nat) (data : list Z) (w : walk) :
  Forall (fun b => 0 <= b <= 255) data ->
  accounted w -> is_script (output w) = true ->
  match pass_loop rounds data w with
  | Finished w' | Stopped _ w' => is_script (output w') = true
  | NoRoundsLeft => True
  end.
Proof.
  intros Hdata. revert w.
  induction rounds as [|rounds IH]; intros w Ha Hscript; cbn [pass_loop].
  - destruct (data_len w >? 0); [exact I | exact Hscript].
  - destruct (data_len w >? 0); [|exact Hscript].
    pose proof (round_accounted data w Ha) as Hra.
    pose proof (round_script data w Hdata Ha Hscript) as Hrs.
    destruct (round data w) as [w1|w1|e w1]; [|exact Hrs|exact Hrs].
    destruct Hra as [Ha1 _]. apply IH; assumption.
Qed.

Lemma pass_script (sec : section) (i : Z) (w : walk) :
  Forall (fun b => 0 <= b <= 255) (pData sec) ->
  accounted w -> is_script (output w) = true ->
  match pass sec i w with
  | Finished w' | Stopped _ w' => is_script (output w') = true
  | NoRoundsLeft => True
  end.
Proof.
  intros Hdata Ha Hscript. unfold pass.
  apply pass_loop_script; [exact Hdata | |];
    unfold start_pass; destruct (i >? 0); assumption.
Qed.

(** The accounting and the form of the output, over all passes. *)
Lemma passes_script (todo : nat) (sec : section) (i : Z) (w : walk) :
  Forall (fun b => 0 <= b <= 255) (pData sec) ->
  accounted w -> is_script (output w) = true ->
  match passes todo sec i w with
  | Finished w' => accounted w' /\ is_script (output w') = true
  | Stopped _ w' => is_script (output w') = true
  | NoRoundsLeft => True
  end.
Proof.
  intros Hdata. revert i w.
  induction todo as [|todo IH]; intros i w Ha Hscript; cbn [passes]; [auto|].
  pose proof (pass_script sec i w Hdata Ha Hscript) as Hps.
  destruct (pass sec i w) as [w1|e w1|] eqn:Hpass; [|exact Hps|exact I].
  destruct (pass_accounted _ _ _ _ Ha Hpass) as [Ha1 _].
  apply IH; assumption.
Qed.

Lemma passes_accounted (todo : nat) (sec : section) (i : Z) (w w' : walk) :
  accounted w -> passes todo sec i w = Finished w' -> accounted w' /\ extends w w'.
Proof.
  revert i w. induction todo as [|todo IH]; intros i w Ha; cbn [passes].
  - intros H. injection H as <-. split; [exact Ha | apply extends_refl].
  - destruct (pass sec i w) as [w1|e w1|] eqn:Hpass; try discriminate.
    destruct (pass_accounted _ _ _ _ Ha Hpass) as [Ha1 He1]. intros H.
    destruct (IH _ _ Ha1 H) as [Ha' He']. split; [exact Ha'|].
    exact (extends_trans _ _ _ He1 He').
Qed.

Lemma header_accounted : accounted (print initial CmdHeader).
Proof.
  unfold accounted, INT32_MAX. cbn. split; [lia|]. split; reflexivity.
Qed.

(** The data section is made of bytes of the file. *)
Lemma load_bytes (file : list Z) (sec : section) :
  Forall (fun b => 0 <= b <= 255) file -> load file = Ok sec ->
  Forall (fun b => 0 <= b <= 255) (pData sec).
Proof.
  intros Hfile. unfold load, bind.
  destruct (read_header file) as [h|e]; [|discriminate].
  unfold load_section.
  destruct ((loop_abs h <? data_offs h) || (loop_abs h >=? file_len h));
    [discriminate|].
  destruct (file_len h <=? data_offs h); [discriminate|].
  destruct (wrap32 (file_len h - data_offs h) >? MAX_DATA_SECTION); [discriminate|].
  destruct (negb _); [discriminate|].
  intros H. injection H as <-. cbn [pData].
  apply Forall_firstn_of, Forall_skipn_of. exact Hfile.
Qed.

(** X12. Whatever the bytes of the input file and the repeat count,
    what the converter has written when it ends is nothing at all (it
    stopped before the walk) or the header line ["OPL2 980"] followed
    only by register writes of two bytes and by waits of at least one
    tick and at most 2147483647: no wait of zero ticks, no negative
    count and no second header is ever written.  When it finishes, the
    output is such a script. *)
Theorem decoder_prints_a_script (file : list Z) (rep_count : Z) :
  Forall (fun b => 0 <= b <= 255) file ->
  match main file rep_count with
  | Finished w => is_script (output w) = true
  | Stopped _ w => output w = [] \/ is_script (output w) = true
  | NoRoundsLeft => False
  end.
Proof.
  intros Hfile. pose proof (main_safe file rep_count) as Hsafe.
  unfold main in *. destruct (load file) as [sec|e] eqn:Hload.
  - pose proof (load_bytes _ _ Hfile Hload) as Hdata.
    unfold decode in *.
    pose proof (passes_script (Z.to_nat rep_count) sec 0 (print initial CmdHeader)
                  Hdata header_accounted eq_refl) as Hps.
    destruct (passes _ sec 0 _) as [w|e w|].
    + exact (proj2 Hps).
    + right. exact Hps.
    + exact Hsafe.
  - left. reflexivity.
Qed.

Lemma decoder_prints_a_script_witness :
  match main sample_file 2 with
  | Finished w => is_script (output w) = true
  | Stopped _ w => output w = [] \/ is_script (output w) = true
  | NoRoundsLeft => False
  end.
Proof.
  refine (decoder_prints_a_script sample_file 2 _).
  unfold sample_file. apply Forall_app; split; [repeat constructor; lia|].
  apply Forall_app; split; [|repeat constructor; lia].
  apply Forall_forall. intros b Hin. apply repeat_spec in Hin. subst b. lia.
Defined.



(** What holds of the walk the converter finishes with. *)
Lemma main_finished (file : list Z) (rep_count : Z) (w : walk) :
  Forall (fun b => 0 <= b <= 255) file ->
  main file rep_count = Finished w ->
  accounted w /\ is_script (output w) = true.
Proof.
  intros Hfile. unfold main.
  destruct (load file) as [sec|e] eqn:Hload; [|discriminate].
  unfold decode. intros Hrun.
  pose proof (passes_script (Z.to_nat rep_count) sec 0 (print initial CmdHeader)
                (load_bytes _ _ Hfile Hload) header_accounted eq_refl) as Hps.
  rewrite Hrun in Hps. exact Hps.
Qed.

(** How a round can fail. *)
Lemma round_fail_kind (data : list Z) (w : walk) :
  accounted w ->
  match round data w with
  | Fail e _ => e = ErrOutOfBounds \/ walk_diagnostic e = true
  | _ => True
  end.
Proof.
  intros Ha.
  assert (Hwait : forall w1, accounted w1 ->
            match
              match handle_wait w1 with
              | Continue w2 =>
                  Continue (set_cursor w2 (pd w2 + 1) (wrap32 (data_len w2 - 1)))
              | o => o
              end
            with
            | Fail e _ => e = ErrOutOfBounds \/ walk_diagnostic e = true
            | _ => True
            end).
  { intros w1 Ha1. pose proof (handle_wait_accounted w1 Ha1) as H.
    destruct (handle_wait w1) as [w2|w2|e w2]; [exact I | exact I|].
    subst e. right. reflexivity. }
  assert (Hoperands : forall w0 k,
            accounted w0 ->
            (forall b1 b2, accounted (k b1 b2 w0) /\ extends w0 (k b1 b2 w0)) ->
            match
              match operands data w0 k with
              | Continue w1 =>
                  match handle_wait w1 with
                  | Continue w2 =>
                      Continue (set_cursor w2 (pd w2 + 1) (wrap32 (data_len w2 - 1)))
                  | o => o
                  end
              | o => o
              end
            with
            | Fail e _ => e = ErrOutOfBounds \/ walk_diagnostic e = true
            | _ => True
            end).
  { intros w0 k Ha0 Hk. pose proof (operands_accounted data w0 k Ha0 Hk) as Hop.
    unfold operands in *.
    destruct (data_len w0 <? 3); [right; reflexivity|].
    destruct (at_pd data w0 1) as [b1|]; [|left; reflexivity].
    destruct (at_pd data w0 2) as [b2|]; [|left; reflexivity].
    apply Hwait. exact (proj1 Hop). }
  unfold round, dispatch.
  destruct (at_pd data w 0) as [op|]; [|left; reflexivity].
  destruct (op =? 0x66) eqn:E66; [exact I|].
  destruct ((op >=? 0x70) && (op <=? 0x7f)) eqn:E7x;
    [apply Hwait; apply set_wait_accounted; exact Ha|].
  destruct (op =? 0x63) eqn:E63; [apply Hwait; apply set_wait_accounted; exact Ha|].
  destruct (op =? 0x62) eqn:E62; [apply Hwait; apply set_wait_accounted; exact Ha|].
  destruct (op =? 0x61) eqn:E61.
  { apply Hoperands; [exact Ha|]. intros. apply set_wait_accounted. exact Ha. }
  destruct (op =? 0x5a) eqn:E5a.
  { apply Hoperands; [exact Ha|]. intros b1 b2. destruct Ha as (Hs & Hc & Ht).
    unfold accounted, extends. cbn [samp_offs ctl_offs output print set_wait].
    rewrite total_wait_app, Ht. cbn [total_wait fold_right].
    split; [split; [exact Hs | split; [exact Hc | lia]]|].
    split; [eexists; reflexivity | lia]. }
  right. cbn [walk_diagnostic]. unfold supported.
  rewrite E66, E7x, E63, E62, E61, E5a. reflexivity.
Qed.

Lemma pass_loop_fail_kind (rounds : nat) (data : list Z) (w : walk) :
  accounted w ->
  match pass_loop rounds data w with
  | Stopped e _ => e = ErrOutOfBounds \/ walk_diagnostic e = true
  | _ => True
  end.
Proof.
  revert w. induction rounds as [|rounds IH]; intros w Ha; cbn [pass_loop].
  - destruct (data_len w >? 0); exact I.
  - destruct (data_len w >? 0); [|exact I].
    pose proof (round_accounted data w Ha) as Hra.
    pose proof (round_fail_kind data w Ha) as Hrf.
    destruct (round data w) as [w1|w1|e w1]; [|exact I|exact Hrf].
    apply IH. exact (proj1 Hra).
Qed.

Lemma passes_fail_kind (todo : nat) (sec : section) (i : Z) (w : walk) :
  accounted w ->
  match passes todo sec i w with
  | Stopped e _ => e = ErrOutOfBounds \/ walk_diagnostic e = true
  | _ => True
  end.
Proof.
  revert i w. induction todo as [|todo IH]; intros i w Ha; cbn [passes]; [exact I|].
  assert (Hstart : accounted (start_pass sec i w)).
  { unfold start_pass. destruct (i >? 0); exact Ha. }
  pose proof (pass_loop_fail_kind (Z.to_nat (data_len (start_pass sec i w)))
                (pData sec) _ Hstart) as Hpf.
  fold (pass sec i w) in Hpf.
  destruct (pass sec i w) as [w1|e w1|] eqn:Hpass; [|exact Hpf|exact I].
  apply IH. exact (proj1 (pass_accounted _ _ _ _ Ha Hpass)).
Qed.

Lemma readHead_fail_kind (file : list Z) (offs : Z) (e : error) :
  0 <= offs -> readHead file offs = Err e -> e = ErrReadByte.
Proof.
  intros Hoffs. unfold readHead. destruct (Z.ltb_spec offs 0) as [Hneg | _]; [lia|].
  unfold readDword, readByte.
  destruct (nth_error file (Z.to_nat offs)); cbn [bind];
    [|intros H; injection H as <-; reflexivity].
  destruct (nth_error file (Z.to_nat (offs + 1))); cbn [bind];
    [|intros H; injection H as <-; reflexivity].
  destruct (nth_error file (Z.to_nat (offs + 2))); cbn [bind];
    [|intros H; injection H as <-; reflexivity].
  destruct (nth_error file (Z.to_nat (offs + 3))); cbn [bind];
    [discriminate | intros H; injection H as <-; reflexivity].
Qed.

Lemma load_fail_kind (file : list Z) (e : error) :
  load file = Err e -> load_diagnostic e = true.
Proof.
  assert (Hread : forall offs e0, 0 <= offs -> readHead file offs = Err e0 ->
            load_diagnostic e0 = true).
  { intros offs e0 Hoffs H. rewrite (readHead_fail_kind _ _ _ Hoffs H). reflexivity. }
  unfold load, read_header.
  destruct (readHead file 0) as [magic|e0] eqn:H0; cbn [bind].
  2:{ intros H. injection H as <-. exact (Hread 0 _ ltac:(lia) H0). }
  destruct (negb (magic =? 0x206d6756)); cbn [bind].
  { intros H. injection H as <-. reflexivity. }
  destruct (readHead file 0x08) as [ver|e0] eqn:H8; cbn [bind].
  2:{ intros H. injection H as <-. exact (Hread 0x08 _ ltac:(lia) H8). }
  destruct (readHead file 0x04) as [h04|e0] eqn:H4; cbn [bind].
  2:{ intros H. injection H as <-. exact (Hread 0x04 _ ltac:(lia) H4). }
  destruct (readHead file 0x1c) as [h1c|e0] eqn:H1c; cbn [bind].
  2:{ intros H. injection H as <-. exact (Hread 0x1c _ ltac:(lia) H1c). }
  assert (Hsection : forall h, load_section file h = Err e ->
            load_diagnostic e = true).
  { intros h. unfold load_section.
    destruct ((loop_abs h <? data_offs h) || (loop_abs h >=? file_len h)).
    { intros H. injection H as <-. reflexivity. }
    destruct (file_len h <=? data_offs h).
    { intros H. injection H as <-. reflexivity. }
    destruct (wrap32 (file_len h - data_offs h) >? MAX_DATA_SECTION).
    { intros H. injection H as <-. reflexivity. }
    destruct (negb _); [|discriminate].
    intros H. injection H as <-. reflexivity. }
  destruct (ver >=? 0x150); cbn [bind]; [|apply Hsection].
  destruct (readHead file 0x34) as [h34|e0] eqn:H34; cbn [bind]; [apply Hsection|].
  intros H. injection H as <-. exact (Hread 0x34 _ ltac:(lia) H34).
Qed.

(** X18. However the converter is fed, it ends in one of three ways:
    it finishes; it stops during header resolution or loading, with
    one of the six diagnostics of that stage and nothing written; or
    it stops during the walk, on missing operands, on an opcode none
    of the branches handles, or on an overflow of the sample offset.
    The parameter check of [readHead] and the numeric check of the
    rate conversion never fail, no byte outside the loaded data is
    read, and the walk does not run on for ever. *)
Theorem decoder_endings (file : list Z) (rep_count : Z) :
  match main file rep_count with
  | Finished _ => True
  | Stopped e w =>
      (load_diagnostic e = true /\ w = initial) \/ walk_diagnostic e = true
  | NoRoundsLeft => False
  end.
Proof.
  pose proof (main_safe file rep_count) as Hsafe. unfold main in *.
  destruct (load file) as [sec|e] eqn:Hload.
  - unfold decode in *.
    pose proof (passes_fail_kind (Z.to_nat rep_count) sec 0 (print initial CmdHeader)
                  header_accounted) as Hkind.
    destruct (passes _ sec 0 _) as [w|e w|]; [exact I | | exact Hsafe].
    destruct Hkind as [Hout | Hwalk]; [contradiction | right; exact Hwalk].
  - left. split; [exact (load_fail_kind _ _ Hload) | reflexivity].
Qed.

(** The wait blocks write at most one line and leave the cursor. *)
Lemma handle_wait_length (w : walk) :
  match handle_wait w with
  | Continue w' =>
      (List.length (output w') <= S (List.length (output w)))%nat
      /\ data_len w' = data_len w
  | Break _ => False
  | Fail _ _ => True
  end.
Proof.
  unfold handle_wait.
  set (w0 := if wait_cmd w && (wait_req w <? 1) then set_wait w false (wait_req w)
             else w).
  assert (Hsame : output w0 = output w /\ data_len w0 = data_len w).
  { unfold w0. destruct (wait_cmd w && (wait_req w <? 1)); split; reflexivity. }
  destruct Hsame as [Hout Hlen].
  destruct (wait_cmd w0); [|rewrite Hout, Hlen; split; [lia | reflexivity]].
  destruct (samp_offs w0 <=? INT32_MAX - wait_req w0); [|exact I].
  destruct (control_position _) as [new_ctl|e]; [|exact I].
  destruct (new_ctl >? _);
    cbn [output data_len set_ctl_offs print set_samp_offs];
    rewrite ?length_app, Hout, Hlen; cbn [List.length]; split; first [lia | reflexivity].
Qed.

(** Every round that goes on uses up at least as many bytes as it
    writes lines. *)
Lemma round_length (data : list Z) (w : walk) :
  0 < data_len w < 2 ^ 32 ->
  match round data w with
  | Continue w' =>
      0 <= data_len w' < data_len w
      /\ Z.of_nat (List.length (output w')) + data_len w'
         <= Z.of_nat (List.length (output w)) + data_len w
  | Break w' => output w' = output w
  | Fail _ _ => True
  end.
Proof.
  intros Hlen.
  assert (Hwait : forall w1,
            0 < data_len w1 <= data_len w ->
            Z.of_nat (List.length (output w1)) + data_len w1
            <= Z.of_nat (List.length (output w)) + data_len w ->
            match
              match handle_wait w1 with
              | Continue w2 =>
                  Continue (set_cursor w2 (pd w2 + 1) (wrap32 (data_len w2 - 1)))
              | o => o
              end
            with
            | Continue w' =>
                0 <= data_len w' < data_len w
                /\ Z.of_nat (List.length (output w')) + data_len w'
                   <= Z.of_nat (List.length (output w)) + data_len w
            | Break w' => output w' = output w
            | Fail _ _ => True
            end).
  { intros w1 Hlen1 Hmeasure. pose proof (handle_wait_length w1) as H.
    destruct (handle_wait w1) as [w2|w2|e w2]; [|contradiction|exact I].
    destruct H as [Hout Hdl]. cbn [output data_len set_cursor].
    unfold wrap32. rewrite Z.mod_small by lia. lia. }
  assert (Hoperands : forall w0 k,
            data_len w0 = data_len w ->
            (forall b1 b2,
                data_len (k b1 b2 w0) = data_len w0
                /\ (List.length (output (k b1 b2 w0)) <= S (List.length (output w)))%nat) ->
            match
              match operands data w0 k with
              | Continue w1 =>
                  match handle_wait w1 with
                  | Continue w2 =>
                      Continue (set_cursor w2 (pd w2 + 1) (wrap32 (data_len w2 - 1)))
                  | o => o
                  end
              | o => o
              end
            with
            | Continue w' =>
                0 <= data_len w' < data_len w
                /\ Z.of_nat (List.length (output w')) + data_len w'
                   <= Z.of_nat (List.length (output w)) + data_len w
            | Break w' => output w' = output w
            | Fail _ _ => True
            end).
  { intros w0 k Hdl Hk. unfold operands.
    destruct (Z.ltb_spec (data_len w0) 3) as [Hshort | Hlong]; [exact I|].
    destruct (at_pd data w0 1) as [b1|]; [|exact I].
    destruct (at_pd data w0 2) as [b2|]; [|exact I].
    destruct (Hk b1 b2) as [Hkl Hko].
    apply Hwait; cbn [output data_len set_cursor]; unfold wrap32;
      rewrite Z.mod_small by lia; lia. }
  unfold round, dispatch.
  destruct (at_pd data w 0) as [op|]; [|exact I].
  destruct (op =? 0x66); [reflexivity|].
  destruct ((op >=? 0x70) && (op <=? 0x7f));
    [apply Hwait; cbn [output data_len set_wait]; lia|].
  destruct (op =? 0x63); [apply Hwait; cbn [output data_len set_wait]; lia|].
  destruct (op =? 0x62); [apply Hwait; cbn [output data_len set_wait]; lia|].
  destruct (op =? 0x61).
  { apply Hoperands; [reflexivity|]. intros b1 b2. cbn [output data_len set_wait].
    split; [reflexivity | lia]. }
  destruct (op =? 0x5a); [|exact I].
  apply Hoperands; [reflexivity|]. intros b1 b2.
  cbn [output data_len set_wait print]. rewrite length_app. cbn [List.length].
  split; [reflexivity | lia].
Qed.

Lemma pass_loop_length (rounds : nat) (data : list Z) (w w' : walk) :
  0 <= data_len w < 2 ^ 32 ->
  pass_loop rounds data w = Finished w' ->
  Z.of_nat (List.length (output w')) <= Z.of_nat (List.length (output w)) + data_len w.
Proof.
  revert w. induction rounds as [|rounds IH]; intros w Hlen; cbn [pass_loop].
  - destruct (data_len w >? 0); [discriminate|].
    intros H. injection H as <-. lia.
  - destruct (Z.gtb_spec (data_len w) 0) as [Hpos | Hzero].
    2:{ intros H. injection H as <-. lia. }
    pose proof (round_length data w ltac:(lia)) as Hround.
    destruct (round data w) as [w1|w1|e w1]; [| |discriminate].
    + destruct Hround as [Hlen1 Hmeasure]. intros H.
      specialize (IH w1 ltac:(lia) H). lia.
    + intros H. injection H as <-. rewrite Hround. lia.
Qed.

Lemma passes_length (todo : nat) (sec : section) (i : Z) (w w' : walk) :
  well_formed sec ->
  passes todo sec i w = Finished w' ->
  Z.of_nat (List.length (output w'))
  <= Z.of_nat (List.length (output w)) + Z.of_nat todo * full_length sec.
Proof.
  intros (Hlen & Hloop & Hmax). unfold MAX_DATA_SECTION in Hmax.
  revert i w. induction todo as [|todo IH]; intros i w; cbn [passes].
  - intros H. injection H as <-. lia.
  - destruct (pass sec i w) as [w1|e w1|] eqn:Hpass; try discriminate.
    intros H. specialize (IH _ _ H).
    unfold pass in Hpass. cbv zeta in Hpass.
    assert (Hstart : 0 <= data_len (start_pass sec i w) <= full_length sec
                     /\ output (start_pass sec i w) = output w).
    { unfold start_pass. destruct (i >? 0); cbn [data_len output set_cursor];
        [unfold wrap32; rewrite Z.mod_small by lia|]; split; first [lia | reflexivity]. }
    destruct Hstart as [Hdl Hout].
    apply pass_loop_length in Hpass; [|lia]. rewrite Hout in Hpass. lia.
Qed.

(** The length of what the converter has written when it finishes. *)
Lemma main_finished_length (file : list Z) (rep_count : Z) (w : walk) :
  0 <= rep_count ->
  main file rep_count = Finished w ->
  exists sec,
    load file = Ok sec /\ full_length sec <= MAX_DATA_SECTION
    /\ 0 < full_length sec
    /\ Z.of_nat (List.length (output w)) <= 1 + rep_count * full_length sec.
Proof.
  intros Hrep. unfold main. destruct (load file) as [sec|e] eqn:Hload; [|discriminate].
  unfold decode. intros Hrun. exists sec.
  pose proof (load_well_formed _ _ Hload) as Hwf.
  pose proof (passes_length _ _ _ _ _ Hwf Hrun) as Hlen.
  cbn [output print initial app List.length] in Hlen.
  rewrite Z2Nat.id in Hlen by lia.
  destruct Hwf as (_ & Hloop & Hmax).
  split; [reflexivity|]. split; [exact Hmax|]. split; lia.
Qed.

(** X19. The converter writes at most one line for every byte of
    the data section it walks over: when it finishes after
    [rep_count] passes, it has written the header line and at most
    [rep_count] times the length of the data section further lines.
    With the repeat counts the program accepts, 1 and 2, and the
    largest data section it loads (16 MiB) that is fewer than
    2147483647 lines, the most the interpreter reads. *)
Theorem output_length_bound (file : list Z) (rep_count : Z) (sec : section) (w : walk) :
  0 <= rep_count ->
  load file = Ok sec ->
  main file rep_count = Finished w ->
  Z.of_nat (List.length (output w)) <= 1 + rep_count * full_length sec
  /\ (rep_count <= 2 -> Z.of_nat (List.length (output w)) < INT32_MAX).
Proof.
  intros Hrep Hload Hrun.
  destruct (main_finished_length file rep_count w Hrep Hrun)
    as (sec' & Hload' & Hmax & Hpos & Hlen).
  rewrite Hload in Hload'. injection Hload' as <-.
  split; [exact Hlen|]. intros Hsmall.
  unfold MAX_DATA_SECTION, INT32_MAX in *. nia.
Qed.

Lemma output_length_bound_witness :
  Z.of_nat (List.length [CmdHeader; CmdW 16; CmdR 1 2]) <= 1 + 1 * 5
  /\ (1 <= 2 -> Z.of_nat (List.length [CmdHeader; CmdW 16; CmdR 1 2]) < INT32_MAX).
Proof.
  refine (output_length_bound sample_file 1 (mkSection [0x62; 0x5a; 1; 2; 0x66] 5 0)
            (mkWalk 4 1 false 735 735 16 [CmdHeader; CmdW 16; CmdR 1 2]) _ eq_refl
            eq_refl).
  lia.
Defined.

End DecoderFacts.

(** *** The converter and the interpreter together *)

Module PipelineFacts.
Import RetroOpl RetroOplFacts ReaderFacts ParserFacts CommandFacts BufferFacts RunFacts.
Import Vgm2Opl (command, CmdHeader, CmdR, CmdW, text, render, stdout,
                register_commands, body_command, total_wait, is_script).

Lemma readInput_next_line (st : state) (line rest : list Z) :
  input st = line ++ 10 :: rest ->
  Forall (fun c => printable c = true) line ->
  Z.of_nat (List.length line) <= LINE_MAXIMUM ->
  line_count st < INT32_MAX ->
  readInput st = (Ok true, set_input (set_line st (line_count st + 1) line) rest).
Proof.
  intros Hin Hp Hlen Hcount.
  pose proof (readInput_line st line rest Hp Hlen Hcount) as Hread.
  destruct st as [i lc lb tot fill tk cur tr]. cbn [input] in Hin. subst i.
  exact Hread.
Qed.

Lemma total_wait_nonneg (body : list command) :
  forallb body_command body = true -> 0 <= total_wait body.
Proof.
  induction body as [|c body IH]; [cbn; lia|].
  cbn [forallb]. intros H. apply andb_prop in H. destruct H as [Hc Hbody].
  specialize (IH Hbody). unfold total_wait in *. cbn [fold_right].
  destruct c as [|reg val|ticks]; try lia.
  cbn [body_command] in Hc. lia.
Qed.

Lemma length_stdout (body : list command) :
  (List.length body <= List.length (stdout body))%nat.
Proof.
  induction body as [|c body IH]; [cbn; lia|].
  unfold stdout in *. cbn [flat_map]. unfold render at 1.
  rewrite !length_app. cbn [List.length]. lia.
Qed.

(** A later tick count at control rate 980 is a later sample. *)
Lemma position_advances (t k sample_rate : Z) :
  sample_rate = 44100 \/ sample_rate = 48000 -> 0 <= t -> 1 <= k ->
  t * sample_rate / 980 < (t + k) * sample_rate / 980.
Proof.
  intros Hsr Ht Hk.
  assert (Hstep : t * sample_rate / 980 + 1 <= (t + k) * sample_rate / 980).
  { rewrite <- Z.div_add by lia. apply Z.div_le_mono; [lia|].
    destruct Hsr; subst sample_rate; lia. }
  lia.
Qed.

Lemma position_monotone (a b sample_rate : Z) :
  sample_rate = 44100 \/ sample_rate = 48000 -> a <= b ->
  a * sample_rate / 980 <= b * sample_rate / 980.
Proof.
  intros Hsr Hab. apply Z.div_le_mono; [lia|].
  destruct Hsr; subst sample_rate; lia.
Qed.

(** The loop of the interpreter over the body of a printed script. *)
Lemma body_loop_script (sample_rate : Z) (body : list command) :
  sample_rate = 44100 \/ sample_rate = 48000 ->
  forall (rounds : nat) (st : state),
    run_inv sample_rate 980 st ->
    forallb body_command body = true ->
    input st = stdout body ->
    line_count st + Z.of_nat (List.length body) <= INT32_MAX ->
    t st + total_wait body <= INT32_MAX ->
    (t st + total_wait body) * sample_rate / 980 <= INT32_MAX ->
    (List.length body < rounds)%nat ->
    exists st',
      body_loop rounds sample_rate 980 st = (Ok (Some tt), st')
      /\ run_inv sample_rate 980 st'
      /\ t st' = t st + total_wait body
      /\ register_writes (trace st')
         = register_writes (trace st) ++ register_commands body.
Proof.
  intros Hsr. induction body as [|c body IH];
    intros rounds st Hinv Hbody Hin Hlines Hticks Hpos Hrounds;
    (destruct rounds as [|rounds]; [cbn [List.length] in Hrounds; lia|]);
    cbn [body_loop]; unfold bind at 1.
  - exists st. unfold readInput, bind, get. rewrite Hin. cbn [stdout flat_map].
    unfold ret. cbn [total_wait fold_right register_commands flat_map].
    rewrite app_nil_r, Z.add_0_r. auto.
  - cbn [forallb] in Hbody. apply andb_prop in Hbody. destruct Hbody as [Hc Hbody].
    pose proof (total_wait_nonneg body Hbody) as Hrest.
    cbn [List.length] in Hlines, Hrounds.
    destruct (text_fits c (or_introl Hc)) as [Hp Hlen].
    assert (Hin' : input st = text c ++ 10 :: stdout body).
    { rewrite Hin. cbn [stdout flat_map]. unfold render. rewrite <- app_assoc.
      reflexivity. }
    rewrite (readInput_next_line st (text c) (stdout body) Hin' Hp Hlen ltac:(lia)).
    set (st1 := set_input (set_line st (line_count st + 1) (text c)) (stdout body)).
    assert (Hinv1 : run_inv sample_rate 980 st1).
    { apply (run_inv_frame sample_rate 980 st st1); auto. }
    destruct (proj1 Hinv) as [Ht0 _].
    unfold bind at 1.
    assert (Hline : exists st2,
              process_line sample_rate 980 st1 = (Ok (Some tt), st2)
              /\ run_inv sample_rate 980 st2
              /\ input st2 = stdout body /\ line_count st2 = line_count st + 1
              /\ t st2 + total_wait body = t st + total_wait (c :: body)
              /\ register_writes (trace st2) ++ register_commands body
                 = register_writes (trace st) ++ register_commands (c :: body)).
    { destruct c as [|reg val|ticks]; [discriminate| |].
      - cbn [body_command] in Hc.
        assert (Hrun : process_line sample_rate 980 st1
                       = (Ok (Some tt), emit st1 (OplWrite reg val))).
        { apply process_register_line; [lia | lia | reflexivity]. }
        exists (emit st1 (OplWrite reg val)). split; [exact Hrun|].
        destruct (process_line_run sample_rate 980 _ _ _ Hsr ltac:(lia) Hinv1 Hrun)
          as (_ & _ & _ & _ & Hinv2).
        split; [exact Hinv2|]. split; [reflexivity|]. split; [reflexivity|].
        split; [reflexivity|].
        cbn [trace emit st1 set_input set_line register_commands flat_map].
        rewrite register_writes_app, <- app_assoc. reflexivity.
      - cbn [body_command] in Hc.
        assert (Htw : total_wait (CmdW ticks :: body) = ticks + total_wait body)
          by reflexivity.
        rewrite Htw in *.
        rewrite (process_wait_line sample_rate 980 ticks st1 ltac:(lia) eq_refl).
        destruct (wait_command sample_rate 980 ticks st1) as [r st2] eqn:Hwait.
        destruct (wait_command_run sample_rate 980 ticks _ _ _ Hsr ltac:(lia) Hinv1
                    ltac:(lia) Hwait)
          as (Hin2 & Hln2 & (evs & Htr & Hse & _) & Hres).
        assert (Ht1 : t st1 = t st) by reflexivity.
        destruct (clock_position sample_rate 980 st1 Hsr ltac:(lia) (proj1 Hinv1))
          as [Hcur _].
        rewrite Ht1 in *.
        pose proof (position_advances (t st) ticks sample_rate Hsr ltac:(lia)
                      ltac:(lia)) as Hadv.
        pose proof (position_monotone (t st + ticks) (t st + (ticks + total_wait body))
                      sample_rate Hsr ltac:(lia)) as Hmono.
        destruct r as [x|e].
        + destruct Hres as (-> & Hinv2 & Ht2).
          exists st2. split; [reflexivity|]. split; [exact Hinv2|].
          split; [exact Hin2|]. split; [exact Hln2|]. split; [lia|].
          rewrite Htr, register_writes_app, (sample_events_no_writes evs Hse),
            app_nil_r.
          reflexivity.
        + exfalso. destruct Hres as [[_ H] | [[_ H] | [_ H]]]; lia. }
    destruct Hline as (st2 & Hrun & Hinv2 & Hin2 & Hln2 & Ht2 & Hwrites).
    rewrite Hrun.
    destruct (IH rounds st2 Hinv2 Hbody Hin2 ltac:(lia) ltac:(lia)
                ltac:(rewrite Ht2; exact Hpos) ltac:(lia))
      as (st' & Hloop & Hinv' & Ht' & Hw').
    exists st'. split; [exact Hloop|]. split; [exact Hinv'|].
    split; [lia|]. rewrite Hw'. exact Hwrites.
Qed.

(** [main] up to its loop, on a printed script. *)
Lemma start_script (sample_rate : Z) (body : list command) :
  sample_rate = 44100 \/ sample_rate = 48000 ->
  start sample_rate (initial (stdout (CmdHeader :: body)))
  = (Ok 980,
     mkState (stdout body) 1 (text CmdHeader) 0 0 0 0
       [OplInit sample_rate; WavBegin sample_rate]).
Proof.
  intros Hsr. unfold start, bind at 1, modify at 1. unfold bind at 1.
  assert (Hhead : readHeader (emit (initial (stdout (CmdHeader :: body)))
                                (OplInit sample_rate))
                  = (Ok 980,
                     mkState (stdout body) 1 (text CmdHeader) 0 0 0 0
                       [OplInit sample_rate])).
  { exact (readHeader_980 (emit (initial []) (OplInit sample_rate)) (stdout body)
             eq_refl). }
  rewrite Hhead. unfold bind at 1, beginWAV.
  destruct Hsr; subst sample_rate; reflexivity.
Qed.

(** The interpreter plays a printed script to its end when the script
    has fewer than 2^31 lines and the size of the file fits 32 bits. *)
Lemma script_plays (sample_rate : Z) (out : list command) :
  sample_rate = 44100 \/ sample_rate = 48000 ->
  is_script out = true ->
  Z.of_nat (List.length out) <= INT32_MAX ->
  2 * (total_wait out * sample_rate / 980) + 36 <= INT32_MAX ->
  exists st,
    main sample_rate (initial (stdout out)) = (Ok (Some tt), st)
    /\ t st = total_wait out
    /\ register_writes (trace st) = register_commands out.
Proof.
  intros Hsr Hscript Hlines Hsize.
  destruct out as [|c body]; [discriminate|]. destruct c; try discriminate.
  cbn [is_script] in Hscript. cbn [List.length] in Hlines.
  change (total_wait (CmdHeader :: body)) with (total_wait body) in *.
  change (register_commands (CmdHeader :: body)) with (register_commands body).
  pose proof (total_wait_nonneg body Hscript) as Hwait.
  assert (Hticks : total_wait body <= total_wait body * sample_rate / 980).
  { apply Z.div_le_lower_bound; [lia|]. destruct Hsr; subst sample_rate; lia. }
  pose proof (start_script sample_rate body Hsr) as Hstart.
  pose proof (start_run _ _ _ _ Hsr Hstart) as (_ & Hinv0 & _).
  unfold main, bind at 1. rewrite Hstart. unfold bind at 1, get. unfold bind at 1.
  cbn [input].
  pose proof (length_stdout body) as Hlen.
  destruct (body_loop_script sample_rate body Hsr (S (List.length (stdout body)))
              (mkState (stdout body) 1 (text CmdHeader) 0 0 0 0
                 [OplInit sample_rate; WavBegin sample_rate]) Hinv0 Hscript eq_refl)
    as (st1 & Hloop & Hinv1 & Ht1 & Hw1);
    cbn [line_count t]; rewrite ?Z.add_0_l; try lia.
  rewrite Hloop. cbn [t trace register_writes flat_map app] in Ht1, Hw1.
  rewrite Z.add_0_l in Ht1.
  destruct Hinv1 as (Hclock & Hbuf & Hgen).
  destruct (clock_position sample_rate 980 st1 Hsr ltac:(lia) Hclock) as [Hcur Hrange].
  assert (Hbuf' : buffer_inv (emit st1 OplFinish)).
  { apply (buffer_inv_extend st1 (emit st1 OplFinish) [OplFinish] 0);
      try assumption; try reflexivity;
      cbn [s_total s_fill emit written generated fold_right];
      destruct Hbuf as (? & ? & _); lia. }
  assert (Hgen' : generated (trace (emit st1 OplFinish)) = current st1).
  { cbn [trace emit]. rewrite generated_app. cbn. lia. }
  unfold bind at 1, modify at 1. unfold bind at 1.
  destruct (finishWAV (emit st1 OplFinish)) as [[u|e] st2] eqn:Hfinish;
    destruct (finishWAV_run _ _ _ Hbuf' ltac:(lia) Hfinish)
      as (Ht2 & _ & evs & _ & Hse & _ & _ & Hres);
    rewrite Hgen' in Hres; cbn [t trace emit] in Ht2, Hres.
  2:{ exfalso. destruct Hres as (_ & Hover & _). rewrite Hcur, Ht1 in Hover. lia. }
  exists st2. unfold ret. split; [reflexivity|]. split; [lia|].
  destruct Hres as (Htr & _). rewrite Htr, <- app_assoc, !register_writes_app, Hw1.
  rewrite (sample_events_no_writes evs Hse). cbn [register_writes flat_map app].
  apply app_nil_r.
Qed.



End PipelineFacts.

(** *** The bytes of the WAV file *)

Module WavFacts.
Import WavFile.

Lemma fputc_append (b : Z) (f : file) :
  position f = List.length (content f) ->
  fputc b f = mkFile (content f ++ [b]) (S (List.length (content f))).
Proof.
  intros H. unfold fputc. rewrite H, firstn_all, skipn_all2 by lia. reflexivity.
Qed.

(** Writing at the end of the file appends. *)
Lemma fwrite_append (bs : list Z) (f : file) :
  position f = List.length (content f) ->
  fwrite bs f = mkFile (content f ++ bs) (List.length (content f) + List.length bs).
Proof.
  revert f. induction bs as [|b bs IH]; intros f H; unfold fwrite; cbn [fold_left].
  - rewrite app_nil_r, Nat.add_0_r. destruct f as [c p]. cbn in *. subst p.
    reflexivity.
  - fold (fwrite bs (fputc b f)). rewrite (fputc_append b f H).
    rewrite IH by (cbn [content position]; rewrite length_app; cbn; lia).
    cbn [content]. rewrite <- app_assoc, length_app. cbn [app List.length].
    f_equal. lia.
Qed.

(** The four bytes [writeDword] passes to [writeByte]. *)
Lemma dword_bytes (v : Z) :
  (Z.land v 0xff) mod 256 = v mod 256
  /\ (Z.land (Z.shiftr v 8) 0xff) mod 256 = (v / 256) mod 256
  /\ (Z.land (Z.shiftr v 16) 0xff) mod 256 = (v / 65536) mod 256
  /\ (Z.shiftr v 24) mod 256 = (v / 16777216) mod 256.
Proof.
  change 0xff with (Z.ones 8).
  rewrite !Z.land_ones, !Z.shiftr_div_pow2 by lia.
  change (2 ^ 8) with 256. change (2 ^ 16) with 65536. change (2 ^ 24) with 16777216.
  rewrite !Z.mod_mod by lia. auto.
Qed.

Lemma writeDword_append (v : Z) (f : file) :
  position f = List.length (content f) ->
  writeDword v f
  = mkFile (content f ++ [v mod 256; (v / 256) mod 256; (v / 65536) mod 256;
                          (v / 16777216) mod 256])
      (List.length (content f) + 4).
Proof.
  intros H. destruct (dword_bytes v) as (H0 & H1 & H2 & H3).
  unfold writeDword, writeByte. rewrite H0, H1, H2, H3.
  exact (fwrite_append [v mod 256; (v / 256) mod 256; (v / 65536) mod 256;
                        (v / 16777216) mod 256] f H).
Qed.

(** Bits that do not overlap add up. *)
Lemma lor_shiftl_add (a b n : Z) :
  0 <= n -> 0 <= a < 2 ^ n -> Z.lor a (Z.shiftl b n) = a + b * 2 ^ n.
Proof.
  intros Hn Ha.
  assert (Hdisjoint : Z.land a (Z.shiftl b n) = 0).
  { apply Z.bits_inj'. intros i Hi. rewrite Z.land_spec, Z.bits_0.
    destruct (Z.ltb_spec i n) as [Hlow | Hhigh].
    - rewrite Z.shiftl_spec_low by lia. apply andb_false_r.
    - rewrite <- (Z.mod_small a (2 ^ n)) by lia.
      rewrite Z.mod_pow2_bits_high by lia. reflexivity. }
  rewrite <- Z.lxor_lor, <- Z.add_nocarry_lxor by exact Hdisjoint.
  rewrite Z.shiftl_mul_pow2 by lia. reflexivity.
Qed.

Lemma readByte_app (pre l : list Z) (i : nat) :
  Vgm2Opl.readByte (pre ++ l) (Z.of_nat (List.length pre) + Z.of_nat i)
  = match nth_error l i with
    | Some b => Vgm2Opl.Ok b
    | None => Vgm2Opl.Err Vgm2Opl.ErrReadByte
    end.
Proof.
  unfold Vgm2Opl.readByte.
  replace (Z.to_nat (Z.of_nat (List.length pre) + Z.of_nat i))
    with (List.length pre + i)%nat by lia.
  rewrite nth_error_app2 by lia.
  replace (List.length pre + i - List.length pre)%nat with i by lia.
  reflexivity.
Qed.

(** [readDword] of [vgm2opl.c] reads four bytes as a little-endian
    number. *)
Lemma readDword_bytes (pre rest : list Z) (b0 b1 b2 b3 : Z) :
  0 <= b0 <= 255 -> 0 <= b1 <= 255 -> 0 <= b2 <= 255 -> 0 <= b3 <= 255 ->
  Vgm2Opl.readDword (pre ++ b0 :: b1 :: b2 :: b3 :: rest) (Z.of_nat (List.length pre))
  = Vgm2Opl.Ok (b0 + 256 * b1 + 65536 * b2 + 16777216 * b3).
Proof.
  intros H0 H1 H2 H3. unfold Vgm2Opl.readDword, Vgm2Opl.bind.
  pose proof (readByte_app pre (b0 :: b1 :: b2 :: b3 :: rest) 0) as R0.
  pose proof (readByte_app pre (b0 :: b1 :: b2 :: b3 :: rest) 1) as R1.
  pose proof (readByte_app pre (b0 :: b1 :: b2 :: b3 :: rest) 2) as R2.
  pose proof (readByte_app pre (b0 :: b1 :: b2 :: b3 :: rest) 3) as R3.
  cbn [nth_error] in R0, R1, R2, R3.
  change (Z.of_nat 0) with 0 in R0. rewrite Z.add_0_r in R0.
  change (Z.of_nat 1) with 1 in R1. change (Z.of_nat 2) with 2 in R2.
  change (Z.of_nat 3) with 3 in R3.
  rewrite R0, R1, R2, R3. f_equal.
  rewrite (lor_shiftl_add b0 b1 8) by lia.
  rewrite (lor_shiftl_add (b0 + b1 * 2 ^ 8) b2 16) by lia.
  rewrite (lor_shiftl_add (b0 + b1 * 2 ^ 8 + b2 * 2 ^ 16) b3 24) by lia.
  lia.
Qed.

Lemma dword_at_app (pre l : list Z) :
  dword_at (pre ++ l) (List.length pre) = dword_at l 0.
Proof.
  unfold dword_at. rewrite !app_nth2 by lia.
  replace (List.length pre - List.length pre)%nat with 0%nat by lia.
  replace (List.length pre + 1 - List.length pre)%nat with 1%nat by lia.
  replace (List.length pre + 2 - List.length pre)%nat with 2%nat by lia.
  replace (List.length pre + 3 - List.length pre)%nat with 3%nat by lia.
  reflexivity.
Qed.

(** X15. Both programs use the same 32-bit little-endian layout:
    [readDword] of the converter reads four bytes as the number
    [b0 + 256 b1 + 65536 b2 + 16777216 b3], and what [writeDword] of
    the interpreter appends to a file for an unsigned 32-bit value is
    four bytes that [readDword] reads back as that value. *)
Theorem dword_written_is_read_back (v : Z) (pre : list Z) :
  0 <= v < 2 ^ 32 ->
  let f := writeDword v (mkFile pre (List.length pre)) in
  List.length (content f) = (List.length pre + 4)%nat
  /\ firstn (List.length pre) (content f) = pre
  /\ Forall (fun b => 0 <= b <= 255) (skipn (List.length pre) (content f))
  /\ dword_at (content f) (List.length pre) = v
  /\ Vgm2Opl.readDword (content f) (Z.of_nat (List.length pre)) = Vgm2Opl.Ok v.
Proof.
  intros Hv f. unfold f.
  rewrite (writeDword_append v (mkFile pre (List.length pre)) eq_refl).
  cbn [content].
  pose proof (Z.mod_pos_bound v 256 ltac:(lia)) as B0.
  pose proof (Z.mod_pos_bound (v / 256) 256 ltac:(lia)) as B1.
  pose proof (Z.mod_pos_bound (v / 65536) 256 ltac:(lia)) as B2.
  pose proof (Z.mod_pos_bound (v / 16777216) 256 ltac:(lia)) as B3.
  assert (Hvalue : v mod 256 + 256 * ((v / 256) mod 256)
                   + 65536 * ((v / 65536) mod 256)
                   + 16777216 * ((v / 16777216) mod 256) = v).
  { clear B0 B1 B2 B3. Z.div_mod_to_equations. lia. }
  split; [rewrite length_app; reflexivity|].
  split.
  { rewrite firstn_app, firstn_all, Nat.sub_diag. cbn [firstn]. apply app_nil_r. }
  split.
  { rewrite skipn_app, skipn_all, Nat.sub_diag. cbn [skipn app].
    repeat constructor; lia. }
  split.
  { rewrite dword_at_app. unfold dword_at. cbn [nth]. exact Hvalue. }
  rewrite readDword_bytes by lia. f_equal. exact Hvalue.
Qed.

Lemma dword_written_is_read_back_witness :
  let f := writeDword 44100 (mkFile [82; 73; 70; 70] 4) in
  List.length (content f) = 8%nat
  /\ firstn 4 (content f) = [82; 73; 70; 70]
  /\ Forall (fun b => 0 <= b <= 255) (skipn 4 (content f))
  /\ dword_at (content f) 4 = 44100
  /\ Vgm2Opl.readDword (content f) 4 = Vgm2Opl.Ok 44100.
Proof.
  refine (dword_written_is_read_back 44100 [82; 73; 70; 70] _). lia.
Defined.

(** The bytes [writeDword] makes of a value add up to it. *)
Lemma le32_value (v : Z) :
  0 <= v < 2 ^ 32 ->
  (Z.land v 0xff) mod 256 + 256 * ((Z.land (Z.shiftr v 8) 0xff) mod 256)
  + 65536 * ((Z.land (Z.shiftr v 16) 0xff) mod 256)
  + 16777216 * ((Z.shiftr v 24) mod 256) = v.
Proof.
  intros Hv. destruct (dword_bytes v) as (H0 & H1 & H2 & H3).
  rewrite H0, H1, H2, H3. Z.div_mod_to_equations. lia.
Qed.

(** The header sizes are patched in place: the seeks of [finishWAV]
    land on bytes that exist, so the file keeps its length and its
    samples. *)
Lemma finishWAV_patches (sample_rate n : Z) (data : list Z) :
  sample_rate = 44100 \/ sample_rate = 48000 ->
  0 <= n -> 2 * n + 36 <= INT32_MAX ->
  exists c4 c5 c6 c7 d0 d1 d2 d3,
    finishWAV n (fwrite data (beginWAV sample_rate))
    = Some (mkFile
              (firstn 4 (content (beginWAV sample_rate)) ++ [c4; c5; c6; c7]
               ++ firstn 32 (skipn 8 (content (beginWAV sample_rate)))
               ++ [d0; d1; d2; d3] ++ data) 44)
    /\ c4 + 256 * c5 + 65536 * c6 + 16777216 * c7 = 2 * n + 36
    /\ d0 + 256 * d1 + 65536 * d2 + 16777216 * d3 = 2 * n.
Proof.
  intros Hsr Hn Hsize. unfold INT32_MAX in *.
  assert (Happend : fwrite data (beginWAV sample_rate)
                    = mkFile (content (beginWAV sample_rate) ++ data)
                        (44 + List.length data)).
  { rewrite fwrite_append; destruct Hsr; subst sample_rate; reflexivity. }
  rewrite Happend. unfold finishWAV.
  change (INT32_MAX / 2) with 1073741823. unfold INT32_MAX.
  destruct (Z.leb_spec n 1073741823) as [_ | Hno]; [|lia].
  destruct (Z.leb_spec (n * 2) (2147483647 - 36)) as [_ | Hno]; [|lia].
  exists ((Z.land (wrap32 (n * 2 + 36)) 0xff) mod 256),
    ((Z.land (Z.shiftr (wrap32 (n * 2 + 36)) 8) 0xff) mod 256),
    ((Z.land (Z.shiftr (wrap32 (n * 2 + 36)) 16) 0xff) mod 256),
    ((Z.shiftr (wrap32 (n * 2 + 36)) 24) mod 256),
    ((Z.land (wrap32 (n * 2)) 0xff) mod 256),
    ((Z.land (Z.shiftr (wrap32 (n * 2)) 8) 0xff) mod 256),
    ((Z.land (Z.shiftr (wrap32 (n * 2)) 16) 0xff) mod 256),
    ((Z.shiftr (wrap32 (n * 2)) 24) mod 256).
  split.
  - destruct Hsr; subst sample_rate;
      match goal with
      | |- context [content (beginWAV ?r)] =>
          let h := eval vm_compute in (content (beginWAV r)) in
          change (content (beginWAV r)) with h
      end;
      cbn [writeDword writeByte fputc fseek content position firstn skipn app];
      reflexivity.
  - unfold wrap32.
    rewrite (Z.mod_small (n * 2 + 36) (2 ^ 32)), (Z.mod_small (n * 2) (2 ^ 32)) by lia.
    rewrite (le32_value (n * 2 + 36)) by lia. rewrite (le32_value (n * 2)) by lia.
    lia.
Qed.

(** X16. The file [beginWAV], the flushes and [finishWAV] leave
    behind, for [n] samples ([2n] bytes of sample data written after
    the header).  [finishWAV] writes the sizes exactly when [2n + 36]
    fits 32 bits, and then the file is [44 + 2n] bytes long; it starts
    with ["RIFF"], the chunk size [2n + 36] (the file length less 8),
    ["WAVEfmt "], the format size 16, format 1 (PCM), 1 channel, the
    sampling rate, the byte rate (twice the sampling rate), block
    align 2 and 16 bits per sample, ["data"] and the data size [2n];
    the sample bytes follow unchanged. *)
Theorem wav_file_layout (sample_rate n : Z) (data : list Z) :
  sample_rate = 44100 \/ sample_rate = 48000 ->
  Z.of_nat (List.length data) = 2 * n ->
  match finishWAV n (fwrite data (beginWAV sample_rate)) with
  | None => INT32_MAX < 2 * n + 36
  | Some f =>
      2 * n + 36 <= INT32_MAX
      /\ Z.of_nat (List.length (content f)) = 44 + 2 * n
      /\ firstn 4 (content f) = bytes_of "RIFF"
      /\ dword_at (content f) 4 = 2 * n + 36
      /\ firstn 8 (skipn 8 (content f)) = bytes_of "WAVEfmt "
      /\ dword_at (content f) 16 = 16
      /\ word_at (content f) 20 = 1 /\ word_at (content f) 22 = 1
      /\ dword_at (content f) 24 = sample_rate
      /\ dword_at (content f) 28 = 2 * sample_rate
      /\ word_at (content f) 32 = 2 /\ word_at (content f) 34 = 16
      /\ firstn 4 (skipn 36 (content f)) = bytes_of "data"
      /\ dword_at (content f) 40 = 2 * n
      /\ skipn 44 (content f) = data
  end.
Proof.
  intros Hsr Hlen.
  destruct (Z.le_gt_cases (2 * n + 36) INT32_MAX) as [Hsize | Hsize].
  - destruct (finishWAV_patches sample_rate n data Hsr ltac:(lia) Hsize)
      as (c4 & c5 & c6 & c7 & d0 & d1 & d2 & d3 & Hfinish & Hchunk & Hdata).
    rewrite Hfinish. cbn [content]. split; [exact Hsize|].
    destruct Hsr; subst sample_rate;
      match goal with
      | |- context [content (beginWAV ?r)] =>
          let h := eval vm_compute in (content (beginWAV r)) in
          change (content (beginWAV r)) with h
      end;
      cbn [firstn skipn app]; unfold dword_at, word_at; cbn [nth Nat.add];
      (split; [cbn [List.length]; lia|]);
      (split; [reflexivity|]); (split; [exact Hchunk|]);
      (split; [reflexivity|]); (split; [reflexivity|]);
      (split; [reflexivity|]); (split; [reflexivity|]);
      (split; [reflexivity|]); (split; [reflexivity|]);
      (split; [reflexivity|]); (split; [reflexivity|]);
      (split; [reflexivity|]); (split; [exact Hdata | reflexivity]).
  - unfold finishWAV, INT32_MAX in *.
    change (2147483647 / 2) with 1073741823.
    destruct (Z.leb_spec n 1073741823) as [Hhalf | Hhalf]; [|lia].
    destruct (Z.leb_spec (n * 2) (2147483647 - 36)) as [Hfit | Hfit]; lia.
Qed.

Lemma wav_file_layout_witness :
  match finishWAV 2 (fwrite [1; 0; 255; 255] (beginWAV 44100)) with
  | None => INT32_MAX < 2 * 2 + 36
  | Some f =>
      2 * 2 + 36 <= INT32_MAX
      /\ Z.of_nat (List.length (content f)) = 44 + 2 * 2
      /\ firstn 4 (content f) = bytes_of "RIFF"
      /\ dword_at (content f) 4 = 2 * 2 + 36
      /\ firstn 8 (skipn 8 (content f)) = bytes_of "WAVEfmt "
      /\ dword_at (content f) 16 = 16
      /\ word_at (content f) 20 = 1 /\ word_at (content f) 22 = 1
      /\ dword_at (content f) 24 = 44100
      /\ dword_at (content f) 28 = 2 * 44100
      /\ word_at (content f) 32 = 2 /\ word_at (content f) 34 = 16
      /\ firstn 4 (skipn 36 (content f)) = bytes_of "data"
      /\ dword_at (content f) 40 = 2 * 2
      /\ skipn 44 (content f) = [1; 0; 255; 255]
  end.
Proof.
  exact (wav_file_layout 44100 2 [1; 0; 255; 255] (or_introl eq_refl) eq_refl).
Defined.

(** X17. The bytes of the samples go to the file in the byte order of
    the machine.  [isLittleEndian] answers 1 on a little-endian machine
    and 2 on a big-endian one, never 0, so the test
    [!isLittleEndian()] of [flushBuffer] fails on both and the loop
    that reverses each pair of bytes never runs: on a big-endian
    machine every sample is written high byte first. *)
Theorem samples_keep_host_byte_order (host : byte_order) (s_buf : list Z) :
  Forall (fun v => 0 <= v < 65536) s_buf ->
  isLittleEndian host = Some (match host with
                              | LittleEndianHost => 1
                              | BigEndianHost => 2
                              end)
  /\ sample_bytes host s_buf
     = Some (flat_map (fun v => match host with
                                | LittleEndianHost => [v mod 256; v / 256]
                                | BigEndianHost => [v / 256; v mod 256]
                                end) s_buf).
Proof.
  intros Hrange. split; [destruct host; reflexivity|].
  assert (Hmap : flat_map (store16 host) s_buf
                 = flat_map (fun v => match host with
                                      | LittleEndianHost => [v mod 256; v / 256]
                                      | BigEndianHost => [v / 256; v mod 256]
                                      end) s_buf).
  { induction Hrange as [|v rest Hv _ IH]; [reflexivity|].
    cbn [flat_map]. rewrite IH. unfold store16.
    rewrite (Z.mod_small v 65536) by lia. destruct host; reflexivity. }
  rewrite <- Hmap. destruct host; reflexivity.
Qed.

Lemma samples_keep_host_byte_order_witness :
  isLittleEndian BigEndianHost = Some 2
  /\ sample_bytes BigEndianHost [0x1234; 1]
     = Some (flat_map (fun v => [v / 256; v mod 256]) [0x1234; 1]).
Proof.
  refine (samples_keep_host_byte_order BigEndianHost [0x1234; 1] _).
  repeat constructor; lia.
Defined.

End WavFacts.
